(** * The model lifecycle and similarity manager

    A shallow embedding of [OptimizedAIModelManager]
    (app/models/ai_models.py): the lazily loaded sentence-embedding model,
    the blocking and the thread-offloaded similarity entry points, and the
    readiness query.

    The embedding backend (the [sentence_transformers] package, the file
    system and the settings module) is an external collaborator.  It is
    modelled as a script of replies indexed by the number of events that
    happened before the call, so that a theorem quantified over every
    [Backend] covers every behaviour of the collaborator, transient faults
    included.  Embedding components and scores are rationals, and [np.dot]
    is taken without rounding; the float32 arithmetic of numpy, with its
    rounding, infinities and NaN, is the subject of the module [Float32]
    further down. *)

From Stdlib Require Import QArith Qabs Lqa Lia List String Bool.
From stdpp Require Import base list strings gmap.
Import ListNotations.

(** ** Python values *)

(** The classes below [Exception] that the manager can meet.  Both handlers
    of the module are [except Exception], which catches every one of them.
    [KeyboardInterrupt] and [SystemExit] are not below [Exception] and are
    outside the model. *)
Inductive Exception : Type :=
| OSError
| ImportError
| ValueError
| IndexError
| AttributeError
| RuntimeError
| MemoryError.

(** A loaded model is an object; two handles are the same instance exactly
    when their addresses agree. *)
Inductive SentenceTransformer : Type :=
| ModelObject (addr : nat).

(** app/core/config.py, the two fields the manager reads. *)
Record Settings : Type := {
  model_name : string;
  model_cache_dir : string
}.

Definition default_settings : Settings :=
  {| model_name := "all-MiniLM-L6-v2"; model_cache_dir := "./models" |}.

(** One embedding: a row of the array returned by [encode]. *)
Definition Embedding : Type := list Q.

(** What a Python call does: it returns, it raises, or it never comes back
    (an [acquire] on a lock that is held). *)
Inductive outcome (A : Type) : Type :=
| Returned (a : A)
| Raised (e : Exception)
| Blocked.
Arguments Returned {A} a.
Arguments Raised {A} e.
Arguments Blocked {A}.

(** What the collaborator answers to one call. *)
Inductive reply (A : Type) : Type :=
| Ok (a : A)
| Fails (e : Exception).
Arguments Ok {A} a.
Arguments Fails {A} e.

(** ** Observable events *)

(** The four records the module writes through [logger]. *)
Inductive LogRecord : Type :=
| INFO_loading_model (name : string)
| INFO_model_loaded
| ERROR_failed_to_load (e : Exception)
| ERROR_failed_to_calculate (e : Exception).

Inductive Event : Type :=
| EvImportSettings
| EvMakedirs (path : string)
| EvConstruct (name cache : string)
| EvEval (m : SentenceTransformer)
| EvEncode (m : SentenceTransformer) (texts : list string)
           (normalize_embeddings : bool)
| EvLog (r : LogRecord).

(** ** The collaborator *)

(** Each field is the reply to the call made when [t] events have already
    happened.  The boolean of [model_encode] is the keyword argument
    [normalize_embeddings]. *)
Record Backend : Type := {
  import_settings : nat -> reply Settings;
  os_makedirs : nat -> string -> reply unit;
  new_SentenceTransformer : nat -> string -> string -> reply SentenceTransformer;
  model_eval : nat -> SentenceTransformer -> reply unit;
  model_encode :
    nat -> SentenceTransformer -> list string -> bool -> reply (list Embedding)
}.

(** ** The process state *)

(** The only callable ever handed to the pool is the bound method
    [_calculate_similarity_sync], with its two arguments. *)
Inductive WorkItem : Type :=
| Call_calculate_similarity_sync (text1 text2 : string).

(** [ThreadPoolExecutor]: the FIFO work queue and the futures created by
    [submit], keyed by a serial number. *)
Record ThreadPoolExecutor : Type := {
  work_queue : list (nat * WorkItem);
  futures : gmap nat (outcome Q);
  next_future : nat
}.

Definition new_executor : ThreadPoolExecutor :=
  {| work_queue := []; futures := ∅; next_future := 0 |}.

Record World : Type := {
  _model : option SentenceTransformer;
  _model_loaded : bool;
  _lock : bool;
  _executor : ThreadPoolExecutor;
  trace : list Event
}.

(** The state right after the module is imported: the class attributes of
    lines 16-20 and the pool made by [__init__].  Line 131 creates the one
    manager of the process, and [__new__] hands that same object to any
    later construction, so every caller works on this state. *)
Definition fresh_world : World :=
  {| _model := None; _model_loaded := false; _lock := false;
     _executor := new_executor; trace := [] |}.

Definition now (w : World) : nat := length (trace w).

Definition with_model (v : option SentenceTransformer) (w : World) : World :=
  {| _model := v; _model_loaded := _model_loaded w; _lock := _lock w;
     _executor := _executor w; trace := trace w |}.

Definition with_model_loaded (v : bool) (w : World) : World :=
  {| _model := _model w; _model_loaded := v; _lock := _lock w;
     _executor := _executor w; trace := trace w |}.

Definition with_lock_held (v : bool) (w : World) : World :=
  {| _model := _model w; _model_loaded := _model_loaded w; _lock := v;
     _executor := _executor w; trace := trace w |}.

Definition with_executor (v : ThreadPoolExecutor) (w : World) : World :=
  {| _model := _model w; _model_loaded := _model_loaded w; _lock := _lock w;
     _executor := v; trace := trace w |}.

Definition record_event (ev : Event) (w : World) : World :=
  {| _model := _model w; _model_loaded := _model_loaded w; _lock := _lock w;
     _executor := _executor w; trace := ev :: trace w |}.

(** ** A state and exception monad for method bodies *)

Definition M (A : Type) : Type := World -> outcome A * World.

Definition ret {A} (a : A) : M A := fun w => (Returned a, w).

Definition raise {A} (e : Exception) : M A := fun w => (Raised e, w).

Definition bind {A B} (c : M A) (k : A -> M B) : M B :=
  fun w =>
    match c w with
    | (Returned a, w') => k a w'
    | (Raised e, w') => (Raised e, w')
    | (Blocked, w') => (Blocked, w')
    end.

Declare Scope py_scope.
Delimit Scope py_scope with py.
Bind Scope py_scope with M.
Notation "x <- c ;; k" := (bind c (fun x => k))
  (at level 100, c at next level, k at level 200, right associativity)
  : py_scope.
Notation "c ;; k" := (bind c (fun _ => k))
  (at level 100, k at level 200, right associativity) : py_scope.
Open Scope py_scope.

(** [try: body except Exception as e: handler e]. *)
Definition try_except {A} (body : M A) (handler : Exception -> M A) : M A :=
  fun w =>
    match body w with
    | (Raised e, w') => handler e w'
    | r => r
    end.

(** [with self._lock: body].  [threading.Lock] is not reentrant: acquiring
    it while it is held never returns.  The lock is released when the block
    is left, by [return] or by an exception alike. *)
Definition with_self_lock {A} (body : M A) : M A :=
  fun w =>
    if _lock w then (Blocked, w)
    else
      match body (with_lock_held true w) with
      | (Blocked, w') => (Blocked, w')
      | (r, w') => (r, with_lock_held false w')
      end.

(** [with threading.Lock(): body] (line 91).  The lock is created by the
    statement itself, so it is free when acquired and nobody else holds a
    reference to it. *)
Definition with_fresh_lock {A} (body : M A) : M A := body.

Definition get_model_attr : M (option SentenceTransformer) :=
  fun w => (Returned (_model w), w).

Definition get_model_loaded : M bool :=
  fun w => (Returned (_model_loaded w), w).

Definition set_model (m : SentenceTransformer) : M unit :=
  fun w => (Returned tt, with_model (Some m) w).

Definition set_model_loaded (b : bool) : M unit :=
  fun w => (Returned tt, with_model_loaded b w).

Definition logger (r : LogRecord) : M unit :=
  fun w => (Returned tt, record_event (EvLog r) w).

Definition of_reply {A} (r : reply A) : outcome A :=
  match r with
  | Ok a => Returned a
  | Fails e => Raised e
  end.

(** A call into the collaborator: the reply is the one scripted for the
    current instant, and the call is recorded. *)
Definition call {A} (ev : Event) (r : nat -> reply A) : M A :=
  fun w => (of_reply (r (now w)), record_event ev w).

(** ** numpy *)

(** The sum of the products of the components of two rows of equal
    length. *)
Fixpoint dot (u v : Embedding) : Q :=
  match u, v with
  | x :: u', y :: v' => x * y + dot u' v'
  | _, _ => 0
  end.

(** [np.dot] of two one-dimensional arrays raises [ValueError] when their
    shapes are not aligned.  The sum is the exact one; [Float32.np_dot]
    rounds as numpy does. *)
Definition np_dot (u v : Embedding) : M Q :=
  if Nat.eqb (length u) (length v) then ret (dot u v) else raise ValueError.

(** [embeddings[i]] raises [IndexError] past the last row. *)
Definition getitem (embeddings : list Embedding) (i : nat) : M Embedding :=
  match embeddings !! i with
  | Some row => ret row
  | None => raise IndexError
  end.

Definition sqnorm (u : Embedding) : Q := dot u u.

(** [x is None]. *)
Definition is_None {A} (x : option A) : bool :=
  match x with
  | None => true
  | Some _ => false
  end.

(** [not text] on a [str]: true exactly for the empty string. *)
Definition py_not (text : string) : bool :=
  match text with
  | EmptyString => true
  | String _ _ => false
  end.

(** ** OptimizedAIModelManager *)

Section Manager.

Variable bk : Backend.

(** [self._model_loaded and self._model is not None], the test of lines
    40, 44 and 123.  [and] short-circuits, and both operands are
    booleans. *)
Definition model_is_loaded : M bool :=
  loaded <- get_model_loaded ;;
  if loaded
  then (m <- get_model_attr ;; ret (negb (is_None m)))
  else ret false.

(** [self._model.eval()]: the attribute is read again, then the method of
    the object found there is called. *)
Definition eval_self_model : M unit :=
  m <- get_model_attr ;;
  match m with
  | Some obj => call (EvEval obj) (fun t => model_eval bk t obj)
  | None => raise AttributeError
  end.

(** Lines 47-69, the body of [try].  The readings of [time.time()] only
    feed the text of the log record and are left out. *)
Definition load_attempt : M (option SentenceTransformer) :=
  settings <- call EvImportSettings (import_settings bk) ;;
  call (EvMakedirs (model_cache_dir settings))
       (fun t => os_makedirs bk t (model_cache_dir settings)) ;;
  logger (INFO_loading_model (model_name settings)) ;;
  obj <- call (EvConstruct (model_name settings) (model_cache_dir settings))
              (fun t => new_SentenceTransformer bk t (model_name settings)
                          (model_cache_dir settings)) ;;
  set_model obj ;;
  eval_self_model ;;
  set_model_loaded true ;;
  logger INFO_model_loaded ;;
  get_model_attr.

(** Lines 71-74, the handler. *)
Definition load_failed (e : Exception) : M (option SentenceTransformer) :=
  logger (ERROR_failed_to_load e) ;;
  set_model_loaded false ;;
  raise e.

(** Lines 38-74. *)
Definition _load_model_sync : M (option SentenceTransformer) :=
  ready <- model_is_loaded ;;
  if ready then get_model_attr
  else
    with_self_lock (
      ready <- model_is_loaded ;;
      if ready then get_model_attr
      else try_except load_attempt load_failed).

(** Lines 76-80.  [not self._model_loaded or self._model is None]; the
    value of [_load_model_sync()] is dropped and the attribute is read
    again for the [return]. *)
Definition get_model : M (option SentenceTransformer) :=
  loaded <- get_model_loaded ;;
  missing <- (if negb loaded then ret true
              else (m <- get_model_attr ;; ret (is_None m))) ;;
  (if missing then (_load_model_sync ;; ret tt) else ret tt) ;;
  get_model_attr.

(** [model.encode([text1, text2], ..., normalize_embeddings=True)]; on
    [None] the attribute lookup raises. *)
Definition encode (model : option SentenceTransformer) (texts : list string)
  : M (list Embedding) :=
  match model with
  | Some obj =>
      call (EvEncode obj texts true) (fun t => model_encode bk t obj texts true)
  | None => raise AttributeError
  end.

(** Lines 85-101, the body of [try]. *)
Definition similarity_attempt (text1 text2 : string) : M Q :=
  if py_not text1 || py_not text2 then ret 0%Q
  else
    model <- get_model ;;
    embeddings <- with_fresh_lock (encode model [text1; text2]) ;;
    row0 <- getitem embeddings 0 ;;
    row1 <- getitem embeddings 1 ;;
    similarity <- np_dot row0 row1 ;;
    ret similarity.

(** Lines 103-105, the handler. *)
Definition similarity_failed (e : Exception) : M Q :=
  logger (ERROR_failed_to_calculate e) ;;
  ret 0%Q.

(** Lines 82-105. *)
Definition _calculate_similarity_sync (text1 text2 : string) : M Q :=
  try_except (similarity_attempt text1 text2) similarity_failed.

(** Lines 117-119. *)
Definition calculate_similarity (text1 text2 : string) : M Q :=
  _calculate_similarity_sync text1 text2.

(** Lines 121-123. *)
Definition is_ready : M bool := model_is_loaded.

End Manager.

(** ** The worker pool and the asynchronous entry point *)

Section Async.

Variable bk : Backend.

(** [Executor.submit]: a future is created and the item joins the queue. *)
Definition submit (item : WorkItem) : M nat :=
  fun w =>
    let ex := _executor w in
    let fid := next_future ex in
    (Returned fid,
     with_executor {| work_queue := work_queue ex ++ [(fid, item)];
                      futures := futures ex;
                      next_future := S fid |} w).

Definition run_work_item (item : WorkItem) : M Q :=
  match item with
  | Call_calculate_similarity_sync text1 text2 =>
      _calculate_similarity_sync bk text1 text2
  end.

(** A worker thread takes the oldest item, runs it to completion and sets
    the result, or the exception, on its future. *)
Definition worker_step : M unit :=
  fun w =>
    let ex := _executor w in
    match work_queue ex with
    | [] => (Returned tt, w)
    | (fid, item) :: rest =>
        let w1 := with_executor {| work_queue := rest;
                                   futures := futures ex;
                                   next_future := next_future ex |} w in
        let (r, w2) := run_work_item item w1 in
        let ex2 := _executor w2 in
        (Returned tt,
         with_executor {| work_queue := work_queue ex2;
                          futures := <[fid := r]> (futures ex2);
                          next_future := next_future ex2 |} w2)
    end.

(** [await] on the future: the coroutine is suspended while the workers
    run, and resumes with the result, or the exception, of the future.
    [fuel] bounds the number of items the workers complete meanwhile. *)
Fixpoint await_future (fuel : nat) (fid : nat) : M Q :=
  fun w =>
    match futures (_executor w) !! fid with
    | Some r => (r, w)
    | None =>
        match fuel with
        | O => (Blocked, w)
        | S fuel' => (worker_step ;; await_future fuel' fid) w
        end
    end.

(** [loop.run_in_executor(self._executor, fn, *args)] followed by [await]:
    every item queued up to and including the new one is completed. *)
Definition run_in_executor (item : WorkItem) : M Q :=
  fid <- submit item ;;
  fun w => await_future (length (work_queue (_executor w))) fid w.

(** Lines 107-115. *)
Definition calculate_similarity_async (text1 text2 : string) : M Q :=
  run_in_executor (Call_calculate_similarity_sync text1 text2).

End Async.

(** ** Runs of the public interface *)

Inductive ApiCall : Type :=
| Do_get_model
| Do_calculate_similarity (text1 text2 : string)
| Do_calculate_similarity_async (text1 text2 : string)
| Do_is_ready.

Definition perform (bk : Backend) (c : ApiCall) (w : World) : World :=
  match c with
  | Do_get_model => snd (get_model bk w)
  | Do_calculate_similarity a b => snd (calculate_similarity bk a b w)
  | Do_calculate_similarity_async a b => snd (calculate_similarity_async bk a b w)
  | Do_is_ready => snd (is_ready w)
  end.

Definition run_calls (bk : Backend) (cs : list ApiCall) (w : World) : World :=
  fold_left (fun w c => perform bk c w) cs w.

(** The load has succeeded at some point of the history: line 68 was
    reached. *)
Definition load_succeeded (w : World) : Prop :=
  In (EvLog INFO_model_loaded) (trace w).

Definition encode_texts (ev : Event) : option (list string) :=
  match ev with
  | EvEncode _ texts _ => Some texts
  | _ => None
  end.

(** The batches of texts handed to [encode], oldest first. *)
Definition encode_calls (w : World) : list (list string) :=
  rev (omap encode_texts (trace w)).

Definition is_construct (ev : Event) : bool :=
  match ev with
  | EvConstruct _ _ => true
  | _ => false
  end.

(** The load counter: the number of times the constructor of the model
    has been entered. *)
Definition load_count (w : World) : nat :=
  length (List.filter is_construct (trace w)).

(** ** Sample collaborators *)

(** A two-dimensional unit embedding chosen by the length of the text. *)
Definition toy_embed (text : string) : Embedding :=
  if Nat.even (String.length text) then [3 # 5; 4 # 5] else [1; 0]%Q.

(** Everything works; each constructed model is a new object. *)
Definition healthy_backend : Backend :=
  {| import_settings := fun _ => Ok default_settings;
     os_makedirs := fun _ _ => Ok tt;
     new_SentenceTransformer := fun t _ _ => Ok (ModelObject t);
     model_eval := fun _ _ => Ok tt;
     model_encode := fun _ _ texts _ => Ok (map toy_embed texts) |}.

(** The model files cannot be read. *)
Definition no_files_backend : Backend :=
  {| import_settings := fun _ => Ok default_settings;
     os_makedirs := fun _ _ => Ok tt;
     new_SentenceTransformer := fun _ _ _ => Fails OSError;
     model_eval := fun _ _ => Ok tt;
     model_encode := fun _ _ texts _ => Ok (map toy_embed texts) |}.

(** The model is constructed, and the call that switches it to inference
    mode raises. *)
Definition eval_fault_backend : Backend :=
  {| import_settings := fun _ => Ok default_settings;
     os_makedirs := fun _ _ => Ok tt;
     new_SentenceTransformer := fun t _ _ => Ok (ModelObject t);
     model_eval := fun _ _ => Fails RuntimeError;
     model_encode := fun _ _ texts _ => Ok (map toy_embed texts) |}.

(** The model loads, and every encoding raises. *)
Definition encode_fault_backend : Backend :=
  {| import_settings := fun _ => Ok default_settings;
     os_makedirs := fun _ _ => Ok tt;
     new_SentenceTransformer := fun t _ _ => Ok (ModelObject t);
     model_eval := fun _ _ => Ok tt;
     model_encode := fun _ _ _ _ => Fails RuntimeError |}.

(** The first attempt to load finds no files, later ones succeed. *)
Definition flaky_backend : Backend :=
  {| import_settings := fun _ => Ok default_settings;
     os_makedirs := fun _ _ => Ok tt;
     new_SentenceTransformer :=
       fun t _ _ => if Nat.ltb t 5 then Fails OSError else Ok (ModelObject t);
     model_eval := fun _ _ => Ok tt;
     model_encode := fun _ _ texts _ => Ok (map toy_embed texts) |}.

(** ** Auxiliary definitions for the proofs *)

(** The value of the readiness test in a state. *)
Definition ready (w : World) : bool :=
  _model_loaded w && negb (is_None (_model w)).

(** Lines 47-74: the [try] block with its handler. *)
Definition guarded_load (bk : Backend) : M (option SentenceTransformer) :=
  try_except (load_attempt bk) load_failed.

Definition push (evs : list Event) (w : World) : World :=
  {| _model := _model w; _model_loaded := _model_loaded w; _lock := _lock w;
     _executor := _executor w; trace := evs ++ trace w |}.

(** Every way lines 47-74 can go, with the state each one leaves.  The
    replies are those scripted for the instants at which the calls are
    made. *)
Inductive load_run (bk : Backend) (w : World)
  : outcome (option SentenceTransformer) -> World -> Prop :=
| load_run_import_fails e :
    import_settings bk (now w) = Fails e ->
    load_run bk w (Raised e)
      (with_model_loaded false
         (push [EvLog (ERROR_failed_to_load e); EvImportSettings] w))
| load_run_makedirs_fails s e :
    import_settings bk (now w) = Ok s ->
    os_makedirs bk (1 + now w) (model_cache_dir s) = Fails e ->
    load_run bk w (Raised e)
      (with_model_loaded false
         (push [EvLog (ERROR_failed_to_load e);
                EvMakedirs (model_cache_dir s); EvImportSettings] w))
| load_run_constructor_fails s e :
    import_settings bk (now w) = Ok s ->
    os_makedirs bk (1 + now w) (model_cache_dir s) = Ok tt ->
    new_SentenceTransformer bk (3 + now w) (model_name s) (model_cache_dir s)
      = Fails e ->
    load_run bk w (Raised e)
      (with_model_loaded false
         (push [EvLog (ERROR_failed_to_load e);
                EvConstruct (model_name s) (model_cache_dir s);
                EvLog (INFO_loading_model (model_name s));
                EvMakedirs (model_cache_dir s); EvImportSettings] w))
| load_run_eval_fails s m e :
    import_settings bk (now w) = Ok s ->
    os_makedirs bk (1 + now w) (model_cache_dir s) = Ok tt ->
    new_SentenceTransformer bk (3 + now w) (model_name s) (model_cache_dir s)
      = Ok m ->
    model_eval bk (4 + now w) m = Fails e ->
    load_run bk w (Raised e)
      (with_model_loaded false
         (with_model (Some m)
            (push [EvLog (ERROR_failed_to_load e);
                   EvEval m;
                   EvConstruct (model_name s) (model_cache_dir s);
                   EvLog (INFO_loading_model (model_name s));
                   EvMakedirs (model_cache_dir s); EvImportSettings] w)))
| load_run_succeeds s m :
    import_settings bk (now w) = Ok s ->
    os_makedirs bk (1 + now w) (model_cache_dir s) = Ok tt ->
    new_SentenceTransformer bk (3 + now w) (model_name s) (model_cache_dir s)
      = Ok m ->
    model_eval bk (4 + now w) m = Ok tt ->
    load_run bk w (Returned (Some m))
      (with_model_loaded true
         (with_model (Some m)
            (push [EvLog INFO_model_loaded;
                   EvEval m;
                   EvConstruct (model_name s) (model_cache_dir s);
                   EvLog (INFO_loading_model (model_name s));
                   EvMakedirs (model_cache_dir s); EvImportSettings] w))).

(** The score computed from the rows the backend returned. *)
Definition score_of_rows (rows : list Embedding) : reply Q :=
  match rows with
  | row0 :: row1 :: _ =>
      if Nat.eqb (length row0) (length row1) then Ok (dot row0 row1)
      else Fails ValueError
  | [_] => Fails IndexError
  | [] => Fails IndexError
  end.

Definition swallow (r : reply Q) (w : World) : outcome Q * World :=
  match r with
  | Ok q => (Returned q, w)
  | Fails e => (Returned 0%Q, record_event (EvLog (ERROR_failed_to_calculate e)) w)
  end.

(** ** Assumptions on the collaborator *)

(** A deterministic backend: the normalized row returned for a text
    depends on the text alone, not on the instant, the batch or the
    handle. *)
Definition pointwise_deterministic (bk : Backend)
           (embed : string -> Embedding) : Prop :=
  forall t m texts, model_encode bk t m texts true = Ok (map embed texts).

(** The four replies that let an attempt started at instant [t] go
    through, with the settings read and the object built. *)
Definition load_replies_ok (bk : Backend) (t : nat) (s : Settings)
           (m : SentenceTransformer) : Prop :=
  import_settings bk t = Ok s /\
  os_makedirs bk (1 + t) (model_cache_dir s) = Ok tt /\
  new_SentenceTransformer bk (3 + t) (model_name s) (model_cache_dir s) = Ok m /\
  model_eval bk (4 + t) m = Ok tt.

(** The reply that aborts an attempt started at instant [t]: the exception
    raised, and the object already built when it was raised, if any. *)
Inductive load_fault (bk : Backend) (t : nat)
  : Exception -> option SentenceTransformer -> Prop :=
| fault_in_import e :
    import_settings bk t = Fails e ->
    load_fault bk t e None
| fault_in_makedirs s e :
    import_settings bk t = Ok s ->
    os_makedirs bk (1 + t) (model_cache_dir s) = Fails e ->
    load_fault bk t e None
| fault_in_constructor s e :
    import_settings bk t = Ok s ->
    os_makedirs bk (1 + t) (model_cache_dir s) = Ok tt ->
    new_SentenceTransformer bk (3 + t) (model_name s) (model_cache_dir s)
      = Fails e ->
    load_fault bk t e None
| fault_in_eval s m e :
    import_settings bk t = Ok s ->
    os_makedirs bk (1 + t) (model_cache_dir s) = Ok tt ->
    new_SentenceTransformer bk (3 + t) (model_name s) (model_cache_dir s)
      = Ok m ->
    model_eval bk (4 + t) m = Fails e ->
    load_fault bk t e (Some m).

(** No work is in flight in the pool, and the serial numbers not yet
    handed out have no future. *)
Definition pool_idle (w : World) : Prop :=
  work_queue (_executor w) = [] /\
  forall k, next_future (_executor w) <= k -> futures (_executor w) !! k = None.

(** The reading of the load contract under which a failed load leaves no
    handle behind. *)
Definition no_handle_after_failed_load (bk : Backend) (w : World) : Prop :=
  forall e w1,
    get_model bk w = (Raised e, w1) ->
    fst (is_ready w1) = Returned false /\ _model w1 = None.

(** What lines 100-105 make of two rows: their dot product, or 0 when
    [np.dot] rejects the shapes. *)
Definition pair_score (u v : Embedding) : Q :=
  if Nat.eqb (length u) (length v) then dot u v else 0%Q.

(** A computation that neither reads nor writes the pool. *)
Definition executor_frame {A} (c : M A) : Prop :=
  forall ex w, c (with_executor ex w) = (fst (c w), with_executor ex (snd (c w))).

(** The state in which every call of the public interface starts when the
    calls are made one after the other. *)
Definition quiescent (w : World) : Prop :=
  _lock w = false /\ pool_idle w /\ (ready w = true <-> load_succeeded w).

(** ** Concurrent callers of [get_model] *)

(** Where a thread is inside [get_model] (lines 78-80) and the
    [_load_model_sync] it calls (lines 40-74).  A point is named after the
    line it is about to execute; each step of a thread is one access to the
    shared attributes, one operation on the lock, or one call into the
    collaborator. *)
Inductive pc : Type :=
| L78_loaded                       (* read self._model_loaded *)
| L78_model                        (* read self._model *)
| L40_loaded
| L40_model
| L41_return
| L43_acquire
| L44_loaded
| L44_model
| L45_return
| L48_import
| L50_makedirs (s : Settings)
| L52_log (s : Settings)
| L56_construct (s : Settings)
| L56_store (m : SentenceTransformer)
| L63_eval
| L66_set_loaded
| L68_log
| L69_return
| L43_release                      (* the with block is left by return *)
| L72_log (e : Exception)
| L73_reset (e : Exception)
| L74_raise (e : Exception)        (* the with block is left by raise *)
| L80_return
| Returned_model (v : option SentenceTransformer)
| Raised_error (e : Exception).

(** One step of a thread; [None] when the thread cannot move: it has
    finished, or it waits for the lock. *)
Definition thread_step (bk : Backend) (p : pc) (w : World)
  : option (pc * World) :=
  match p with
  | L78_loaded =>
      Some (if _model_loaded w then L78_model else L40_loaded, w)
  | L78_model =>
      Some (if is_None (_model w) then L40_loaded else L80_return, w)
  | L40_loaded =>
      Some (if _model_loaded w then L40_model else L43_acquire, w)
  | L40_model =>
      Some (if is_None (_model w) then L43_acquire else L41_return, w)
  | L41_return => Some (L80_return, w)
  | L43_acquire =>
      if _lock w then None else Some (L44_loaded, with_lock_held true w)
  | L44_loaded =>
      Some (if _model_loaded w then L44_model else L48_import, w)
  | L44_model =>
      Some (if is_None (_model w) then L48_import else L45_return, w)
  | L45_return => Some (L43_release, w)
  | L48_import =>
      Some (match import_settings bk (now w) with
            | Ok s => L50_makedirs s
            | Fails e => L72_log e
            end, record_event EvImportSettings w)
  | L50_makedirs s =>
      Some (match os_makedirs bk (now w) (model_cache_dir s) with
            | Ok _ => L52_log s
            | Fails e => L72_log e
            end, record_event (EvMakedirs (model_cache_dir s)) w)
  | L52_log s =>
      Some (L56_construct s,
            record_event (EvLog (INFO_loading_model (model_name s))) w)
  | L56_construct s =>
      Some (match new_SentenceTransformer bk (now w) (model_name s)
                    (model_cache_dir s) with
            | Ok m => L56_store m
            | Fails e => L72_log e
            end,
            record_event (EvConstruct (model_name s) (model_cache_dir s)) w)
  | L56_store m => Some (L63_eval, with_model (Some m) w)
  | L63_eval =>
      match _model w with
      | Some obj =>
          Some (match model_eval bk (now w) obj with
                | Ok _ => L66_set_loaded
                | Fails e => L72_log e
                end, record_event (EvEval obj) w)
      | None => Some (L72_log AttributeError, w)
      end
  | L66_set_loaded => Some (L68_log, with_model_loaded true w)
  | L68_log => Some (L69_return, record_event (EvLog INFO_model_loaded) w)
  | L69_return => Some (L43_release, w)
  | L43_release => Some (L80_return, with_lock_held false w)
  | L72_log e =>
      Some (L73_reset e, record_event (EvLog (ERROR_failed_to_load e)) w)
  | L73_reset e => Some (L74_raise e, with_model_loaded false w)
  | L74_raise e => Some (Raised_error e, with_lock_held false w)
  | L80_return => Some (Returned_model (_model w), w)
  | Returned_model _ => None
  | Raised_error _ => None
  end.

(** The callers and the state they share. *)
Record Config : Type := {
  threads : list pc;
  shared : World
}.

(** The scheduler lets thread [i] make its next step; a thread that cannot
    move, or that does not exist, leaves everything as it is. *)
Definition sched_step (bk : Backend) (c : Config) (i : nat) : Config :=
  match threads c !! i with
  | Some p =>
      match thread_step bk p (shared c) with
      | Some (p', w') => {| threads := <[i := p']> (threads c); shared := w' |}
      | None => c
      end
  | None => c
  end.

Definition run_schedule (bk : Backend) (sched : list nat) (c : Config) : Config :=
  fold_left (sched_step bk) sched c.

(** [N] execution contexts, each about to call [get_model()]. *)
Definition concurrent_get_model (N : nat) (w : World) : Config :=
  {| threads := replicate N L78_loaded; shared := w |}.

(** Every step of a load succeeds, whenever it is made. *)
Definition loads_ok (bk : Backend) : Prop :=
  (forall t, exists s, import_settings bk t = Ok s) /\
  (forall t d, exists u, os_makedirs bk t d = Ok u) /\
  (forall t n d, exists m, new_SentenceTransformer bk t n d = Ok m) /\
  (forall t m, exists u, model_eval bk t m = Ok u).

(** The points at which the thread holds [self._lock]. *)
Definition in_critical_section (p : pc) : bool :=
  match p with
  | L44_loaded | L44_model | L45_return | L48_import | L50_makedirs _
  | L52_log _ | L56_construct _ | L56_store _ | L63_eval | L66_set_loaded
  | L68_log | L69_return | L43_release | L72_log _ | L73_reset _
  | L74_raise _ => true
  | _ => false
  end.

Definition finished (p : pc) : bool :=
  match p with
  | Returned_model _ | Raised_error _ => true
  | _ => false
  end.

(** A bound on the number of steps a thread still has to make. *)
Definition rank (p : pc) : nat :=
  match p with
  | L78_loaded => 30
  | L78_model => 29
  | L40_loaded => 28
  | L40_model => 27
  | L41_return => 26
  | L43_acquire => 25
  | L44_loaded => 24
  | L44_model => 23
  | L45_return => 22
  | L48_import => 20
  | L50_makedirs _ => 19
  | L52_log _ => 18
  | L56_construct _ => 17
  | L56_store _ => 16
  | L63_eval => 15
  | L66_set_loaded => 14
  | L68_log => 13
  | L69_return => 12
  | L72_log _ => 11
  | L73_reset _ => 10
  | L74_raise _ => 9
  | L43_release => 3
  | L80_return => 2
  | Returned_model _ => 0
  | Raised_error _ => 0
  end.

Definition total_rank (c : Config) : nat :=
  fold_right (fun p n => rank p + n) 0 (threads c).

(** The model is loaded, and the constructor has run once. *)
Definition loaded_once (w : World) : Prop :=
  _model_loaded w = true /\ (exists m, _model w = Some m) /\ load_count w = 1.

(** What a thread at a given point knows of the shared state, when no step
    of a load fails. *)
Definition pc_inv (w : World) (p : pc) : Prop :=
  match p with
  | L78_loaded | L40_loaded | L43_acquire => True
  | L78_model | L40_model | L41_return | L80_return => loaded_once w
  | Returned_model v => loaded_once w /\ v = _model w
  | L44_loaded => _model_loaded w = false -> load_count w = 0
  | L44_model | L45_return => loaded_once w
  | L48_import | L50_makedirs _ | L52_log _ | L56_construct _ =>
      _model_loaded w = false /\ load_count w = 0
  | L56_store _ => _model_loaded w = false /\ load_count w = 1
  | L63_eval | L66_set_loaded =>
      _model_loaded w = false /\ load_count w = 1 /\ exists m, _model w = Some m
  | L68_log | L69_return | L43_release => loaded_once w
  | L72_log _ | L73_reset _ | L74_raise _ | Raised_error _ => False
  end.

(** The invariant of the concurrent runs. *)
Record config_inv (c : Config) : Prop := {
  inv_loaded : _model_loaded (shared c) = true -> loaded_once (shared c);
  inv_unlocked :
    _lock (shared c) = false -> _model_loaded (shared c) = false ->
    load_count (shared c) = 0;
  inv_mutex :
    forall i j p q,
      threads c !! i = Some p -> threads c !! j = Some q ->
      in_critical_section p = true -> in_critical_section q = true -> i = j;
  inv_holder :
    _lock (shared c) = true ->
    exists i p, threads c !! i = Some p /\ in_critical_section p = true;
  inv_held :
    forall i p,
      threads c !! i = Some p -> in_critical_section p = true ->
      _lock (shared c) = true;
  inv_threads :
    forall i p, threads c !! i = Some p -> pc_inv (shared c) p
}.

(** A thread running alone, for at most [fuel] steps. *)
Fixpoint run_thread (bk : Backend) (fuel : nat) (p : pc) (w : World)
  : pc * World :=
  match fuel with
  | O => (p, w)
  | S fuel' =>
      match thread_step bk p w with
      | Some (p', w') => run_thread bk fuel' p' w'
      | None => (p, w)
      end
  end.

(** What the caller observes of a thread that has stopped. *)
Definition outcome_of_pc (p : pc) : outcome (option SentenceTransformer) :=
  match p with
  | Returned_model v => Returned v
  | Raised_error e => Raised e
  | _ => Blocked
  end.


(** * The rest of the manager and its callers *)

(** ** Further readings of the trace *)

Definition is_model_loaded_record (ev : Event) : bool :=
  match ev with
  | EvLog INFO_model_loaded => true
  | _ => false
  end.

(** The number of loads that went through to line 68. *)
Definition success_count (w : World) : nat :=
  length (List.filter is_model_loaded_record (trace w)).

(** What line 92 hands to the backend: a batch of two non-empty texts, to
    be normalized. *)
Definition well_formed_encode (ev : Event) : Prop :=
  match ev with
  | EvEncode _ texts normalize =>
      normalize = true /\
      exists a b, texts = [a; b] /\ a <> ""%string /\ b <> ""%string
  | _ => True
  end.

(** The events a similarity call adds once the model is loaded. *)
Definition similarity_event (ev : Event) : Prop :=
  match ev with
  | EvEncode _ _ _ => True
  | EvLog (ERROR_failed_to_calculate _) => True
  | _ => False
  end.

(** Every batch ever encoded was encoded on the object the manager holds,
    and the manager is loaded. *)
Definition encoded_on_loaded_model (w : World) : Prop :=
  forall m texts n,
    In (EvEncode m texts n) (trace w) ->
    ready w = true /\ _model w = Some m.

(** The model loads, and [encode] returns one row only. *)
Definition short_batch_backend : Backend :=
  {| import_settings := fun _ => Ok default_settings;
     os_makedirs := fun _ _ => Ok tt;
     new_SentenceTransformer := fun t _ _ => Ok (ModelObject t);
     model_eval := fun _ _ => Ok tt;
     model_encode := fun _ _ _ _ => Ok [[1; 0]%Q] |}.

(** [w'] differs from [w] by similarity events only: the model, the flag
    and the lock are as they were. *)
Definition only_similarity_events (w w' : World) : Prop :=
  _model w' = _model w /\ _model_loaded w' = _model_loaded w /\
  _lock w' = _lock w /\
  exists evs, trace w' = evs ++ trace w /\ Forall similarity_event evs.

(** What holds between two public calls made one after the other. *)
Definition settled (w : World) : Prop :=
  quiescent w /\
  encoded_on_loaded_model w /\
  Forall well_formed_encode (trace w) /\
  success_count w = (if ready w then 1 else 0).

(** ** Concurrent callers with a backend that may fail *)

(** What a thread at a given point knows of the shared state, whatever the
    backend answers. *)
Definition pc_safe (w : World) (p : pc) : Prop :=
  match p with
  | L78_loaded | L40_loaded | L43_acquire | Raised_error _ => True
  | L78_model | L40_model | L41_return | L80_return => ready w = true
  | Returned_model v => ready w = true /\ v = _model w
  | L44_loaded => success_count w = (if ready w then 1 else 0)
  | L44_model | L45_return | L69_return | L43_release =>
      ready w = true /\ success_count w = 1
  | L48_import | L50_makedirs _ | L52_log _ | L56_construct _ | L56_store _
  | L63_eval | L72_log _ | L73_reset _ | L74_raise _ =>
      _model_loaded w = false /\ success_count w = 0
  | L66_set_loaded =>
      _model_loaded w = false /\ success_count w = 0 /\
      exists m, _model w = Some m
  | L68_log => ready w = true /\ success_count w = 0
  end.

(** The invariant of the concurrent runs, for every backend. *)
Record config_safe (c : Config) : Prop := {
  safe_loaded :
    _model_loaded (shared c) = true -> exists m, _model (shared c) = Some m;
  safe_unlocked :
    _lock (shared c) = false ->
    success_count (shared c) = (if ready (shared c) then 1 else 0);
  safe_mutex :
    forall i j p q,
      threads c !! i = Some p -> threads c !! j = Some q ->
      in_critical_section p = true -> in_critical_section q = true -> i = j;
  safe_holder :
    _lock (shared c) = true ->
    exists i p, threads c !! i = Some p /\ in_critical_section p = true;
  safe_held :
    forall i p,
      threads c !! i = Some p -> in_critical_section p = true ->
      _lock (shared c) = true;
  safe_threads :
    forall i p, threads c !! i = Some p -> pc_safe (shared c) p
}.

(** The number of steps a schedule really makes: a turn given to a thread
    that cannot move, or that does not exist, is not counted. *)
Fixpoint moves (bk : Backend) (sched : list nat) (c : Config) : nat :=
  match sched with
  | [] => 0
  | i :: sched' =>
      match threads c !! i with
      | Some p =>
          match thread_step bk p (shared c) with
          | Some _ => S (moves bk sched' (sched_step bk c i))
          | None => moves bk sched' c
          end
      | None => moves bk sched' c
      end
  end.

(** The points of the path that takes no lock: lines 78 and 80. *)
Definition on_fast_path (w : World) (p : pc) : Prop :=
  p = L78_loaded \/ p = L78_model \/ p = L80_return \/
  p = Returned_model (_model w).

(** The callers are on the path that takes no lock, and the shared state
    is still [w]. *)
Definition fast_inv (w : World) (c : Config) : Prop :=
  shared c = w /\ forall i p, threads c !! i = Some p -> on_fast_path w p.

(** ** The singleton: [__new__] and [__init__] *)

From Stdlib Require Import Qround Qpower.

(** The class attribute [_instance], the instance attribute
    [_initialized], and what the two methods leave behind them: the number
    of objects allocated by [super().__new__], the number of pools
    created, and the number of "initialized" records logged on line 36.
    [has_pool] is false while [_executor] is still the [None] of line
    20. *)
Record Process : Type := {
  world : World;
  _instance : option nat;
  _initialized : bool;
  has_pool : bool;
  objects_allocated : nat;
  pools_created : nat;
  init_records : nat
}.

(** The state while the module body runs, before line 131. *)
Definition class_defined : Process :=
  {| world := fresh_world; _instance := None; _initialized := false;
     has_pool := false; objects_allocated := 0; pools_created := 0;
     init_records := 0 |}.

Definition with_world (w : World) (ps : Process) : Process :=
  {| world := w; _instance := _instance ps; _initialized := _initialized ps;
     has_pool := has_pool ps; objects_allocated := objects_allocated ps;
     pools_created := pools_created ps; init_records := init_records ps |}.

(** Lines 25-26, under the lock: the second test, and the allocation.  The
    new object gets the next free address. *)
Definition allocate_instance (ps : Process) : Process :=
  match _instance ps with
  | Some _ => ps
  | None =>
      {| world := world ps; _instance := Some (objects_allocated ps);
         _initialized := _initialized ps; has_pool := has_pool ps;
         objects_allocated := S (objects_allocated ps);
         pools_created := pools_created ps; init_records := init_records ps |}
  end.

(** Lines 22-27.  [cls._lock] is the lock that [_load_model_sync] takes
    too. *)
Definition __new__ (ps : Process) : outcome (option nat) * Process :=
  match _instance ps with
  | Some _ => (Returned (_instance ps), ps)
  | None =>
      if _lock (world ps) then (Blocked, ps)
      else
        let ps1 := with_world (with_lock_held true (world ps)) ps in
        let ps2 := allocate_instance ps1 in
        let ps3 := with_world (with_lock_held false (world ps2)) ps2 in
        (Returned (_instance ps3), ps3)
  end.

(** Lines 29-36: the body runs on the first call only. *)
Definition __init__ (ps : Process) : Process :=
  if _initialized ps then ps
  else
    {| world := with_executor new_executor (world ps);
       _instance := _instance ps; _initialized := true; has_pool := true;
       objects_allocated := objects_allocated ps;
       pools_created := S (pools_created ps);
       init_records := S (init_records ps) |}.

(** [OptimizedAIModelManager()]: [__new__], then [__init__] on the object
    it returned. *)
Definition OptimizedAIModelManager (ps : Process)
  : outcome (option nat) * Process :=
  match __new__ ps with
  | (Returned obj, ps1) => (Returned obj, __init__ ps1)
  | r => r
  end.

(** The process after [k] more constructions, and the objects they
    returned, oldest first. *)
Fixpoint construct_times (k : nat) (ps : Process)
  : list (outcome (option nat)) * Process :=
  match k with
  | O => ([], ps)
  | S k' =>
      let (r, ps1) := OptimizedAIModelManager ps in
      let (rs, ps2) := construct_times k' ps1 in
      (r :: rs, ps2)
  end.

(** The module as imported: line 131 has run. *)
Definition module_imported : Process :=
  snd (OptimizedAIModelManager class_defined).

(** ** IEEE 754 arithmetic *)

(** A Python [float] is a binary64 number and the array returned by
    [encode] holds binary32 numbers.  A finite number of either format is
    a rational, and an arithmetic operation returns the exact result
    rounded to the nearest number of the format, a tie going to the one
    with the even significand.  The sign of a zero is not represented. *)

(** The nearest integer, a tie going to the even one. *)
Definition round_half_even (x : Q) : Z :=
  let n := Qfloor x in
  match (x - inject_Z n ?= 1 # 2)%Q with
  | Lt => n
  | Gt => (n + 1)%Z
  | Eq => if Z.even n then n else (n + 1)%Z
  end.

Definition pow2 (z : Z) : Q := (2 ^ z)%Q.

(** The [k] with [2^k <= x < 2^(k+1)], for a positive [x]. *)
Definition floor_log2 (x : Q) : Z :=
  let k := (Z.log2 (Qnum x) - Z.log2 (Zpos (Qden x)))%Z in
  if Qle_bool (pow2 k) x then k else (k - 1)%Z.

(** Rounding to the format with [prec] bits of significand whose smallest
    positive number is [2^emin]: the nearest multiple of the unit in the
    last place of [x], which is [2^emin] for a subnormal [x]. *)
Definition round_nearest_even (prec emin : Z) (x : Q) : Q :=
  if Qeq_bool x 0 then 0%Q
  else
    let e := Z.max (floor_log2 (Qabs x) - (prec - 1)) emin in
    (inject_Z (round_half_even (x / pow2 e)) * pow2 e)%Q.

(** A floating-point value: a finite number of the format, an infinity or
    NaN. *)
Inductive float : Type :=
| Finite (q : Q)
| Infinity (negative : bool)
| NaN.

Definition is_negative (x : Q) : bool := negb (Qle_bool 0 x).

(** The binary32 result of an operation whose exact result is [x]: a
    rounded magnitude of [2^128] or more overflows to an infinity. *)
Definition binary32 (x : Q) : float :=
  let r := round_nearest_even 24 (-149) x in
  if Qle_bool (pow2 128) (Qabs r) then Infinity (is_negative x) else Finite r.

Definition float32_mul (x y : float) : float :=
  match x, y with
  | NaN, _ | _, NaN => NaN
  | Infinity s, Infinity t => Infinity (xorb s t)
  | Infinity s, Finite q | Finite q, Infinity s =>
      if Qeq_bool q 0 then NaN else Infinity (xorb s (is_negative q))
  | Finite p, Finite q => binary32 (p * q)
  end.

Definition float32_add (x y : float) : float :=
  match x, y with
  | NaN, _ | _, NaN => NaN
  | Infinity s, Infinity t => if Bool.eqb s t then Infinity s else NaN
  | Infinity s, Finite _ | Finite _, Infinity s => Infinity s
  | Finite p, Finite q => binary32 (p + q)
  end.

(** The binary64 result of an operation whose exact result is [x].  The
    times and scores of main.py are far from [2^1024]; overflow is not
    represented. *)
Definition binary64 (x : Q) : Q := round_nearest_even 53 (-1074) x.

(** [x * y] and [x - y] on Python floats. *)
Definition float_mul (x y : Q) : Q := binary64 (x * y).

Definition float_sub (x y : Q) : Q := binary64 (x - y).

(** [round(x, 2)] on a Python float: the exact value of [x] is rounded to
    the nearest multiple of 1/100, a tie going to the even one, and the
    result is the float nearest to that decimal. *)
Definition py_round2 (x : Q) : Q :=
  binary64 (inject_Z (round_half_even (x * 100)) / 100).

(** ** The HTTP boundary (app/main.py) *)

(** The scores that cross this boundary are those of the sections above,
    which are finite: a score that is NaN or an infinity is not
    represented here. *)

(** [SimilarityRequest], lines 34-36. *)
Record SimilarityRequest : Type := {
  cv_text : string;
  job_text : string
}.

(** The body of a 200 answer of the two similarity routes. *)
Record SimilarityResponse : Type := {
  similarity_score : Q;
  similarity_raw : Q;
  processing_time_ms : Q;
  status : string
}.

(** The body of [GET /health]. *)
Record HealthResponse : Type := {
  health_status : string;
  service : string;
  health_model_ready : bool
}.

(** The [detail] of an [HTTPException]: a literal, or a text built from
    the exception caught. *)
Inductive Detail : Type :=
| Detail_text (text : string)
| Detail_internal_server_error (e : Exception)
| Detail_str (e : Exception).

(** What a route handler does: it returns a body, which FastAPI then
    serializes as the 200 answer; it raises an [HTTPException]; or it
    never comes back. *)
Inductive http_result (A : Type) : Type :=
| Responded (body : A)
| HTTPException (status_code : nat) (detail : Detail)
| Hung.
Arguments Responded {A} body.
Arguments HTTPException {A} status_code detail.
Arguments Hung {A}.

(** The records main.py writes through its own [logger]. *)
Inductive AppRecord : Type :=
| INFO_starting
| INFO_ai_model_ready (load_time test_similarity : Q)
| ERROR_failed_to_load_ai_model (e : Exception)
| ERROR_calculating_similarity (e : Exception)
| ERROR_in_sync_similarity (e : Exception)
| INFO_shutting_down.

(** The module globals of lines 31-32, the manager the module imports,
    and the log. *)
Record App : Type := {
  manager : World;
  model_ready : bool;
  startup_time : option Q;
  app_log : list AppRecord
}.

(** main.py as imported. *)
Definition app_imported : App :=
  {| manager := fresh_world; model_ready := false; startup_time := None;
     app_log := [] |}.

Definition with_manager (w : World) (app : App) : App :=
  {| manager := w; model_ready := model_ready app;
     startup_time := startup_time app; app_log := app_log app |}.

Definition with_model_ready (b : bool) (app : App) : App :=
  {| manager := manager app; model_ready := b;
     startup_time := startup_time app; app_log := app_log app |}.

Definition with_startup_time (t : Q) (app : App) : App :=
  {| manager := manager app; model_ready := model_ready app;
     startup_time := Some t; app_log := app_log app |}.

Definition app_logger (r : AppRecord) (app : App) : App :=
  {| manager := manager app; model_ready := model_ready app;
     startup_time := startup_time app; app_log := r :: app_log app |}.

Section Routes.

Variable bk : Backend.

(** Lines 79-84: the body built from the score and the two readings of
    [time.time()]. *)
Definition success_body (similarity t_start t_end : Q) : SimilarityResponse :=
  {| similarity_score := py_round2 (float_mul similarity 100);
     similarity_raw := similarity;
     processing_time_ms := py_round2 (float_mul (float_sub t_end t_start) 1000);
     status := "success" |}.

(** Lines 56-90, [POST /api/v1/similarity].  [t_start] and [t_end] are
    what [time.time()] answers on lines 69 and 77. *)
Definition post_similarity (t_start t_end : Q) (request : SimilarityRequest)
           (app : App) : http_result SimilarityResponse * App :=
  if negb (model_ready app) then
    (HTTPException 503
       (Detail_text
          "AI model is still loading. Please try again in a few seconds."),
     app)
  else
    match calculate_similarity_async bk (cv_text request) (job_text request)
            (manager app) with
    | (Returned similarity, w) =>
        (Responded (success_body similarity t_start t_end), with_manager w app)
    | (Raised e, w) =>
        (HTTPException 500 (Detail_internal_server_error e),
         app_logger (ERROR_calculating_similarity e) (with_manager w app))
    | (Blocked, w) => (Hung, with_manager w app)
    end.

(** Lines 92-114, [POST /api/v1/similarity/sync]. *)
Definition post_similarity_sync (t_start t_end : Q)
           (request : SimilarityRequest) (app : App)
  : http_result SimilarityResponse * App :=
  if negb (model_ready app) then
    (HTTPException 503 (Detail_text "AI model is still loading."), app)
  else
    match calculate_similarity bk (cv_text request) (job_text request)
            (manager app) with
    | (Returned similarity, w) =>
        (Responded (success_body similarity t_start t_end), with_manager w app)
    | (Raised e, w) =>
        (HTTPException 500 (Detail_str e),
         app_logger (ERROR_in_sync_similarity e) (with_manager w app))
    | (Blocked, w) => (Hung, with_manager w app)
    end.

(** Lines 125-135, [load_model]: the load, then the warm-up score. *)
Definition load_model : M Q :=
  get_model bk ;;
  calculate_similarity bk "test python developer" "python developer position".

(** Lines 116-148, the startup hook.  [t_start] and [t_end] are the
    readings of lines 119 and 141.  [None] when the hook never comes
    back. *)
Definition startup_event (t_start t_end : Q) (app : App) : option App :=
  let app1 := app_logger INFO_starting (with_startup_time t_start app) in
  match load_model (manager app1) with
  | (Returned test_similarity, w) =>
      Some (app_logger
              (INFO_ai_model_ready (float_sub t_end t_start) test_similarity)
              (with_model_ready true (with_manager w app1)))
  | (Raised e, w) =>
      Some (with_model_ready false
              (app_logger (ERROR_failed_to_load_ai_model e)
                 (with_manager w app1)))
  | (Blocked, w) => None
  end.

(** Lines 150-154, the shutdown hook. *)
Definition shutdown_event (app : App) : App :=
  app_logger INFO_shutting_down (with_model_ready false app).

(** Lines 48-54, [GET /health]. *)
Definition health_check (app : App) : HealthResponse :=
  {| health_status := if model_ready app then "healthy" else "loading";
     service := "ai-recommendation-service";
     health_model_ready := model_ready app |}.

(** What reaches the service, one event after the other. *)
Inductive ServiceEvent : Type :=
| Startup (t_start t_end : Q)
| Shutdown
| PostSimilarity (t_start t_end : Q) (request : SimilarityRequest)
| PostSimilaritySync (t_start t_end : Q) (request : SimilarityRequest)
| GetHealth.

Definition serve (ev : ServiceEvent) (app : App) : App :=
  match ev with
  | Startup t0 t1 =>
      match startup_event t0 t1 app with
      | Some app' => app'
      | None => app  (* cannot happen while the lock is free *)
      end
  | Shutdown => shutdown_event app
  | PostSimilarity t0 t1 request => snd (post_similarity t0 t1 request app)
  | PostSimilaritySync t0 t1 request =>
      snd (post_similarity_sync t0 t1 request app)
  | GetHealth => app
  end.

Definition serve_all (evs : list ServiceEvent) (app : App) : App :=
  fold_left (fun app ev => serve ev app) evs app.

Definition is_startup (ev : ServiceEvent) : bool :=
  match ev with
  | Startup _ _ => true
  | _ => false
  end.

End Routes.

(** What the boundary keeps true between two events: the flag is set only
    over a loaded manager, and the manager is at rest. *)
Definition gate_ok (app : App) : Prop :=
  (model_ready app = true -> ready (manager app) = true) /\
  settled (manager app).


(** ** Lines 82-105 on float32 rows *)

(** The sections above take the dot product of the two rows over the
    rationals, which is what [np.dot] computes up to rounding.  Here the
    similarity call is modelled once more with the arithmetic numpy uses
    on the array [encode] returns: every component is a binary32 number,
    an infinity or NaN, and every product and every partial sum is rounded
    to binary32. *)

Module Float32.

(** One row of the float32 array returned by [encode]. *)
Definition Embedding32 : Type := list float.

(** The collaborator: [loader] answers the calls made while the model is
    loaded, [model_encode32] is [encode] with the rows it returns. *)
Record Backend32 : Type := {
  loader : Backend;
  model_encode32 :
    nat -> SentenceTransformer -> list string -> bool ->
    reply (list Embedding32)
}.

(** The loop of [np.dot] on two one-dimensional float32 arrays: the sum
    starts at 0.0 and takes the products in index order, each product and
    each partial sum being rounded to binary32.  A BLAS kernel that adds
    in another order, or fuses a product with the addition, can differ
    from this loop in the last bits of a long row. *)
Fixpoint dot_from (acc : float) (u v : Embedding32) : float :=
  match u, v with
  | x :: u', y :: v' => dot_from (float32_add acc (float32_mul x y)) u' v'
  | _, _ => acc
  end.

Definition dot (u v : Embedding32) : float := dot_from (Finite 0) u v.

(** [np.dot] raises [ValueError] when the shapes are not aligned. *)
Definition np_dot (u v : Embedding32) : M float :=
  if Nat.eqb (length u) (length v) then ret (dot u v) else raise ValueError.

(** [embeddings[i]] raises [IndexError] past the last row. *)
Definition getitem (embeddings : list Embedding32) (i : nat) : M Embedding32 :=
  match embeddings !! i with
  | Some row => ret row
  | None => raise IndexError
  end.

Section Manager.

Variable bk : Backend32.

Definition encode (model : option SentenceTransformer) (texts : list string)
  : M (list Embedding32) :=
  match model with
  | Some obj =>
      call (EvEncode obj texts true)
           (fun t => model_encode32 bk t obj texts true)
  | None => raise AttributeError
  end.

(** Lines 85-101, the body of [try].  [float(...)] turns the binary32
    result into the Python float of the same value. *)
Definition similarity_attempt (text1 text2 : string) : M float :=
  if py_not text1 || py_not text2 then ret (Finite 0)
  else
    model <- get_model (loader bk) ;;
    embeddings <- with_fresh_lock (encode model [text1; text2]) ;;
    row0 <- getitem embeddings 0 ;;
    row1 <- getitem embeddings 1 ;;
    similarity <- np_dot row0 row1 ;;
    ret similarity.

(** Lines 103-105, the handler. *)
Definition similarity_failed (e : Exception) : M float :=
  logger (ERROR_failed_to_calculate e) ;;
  ret (Finite 0).

(** Lines 82-105. *)
Definition _calculate_similarity_sync (text1 text2 : string) : M float :=
  try_except (similarity_attempt text1 text2) similarity_failed.

(** Lines 117-119. *)
Definition calculate_similarity (text1 text2 : string) : M float :=
  _calculate_similarity_sync text1 text2.

End Manager.

End Float32.

(** The vector (2, 3) normalized in binary32, as
    [normalize_embeddings=True] returns it: the norm is 3.6055512 and the
    components are 0.5547002 and 0.8320503. *)
Definition unit_row_2_3 : Embedding :=
  [9306325 # 16777216; 218117 # 262144]%Q.

(** The model loads, and every text is encoded into that row. *)
Definition float32_backend : Float32.Backend32 :=
  {| Float32.loader := healthy_backend;
     Float32.model_encode32 :=
       fun _ _ texts _ => Ok (map (fun _ => map Finite unit_row_2_3) texts) |}.

(** A backend that honours [normalize_embeddings=True] up to rounding:
    every row it returns has [n] finite components, and the sum of their
    squares is within [eps] of 1. *)
Definition normalizing (bk : Float32.Backend32) (n : nat) (eps : Q) : Prop :=
  forall t m texts rows,
    Float32.model_encode32 bk t m texts true = Ok rows ->
    Forall (fun row =>
              exists u : Embedding,
                row = map Finite u /\ length u = n /\
                (Qabs (sqnorm u - 1) <= eps)%Q) rows.

(** The sum of the absolute values of the products of the components. *)
Definition absdot (u v : Embedding) : Q := dot (map Qabs u) (map Qabs v).
(** * Properties *)

(** ** The readiness test *)

Lemma model_is_loaded_eq (w : World) :
  model_is_loaded w = (Returned (ready w), w).
Proof.
  unfold model_is_loaded, ready, bind, get_model_loaded, get_model_attr, ret.
  destruct (_model_loaded w); reflexivity.
Qed.

Lemma ready_true (w : World) :
  ready w = true <-> _model_loaded w = true /\ exists m, _model w = Some m.
Proof.
  unfold ready. rewrite andb_true_iff.
  split; intros [Hl Hm]; split; trivial.
  - destruct (_model w) as [m|]; [eauto | discriminate].
  - destruct Hm as [m ->]. reflexivity.
Qed.

Lemma ready_false_loaded (w : World) :
  _model_loaded w = false -> ready w = false.
Proof. unfold ready. intros ->. reflexivity. Qed.

(** ** One guarded attempt to load *)

Lemma guarded_load_run (bk : Backend) (w : World) :
  load_run bk w (fst (guarded_load bk w)) (snd (guarded_load bk w)).
Proof.
  unfold guarded_load, try_except, load_attempt, load_failed, eval_self_model,
    bind, call, logger, set_model, set_model_loaded, get_model_attr, raise.
  change (now (record_event EvImportSettings w)) with (1 + now w).
  destruct (import_settings bk (now w)) as [s|e] eqn:Hi; cbn -[now Nat.add];
    [| apply load_run_import_fails; assumption].
  destruct (os_makedirs bk (1 + now w) (model_cache_dir s)) as [[]|e] eqn:Hd;
    cbn -[now Nat.add]; [| eapply load_run_makedirs_fails; eassumption].
  match goal with
  | |- context [new_SentenceTransformer bk ?t _ _] =>
      change t with (3 + now w)
  end.
  destruct (new_SentenceTransformer bk (3 + now w) (model_name s)
              (model_cache_dir s)) as [m|e] eqn:Hc; cbn -[now Nat.add];
    [| eapply load_run_constructor_fails; eassumption].
  match goal with
  | |- context [model_eval bk ?t _] => change t with (4 + now w)
  end.
  destruct (model_eval bk (4 + now w) m) as [[]|e] eqn:He; cbn -[now Nat.add].
  - eapply load_run_succeeds; eassumption.
  - eapply load_run_eval_fails; eassumption.
Qed.

Lemma ready_with_lock_held (b : bool) (w : World) :
  ready (with_lock_held b w) = ready w.
Proof. reflexivity. Qed.

Lemma load_run_unlock (bk : Backend) (w w' : World)
      (r : outcome (option SentenceTransformer)) :
  _lock w = false ->
  load_run bk (with_lock_held true w) r w' ->
  load_run bk w r (with_lock_held false w').
Proof.
  intros Hl H. destruct w as [m0 l0 k0 x0 t0]. cbn in Hl. subst k0.
  set (w := {| _model := m0; _model_loaded := l0; _lock := false;
               _executor := x0; trace := t0 |}) in *.
  inversion H as [e Hi|s e Hi Hd|s e Hi Hd Hc|s m e Hi Hd Hc He|s m Hi Hd Hc He];
    subst; clear H.
  - exact (load_run_import_fails bk w e Hi).
  - exact (load_run_makedirs_fails bk w s e Hi Hd).
  - exact (load_run_constructor_fails bk w s e Hi Hd Hc).
  - exact (load_run_eval_fails bk w s m e Hi Hd Hc He).
  - exact (load_run_succeeds bk w s m Hi Hd Hc He).
Qed.

Lemma load_run_not_blocked (bk : Backend) (w w' : World) :
  ~ load_run bk w Blocked w'.
Proof. intros H. inversion H. Qed.

(** ** [_load_model_sync] and [get_model], case by case *)

Lemma load_model_sync_ready (bk : Backend) (w : World) :
  ready w = true -> _load_model_sync bk w = (Returned (_model w), w).
Proof.
  intros Hr. unfold _load_model_sync, bind.
  rewrite model_is_loaded_eq, Hr. reflexivity.
Qed.

Lemma load_model_sync_locked (bk : Backend) (w : World) :
  ready w = false -> _lock w = true -> _load_model_sync bk w = (Blocked, w).
Proof.
  intros Hr Hl. unfold _load_model_sync, bind, with_self_lock.
  rewrite model_is_loaded_eq, Hr, Hl. reflexivity.
Qed.

Lemma load_model_sync_unready (bk : Backend) (w : World) :
  ready w = false -> _lock w = false ->
  load_run bk w (fst (_load_model_sync bk w)) (snd (_load_model_sync bk w)).
Proof.
  intros Hr Hl. unfold _load_model_sync, bind, with_self_lock.
  rewrite model_is_loaded_eq, Hr, Hl, model_is_loaded_eq,
    ready_with_lock_held, Hr.
  pose proof (guarded_load_run bk (with_lock_held true w)) as H.
  fold (guarded_load bk).
  destruct (guarded_load bk (with_lock_held true w)) as [r w'].
  cbn [fst snd] in H.
  destruct r; cbn [fst snd].
  - apply load_run_unlock; assumption.
  - apply load_run_unlock; assumption.
  - exfalso. eapply load_run_not_blocked; eassumption.
Qed.

Lemma load_run_returns_attr (bk : Backend) (w w' : World)
      (v : option SentenceTransformer) :
  load_run bk w (Returned v) w' -> _model w' = v.
Proof. intros H. inversion H; subst. reflexivity. Qed.

Lemma get_model_ready (bk : Backend) (w : World) :
  ready w = true -> get_model bk w = (Returned (_model w), w).
Proof.
  intros Hr. apply ready_true in Hr as [Hl [m Hm]].
  unfold get_model, bind, get_model_loaded, get_model_attr, ret.
  rewrite Hl. cbn. rewrite Hm. cbn. rewrite Hm. reflexivity.
Qed.

Lemma get_model_missing (bk : Backend) (w : World) :
  ready w = false ->
  get_model bk w =
    match _load_model_sync bk w with
    | (Returned _, w') => (Returned (_model w'), w')
    | (Raised e, w') => (Raised e, w')
    | (Blocked, w') => (Blocked, w')
    end.
Proof.
  intros Hr. unfold get_model, bind, get_model_loaded, get_model_attr, ret.
  unfold ready in Hr. destruct (_model_loaded w); cbn in *.
  - destruct (_model w); cbn in *; [discriminate |].
    destruct (_load_model_sync bk w) as [[v|e|] w']; reflexivity.
  - destruct (_load_model_sync bk w) as [[v|e|] w']; reflexivity.
Qed.

Lemma get_model_locked (bk : Backend) (w : World) :
  ready w = false -> _lock w = true -> get_model bk w = (Blocked, w).
Proof.
  intros Hr Hl. rewrite get_model_missing, load_model_sync_locked by assumption.
  reflexivity.
Qed.

Lemma get_model_unready (bk : Backend) (w : World) :
  ready w = false -> _lock w = false ->
  load_run bk w (fst (get_model bk w)) (snd (get_model bk w)).
Proof.
  intros Hr Hl. rewrite get_model_missing by assumption.
  pose proof (load_model_sync_unready bk w Hr Hl) as H.
  destruct (_load_model_sync bk w) as [[v|e|] w']; cbn [fst snd] in *;
    try assumption.
  rewrite (load_run_returns_attr _ _ _ _ H). assumption.
Qed.

(** What any run of lines 47-74 leaves behind. *)
Lemma load_run_frame (bk : Backend) (w w' : World)
      (r : outcome (option SentenceTransformer)) :
  load_run bk w r w' ->
  _lock w' = _lock w /\ _executor w' = _executor w /\
  exists evs, trace w' = evs ++ trace w /\
    ~ In (EvLog INFO_model_loaded) (tl evs) /\
    forall texts m n, ~ In (EvEncode m texts n) evs.
Proof.
  intros H. inversion H; subst; (split; [reflexivity|]);
    (split; [reflexivity|]);
    match goal with |- context [push ?evs _] => exists evs end;
    cbn; intuition congruence.
Qed.

Lemma load_run_returned (bk : Backend) (w w' : World)
      (v : option SentenceTransformer) :
  load_run bk w (Returned v) w' ->
  exists m, v = Some m /\ _model w' = Some m /\ _model_loaded w' = true /\
    ready w' = true /\ load_succeeded w' /\ load_count w' = S (load_count w).
Proof.
  intros H. inversion H; subst. exists m. unfold load_succeeded, load_count.
  cbn. intuition.
Qed.

Lemma load_run_raised (bk : Backend) (w w' : World) (e : Exception) :
  load_run bk w (Raised e) w' ->
  _model_loaded w' = false /\ ready w' = false /\
  In (EvLog (ERROR_failed_to_load e)) (trace w') /\
  (load_succeeded w' <-> load_succeeded w).
Proof.
  intros H. inversion H; subst; unfold load_succeeded; cbn;
    intuition congruence.
Qed.

(** ** [_calculate_similarity_sync], case by case *)

Lemma py_not_false (text : string) : py_not text = false <-> text <> ""%string.
Proof. destruct text; cbn; split; congruence. Qed.

Lemma py_not_true (text : string) : py_not text = true <-> text = ""%string.
Proof. destruct text; cbn; split; congruence. Qed.

Lemma calculate_similarity_empty (bk : Backend) (a b : string) (w : World) :
  py_not a || py_not b = true ->
  calculate_similarity bk a b w = (Returned 0%Q, w).
Proof.
  intros H. unfold calculate_similarity, _calculate_similarity_sync,
    try_except, similarity_attempt.
  rewrite H. reflexivity.
Qed.

Lemma calculate_similarity_with_model (bk : Backend) (a b : string)
      (w w1 : World) (m : SentenceTransformer) :
  py_not a || py_not b = false ->
  get_model bk w = (Returned (Some m), w1) ->
  calculate_similarity bk a b w =
    swallow (match model_encode bk (now w1) m [a; b] true with
             | Ok rows => score_of_rows rows
             | Fails e => Fails e
             end)
            (record_event (EvEncode m [a; b] true) w1).
Proof.
  intros H Hg. unfold calculate_similarity, _calculate_similarity_sync,
    try_except, similarity_attempt, with_fresh_lock, bind.
  rewrite H, Hg. unfold encode, call.
  destruct (model_encode bk (now w1) m [a; b] true) as [rows|e]; cbn;
    [| reflexivity].
  destruct rows as [|row0 [|row1 rows]]; cbn; try reflexivity.
  unfold np_dot. destruct (Nat.eqb (length row0) (length row1)); reflexivity.
Qed.

Lemma calculate_similarity_load_raised (bk : Backend) (a b : string)
      (w w1 : World) (e : Exception) :
  py_not a || py_not b = false ->
  get_model bk w = (Raised e, w1) ->
  calculate_similarity bk a b w =
    (Returned 0%Q, record_event (EvLog (ERROR_failed_to_calculate e)) w1).
Proof.
  intros H Hg. unfold calculate_similarity, _calculate_similarity_sync,
    try_except, similarity_attempt, with_fresh_lock, bind.
  rewrite H, Hg. reflexivity.
Qed.

Lemma calculate_similarity_blocked (bk : Backend) (a b : string)
      (w w1 : World) :
  py_not a || py_not b = false ->
  get_model bk w = (Blocked, w1) ->
  calculate_similarity bk a b w = (Blocked, w1).
Proof.
  intros H Hg. unfold calculate_similarity, _calculate_similarity_sync,
    try_except, similarity_attempt, with_fresh_lock, bind.
  rewrite H, Hg. reflexivity.
Qed.

Lemma calculate_similarity_no_object (bk : Backend) (a b : string)
      (w w1 : World) :
  py_not a || py_not b = false ->
  get_model bk w = (Returned None, w1) ->
  calculate_similarity bk a b w =
    (Returned 0%Q,
     record_event (EvLog (ERROR_failed_to_calculate AttributeError)) w1).
Proof.
  intros H Hg. unfold calculate_similarity, _calculate_similarity_sync,
    try_except, similarity_attempt, with_fresh_lock, bind.
  rewrite H, Hg. reflexivity.
Qed.

(** The handler of line 103 leaves nothing to propagate. *)
Lemma calculate_similarity_never_raises (bk : Backend) (a b : string)
      (w : World) (e : Exception) :
  fst (calculate_similarity bk a b w) <> Raised e.
Proof.
  destruct (py_not a || py_not b) eqn:H.
  - rewrite calculate_similarity_empty by assumption. discriminate.
  - destruct (get_model bk w) as [[[m|]|e'|] w1] eqn:Hg.
    + rewrite (calculate_similarity_with_model _ _ _ _ _ _ H Hg).
      destruct (match model_encode bk (now w1) m [a; b] true with
                | Ok rows => score_of_rows rows
                | Fails e0 => Fails e0
                end); discriminate.
    + rewrite (calculate_similarity_no_object _ _ _ _ _ H Hg). discriminate.
    + rewrite (calculate_similarity_load_raised _ _ _ _ _ _ H Hg). discriminate.
    + rewrite (calculate_similarity_blocked _ _ _ _ _ H Hg). discriminate.
Qed.

(** With the lock free, [get_model] comes back. *)
Lemma get_model_returns_or_raises (bk : Backend) (w : World) :
  _lock w = false ->
  (exists m w1, get_model bk w = (Returned (Some m), w1) /\ ready w1 = true
                /\ _lock w1 = false) \/
  (exists e w1, get_model bk w = (Raised e, w1) /\ ready w1 = false
                /\ _lock w1 = false).
Proof.
  intros Hl. destruct (ready w) eqn:Hr.
  - left. pose proof Hr as Hr'. apply ready_true in Hr' as [_ [m Hm]].
    exists m, w. rewrite get_model_ready, Hm by assumption. auto.
  - pose proof (get_model_unready bk w Hr Hl) as H.
    destruct (get_model bk w) as [[v|e|] w1]; cbn [fst snd] in H.
    + left. destruct (load_run_returned _ _ _ _ H) as (m & -> & _ & _ & Hr1 & _).
      exists m, w1. destruct (load_run_frame _ _ _ _ H) as (Hk & _).
      repeat split; congruence.
    + right. destruct (load_run_raised _ _ _ _ H) as (_ & Hr1 & _).
      exists e, w1. destruct (load_run_frame _ _ _ _ H) as (Hk & _).
      repeat split; congruence.
    + exfalso. eapply load_run_not_blocked; eassumption.
Qed.

(** With the lock free, the similarity call returns a score. *)
Lemma calculate_similarity_returns (bk : Backend) (a b : string) (w : World) :
  _lock w = false ->
  exists q w', calculate_similarity bk a b w = (Returned q, w').
Proof.
  intros Hl. destruct (py_not a || py_not b) eqn:Hab.
  - rewrite calculate_similarity_empty by assumption. eauto.
  - destruct (get_model_returns_or_raises bk w Hl)
      as [(m & w1 & Hg & _) | (e & w1 & Hg & _)].
    + rewrite (calculate_similarity_with_model _ _ _ _ _ _ Hab Hg).
      destruct (match model_encode bk (now w1) m [a; b] true with
                | Ok rows => score_of_rows rows
                | Fails e0 => Fails e0
                end); cbn [swallow]; eauto.
    + rewrite (calculate_similarity_load_raised _ _ _ _ _ _ Hab Hg). eauto.
Qed.

(** ** Sample runs *)

Example similar_texts_score :
  fst (calculate_similarity healthy_backend "ab" "abcd" fresh_world)
    = Returned (dot [3 # 5; 4 # 5] [3 # 5; 4 # 5]).
Proof. reflexivity. Qed.

Example first_call_loads_the_model :
  trace (snd (calculate_similarity healthy_backend "ab" "abc" fresh_world))
    = [EvEncode (ModelObject 3) ["ab"; "abc"]%string true;
       EvLog INFO_model_loaded;
       EvEval (ModelObject 3);
       EvConstruct "all-MiniLM-L6-v2" "./models";
       EvLog (INFO_loading_model "all-MiniLM-L6-v2");
       EvMakedirs "./models";
       EvImportSettings].
Proof. reflexivity. Qed.

Example second_call_reuses_the_model :
  load_count
    (run_calls healthy_backend
       [Do_calculate_similarity "ab" "abc"; Do_get_model;
        Do_calculate_similarity_async "a" "b"; Do_is_ready]
       fresh_world) = 1.
Proof. reflexivity. Qed.

Example retry_after_failure :
  fst (get_model flaky_backend fresh_world) = Raised OSError /\
  fst (get_model flaky_backend (snd (get_model flaky_backend fresh_world)))
    = Returned (Some (ModelObject 8)) /\
  load_count
    (snd (get_model flaky_backend (snd (get_model flaky_backend fresh_world))))
    = 2.
Proof. repeat split. Qed.

Example ragged_rows_score_zero :
  pair_score [1; 0]%Q [1]%Q = 0%Q.
Proof. reflexivity. Qed.

(** ** The dot product *)

Lemma Qmult_comm_eq (x y : Q) : (x * y)%Q = (y * x)%Q.
Proof.
  unfold Qmult. f_equal; [apply Z.mul_comm | apply Pos.mul_comm].
Qed.

Lemma dot_comm (u v : Embedding) : dot u v = dot v u.
Proof.
  revert v. induction u as [|x u IH]; intros [|y v]; cbn [dot]; trivial.
  rewrite IH, Qmult_comm_eq. reflexivity.
Qed.

Lemma Qsquare_nonneg (x : Q) : (0 <= x * x)%Q.
Proof. nra. Qed.

Lemma sqnorm_nonneg (u : Embedding) : (0 <= sqnorm u)%Q.
Proof.
  unfold sqnorm. induction u as [|x u IH]; cbn [dot]; [lra |].
  pose proof (Qsquare_nonneg x). lra.
Qed.

Lemma dot_upper (u v : Embedding) : (2 * dot u v <= sqnorm u + sqnorm v)%Q.
Proof.
  unfold sqnorm. revert v. induction u as [|x u IH]; intros [|y v]; cbn [dot].
  - lra.
  - pose proof (sqnorm_nonneg (y :: v)) as H. unfold sqnorm in H.
    cbn [dot] in H. lra.
  - pose proof (sqnorm_nonneg (x :: u)) as H. unfold sqnorm in H.
    cbn [dot] in H. lra.
  - specialize (IH v). pose proof (Qsquare_nonneg (x - y)). lra.
Qed.

Lemma dot_lower (u v : Embedding) : (- (sqnorm u + sqnorm v) <= 2 * dot u v)%Q.
Proof.
  unfold sqnorm. revert v. induction u as [|x u IH]; intros [|y v]; cbn [dot].
  - lra.
  - pose proof (sqnorm_nonneg (y :: v)) as H. unfold sqnorm in H.
    cbn [dot] in H. lra.
  - pose proof (sqnorm_nonneg (x :: u)) as H. unfold sqnorm in H.
    cbn [dot] in H. lra.
  - specialize (IH v). pose proof (Qsquare_nonneg (x + y)). lra.
Qed.

(** Rows whose squared norm exceeds 1 by at most [eps], as rounding may
    leave them, give a score that leaves [-1, 1] by at most [eps]. *)
Lemma dot_of_nearly_unit_rows (u v : Embedding) (eps : Q) :
  (sqnorm u <= 1 + eps)%Q -> (sqnorm v <= 1 + eps)%Q ->
  (- (1 + eps) <= dot u v <= 1 + eps)%Q.
Proof.
  intros Hu Hv. pose proof (dot_upper u v). pose proof (dot_lower u v). lra.
Qed.

Lemma get_model_returned (bk : Backend) (w w1 : World)
      (v : option SentenceTransformer) :
  get_model bk w = (Returned v, w1) ->
  ready w1 = true /\ _model w1 = v /\ exists m, v = Some m.
Proof.
  intros Hg. destruct (ready w) eqn:Hr.
  - rewrite get_model_ready in Hg by assumption.
    injection Hg as <- <-. apply ready_true in Hr as Hr'.
    destruct Hr' as [_ [m Hm]]. eauto.
  - destruct (_lock w) eqn:Hl.
    + rewrite get_model_locked in Hg by assumption. discriminate.
    + pose proof (get_model_unready bk w Hr Hl) as H. rewrite Hg in H.
      cbn [fst snd] in H.
      destruct (load_run_returned _ _ _ _ H) as (m & -> & Hm & _ & Hr1 & _).
      eauto.
Qed.

Lemma get_model_raised (bk : Backend) (w w1 : World) (e : Exception) :
  get_model bk w = (Raised e, w1) ->
  ready w = false /\ _lock w = false /\ load_run bk w (Raised e) w1.
Proof.
  intros Hg. destruct (ready w) eqn:Hr.
  - rewrite get_model_ready in Hg by assumption. discriminate.
  - destruct (_lock w) eqn:Hl.
    + rewrite get_model_locked in Hg by assumption. discriminate.
    + pose proof (get_model_unready bk w Hr Hl) as H. rewrite Hg in H. auto.
Qed.

Lemma ready_record_event (ev : Event) (w : World) :
  ready (record_event ev w) = ready w.
Proof. reflexivity. Qed.

Lemma swallow_ready (r : reply Q) (w : World) :
  ready (snd (swallow r w)) = ready w.
Proof. destruct r; reflexivity. Qed.

Lemma encode_calls_push (evs : list Event) (t : list Event) :
  (forall texts m n, ~ In (EvEncode m texts n) evs) ->
  omap encode_texts (evs ++ t) = omap encode_texts t.
Proof.
  intros H. induction evs as [|ev evs IH]; [reflexivity |].
  cbn [app]. assert (Hev : encode_texts ev = None).
  { destruct ev; try reflexivity. exfalso. eapply H. left. reflexivity. }
  cbn. rewrite Hev. apply IH. intros texts m n Hin.
  eapply H. right. eassumption.
Qed.

Lemma get_model_encode_calls (bk : Backend) (w : World) :
  encode_calls (snd (get_model bk w)) = encode_calls w.
Proof.
  destruct (ready w) eqn:Hr; [rewrite get_model_ready by assumption; trivial |].
  destruct (_lock w) eqn:Hl; [rewrite get_model_locked by assumption; trivial |].
  pose proof (get_model_unready bk w Hr Hl) as H.
  destruct (load_run_frame _ _ _ _ H) as (_ & _ & evs & Ht & _ & Hne).
  unfold encode_calls. rewrite Ht. f_equal. apply encode_calls_push, Hne.
Qed.

(** ** Rounding *)

Lemma round_half_even_error (y : Q) :
  (Qabs (inject_Z (round_half_even y) - y) <= 1 # 2)%Q.
Proof.
  unfold round_half_even.
  pose proof (Qfloor_le y) as Hlo. pose proof (Qlt_floor y) as Hhi.
  rewrite inject_Z_plus in Hhi.
  change (inject_Z 1) with 1%Q in Hhi.
  apply Qabs_Qle_condition.
  destruct (Qcompare_spec (y - inject_Z (Qfloor y)) (1 # 2)) as [He | Hl | Hg].
  - destruct (Z.even (Qfloor y)); [| rewrite inject_Z_plus;
      change (inject_Z 1) with 1%Q]; split; lra.
  - split; lra.
  - rewrite inject_Z_plus. change (inject_Z 1) with 1%Q. split; lra.
Qed.

Lemma round_half_even_between (y : Q) (lo hi : Z) :
  (inject_Z lo <= y)%Q -> (y <= inject_Z hi)%Q ->
  (lo <= round_half_even y <= hi)%Z.
Proof.
  intros Hlo Hhi. pose proof (round_half_even_error y) as He.
  apply Qabs_Qle_condition in He as [He1 He2].
  assert (H1 : (inject_Z lo - (1 # 2) <= inject_Z (round_half_even y))%Q)
    by lra.
  assert (H2 : (inject_Z (round_half_even y) <= inject_Z hi + (1 # 2))%Q)
    by lra.
  clear - H1 H2. generalize dependent (round_half_even y). intros r H1 H2.
  unfold Qle, Qminus, Qplus, Qopp, inject_Z in H1, H2. cbn in H1, H2. lia.
Qed.

Lemma pow2_pos (z : Z) : (0 < pow2 z)%Q.
Proof. apply Qpower_0_lt. reflexivity. Qed.

Lemma pow2_add (a b : Z) : (pow2 (a + b) == pow2 a * pow2 b)%Q.
Proof. apply Qpower_plus. discriminate. Qed.

Lemma pow2_nonneg_Z (a : Z) : (0 <= a)%Z -> (pow2 a == inject_Z (2 ^ a))%Q.
Proof.
  intros Ha. unfold pow2. rewrite Zpower_Qpower by assumption. reflexivity.
Qed.

(** [floor_log2] does not overshoot. *)
Lemma floor_log2_le (x : Q) : (0 < x)%Q -> (pow2 (floor_log2 x) <= x)%Q.
Proof.
  intros Hx. unfold floor_log2.
  destruct (Qle_bool _ x) eqn:Hb; [apply Qle_bool_iff; assumption |].
  destruct x as [n d]. cbn [Qnum Qden] in *.
  assert (Hn : (0 < n)%Z).
  { unfold Qlt in Hx. cbn in Hx. lia. }
  pose proof (Z.log2_spec n Hn) as [Hn1 Hn2].
  pose proof (Z.log2_spec (Zpos d) eq_refl) as [Hd1 Hd2].
  pose proof (Z.log2_nonneg n) as Hln.
  pose proof (Z.log2_nonneg (Zpos d)) as Hld.
  set (a := Z.log2 n) in *. set (b := Z.log2 (Zpos d)) in *.
  replace (a - b - 1)%Z with (a + - (b + 1))%Z by lia.
  rewrite pow2_add. unfold pow2 at 2. rewrite Qpower_opp.
  fold (pow2 (b + 1)). rewrite !pow2_nonneg_Z by lia.
  assert (H2b : (0 < 2 ^ (b + 1))%Z) by (apply Z.pow_pos_nonneg; lia).
  apply Qle_shift_div_r.
  - replace 0%Q with (inject_Z 0) by reflexivity. rewrite <- Zlt_Qlt.
    assumption.
  - replace (Z.succ b) with (b + 1)%Z in Hd2 by lia.
    generalize dependent (2 ^ (b + 1))%Z. generalize dependent (2 ^ a)%Z.
    intros A HA B HB HB'. unfold Qle, Qmult, inject_Z. cbn [Qnum Qden].
    rewrite Pos.mul_1_r, Z.mul_1_r. nia.
Qed.

(** The error of one rounding: half a unit in the last place, which is at
    most [2^-prec] times the magnitude for a normal number and [2^(emin-1)]
    for a subnormal one. *)
Lemma round_nearest_even_error (prec emin : Z) (x : Q) :
  (Qabs (round_nearest_even prec emin x - x)
   <= pow2 (- prec) * Qabs x + pow2 (emin - 1))%Q.
Proof.
  unfold round_nearest_even.
  pose proof (Qabs_nonneg x) as Hax.
  pose proof (pow2_pos (emin - 1)) as Heta.
  pose proof (pow2_pos (- prec)) as Hu.
  destruct (Qeq_bool x 0) eqn:Hz.
  - apply Qeq_bool_iff in Hz. rewrite Hz.
    change (Qabs (0 - 0)) with 0%Q. change (Qabs 0) with 0%Q. lra.
  - apply Qeq_bool_neq in Hz.
    assert (Hpos : (0 < Qabs x)%Q).
    { destruct (Qle_lt_or_eq _ _ Hax) as [H | H]; [assumption |].
      exfalso. apply Hz.
      assert (H0 : (Qabs x <= 0)%Q) by lra.
      apply Qabs_Qle_condition in H0. lra. }
    set (e := Z.max (floor_log2 (Qabs x) - (prec - 1)) emin).
    pose proof (pow2_pos e) as Hq.
    pose proof (round_half_even_error (x / pow2 e)) as Hr.
    set (m := inject_Z (round_half_even (x / pow2 e))) in *.
    assert (Herr : (Qabs (m * pow2 e - x) <= pow2 e * (1 # 2))%Q).
    { assert (Heq : (m * pow2 e - x == (m - x / pow2 e) * pow2 e)%Q)
        by (field; lra).
      rewrite Heq, Qabs_Qmult, (Qabs_pos (pow2 e)) by lra.
      rewrite (Qmult_comm (pow2 e)). apply Qmult_le_compat_r; lra. }
    assert (Hq2 : (pow2 e * (1 # 2)
                   <= pow2 (- prec) * Qabs x + pow2 (emin - 1))%Q).
    { change (1 # 2)%Q with (pow2 (-1)). rewrite <- pow2_add.
      destruct (Z.max_spec (floor_log2 (Qabs x) - (prec - 1)) emin)
        as [[_ He] | [_ He]]; fold e in He; rewrite He.
      - replace (emin + -1)%Z with (emin - 1)%Z by lia. nra.
      - pose proof (floor_log2_le _ Hpos) as Hfl.
        replace (floor_log2 (Qabs x) - (prec - 1) + -1)%Z
          with (floor_log2 (Qabs x) + - prec)%Z by lia.
        rewrite pow2_add. nra. }
    lra.
Qed.

Lemma binary64_error (x : Q) :
  (Qabs (binary64 x - x) <= (1 # 9007199254740992) * Qabs x + pow2 (-1075))%Q.
Proof. apply (round_nearest_even_error 53 (-1074)). Qed.

Lemma pow2_150_small : (pow2 (-150) <= 1 # 16777216)%Q.
Proof. unfold Qle. vm_compute. discriminate. Qed.

(** An operation on moderate numbers does not overflow. *)
Lemma binary32_small (x : Q) :
  (Qabs x <= 8)%Q ->
  exists r,
    binary32 x = Finite r /\
    (Qabs (r - x) <= (1 # 16777216) * Qabs x + pow2 (-150))%Q.
Proof.
  intros Hx. pose proof (round_nearest_even_error 24 (-149) x) as He.
  change (pow2 (Z.opp 24)) with (1 # 16777216)%Q in He.
  change (-149 - 1)%Z with (-150)%Z in He.
  exists (round_nearest_even 24 (-149) x). split; [| exact He].
  unfold binary32. set (r := round_nearest_even 24 (-149) x) in *.
  destruct (Qle_bool (pow2 128) (Qabs r)) eqn:Hb; [| reflexivity].
  exfalso. apply Qle_bool_iff in Hb.
  assert (H128 : (16 <= pow2 128)%Q) by (unfold Qle; vm_compute; discriminate).
  pose proof pow2_150_small as Heta. pose proof (Qabs_nonneg x) as H0.
  assert (Hr : (Qabs r <= Qabs x + Qabs (r - x))%Q).
  { setoid_replace r with (x + (r - x))%Q using relation Qeq at 1 by ring. apply Qabs_triangle. }
  lra.
Qed.

(** ** The float32 dot product *)

Lemma absdot_nonneg (u v : Embedding) : (0 <= absdot u v)%Q.
Proof.
  unfold absdot. revert v. induction u as [|x u IH]; intros [|y v];
    cbn [map dot]; try lra.
  specialize (IH v). pose proof (Qabs_nonneg x). pose proof (Qabs_nonneg y).
  nra.
Qed.

Lemma sqnorm_abs (u : Embedding) : (sqnorm (map Qabs u) == sqnorm u)%Q.
Proof.
  unfold sqnorm. induction u as [|x u IH]; cbn [map dot]; [reflexivity |].
  rewrite IH, <- Qabs_Qmult, (Qabs_pos (x * x)) by apply Qsquare_nonneg.
  reflexivity.
Qed.

Lemma absdot_upper (u v : Embedding) :
  (2 * absdot u v <= sqnorm u + sqnorm v)%Q.
Proof.
  unfold absdot. pose proof (dot_upper (map Qabs u) (map Qabs v)) as H.
  rewrite !sqnorm_abs in H. exact H.
Qed.

(** The accumulated error of the loop of [np.dot]: each of the [n] turns
    adds at most [2^-21] while the sum of the magnitudes stays below 2. *)
Lemma dot_from_error (u : Embedding) :
  forall (v : Embedding) (a s E : Q),
    length u = length v ->
    (Qabs (a - s) <= E)%Q ->
    (Qabs s + absdot u v <= 2)%Q ->
    (E + inject_Z (Z.of_nat (length u)) * (1 # 2097152) <= 1)%Q ->
    exists r,
      Float32.dot_from (Finite a) (map Finite u) (map Finite v) = Finite r /\
      (Qabs (r - (s + dot u v))
       <= E + inject_Z (Z.of_nat (length u)) * (1 # 2097152))%Q.
Proof.
  induction u as [|x u IH]; intros [|y v] a s E Hlen Ha Hs HE;
    try discriminate Hlen.
  - exists a. split; [reflexivity |]. cbn [length dot] in *.
    change (inject_Z (Z.of_nat 0)) with 0%Q.
    setoid_replace (a - (s + 0))%Q with (a - s)%Q using relation Qeq by ring. lra.
  - cbn [map Float32.dot_from float32_mul]. injection Hlen as Hlen.
    unfold absdot in Hs. cbn [map dot] in Hs. fold (absdot u v) in Hs.
    pose proof (absdot_nonneg u v) as Hnn.
    pose proof (Qabs_nonneg s) as Hs0.
    assert (HE0 : (0 <= E)%Q) by (pose proof (Qabs_nonneg (a - s)); lra).
    rewrite <- Qabs_Qmult in Hs.
    assert (Hn : (inject_Z (Z.of_nat (length (x :: u)))
                  == inject_Z (Z.of_nat (length u)) + 1)%Q).
    { cbn [length]. rewrite Nat2Z.inj_succ, <- Z.add_1_r, inject_Z_plus.
      reflexivity. }
    assert (Hn0 : (0 <= inject_Z (Z.of_nat (length u)))%Q).
    { change 0%Q with (inject_Z 0). rewrite <- Zle_Qle. lia. }
    rewrite Hn in HE.
    pose proof pow2_150_small as Heta.
    assert (Heta0 : (0 < pow2 (-150))%Q) by apply pow2_pos.
    destruct (binary32_small (x * y)) as (p & Hp & Hpe); [lra |].
    rewrite Hp. cbn [float32_add].
    assert (Hap : (Qabs (a + p) <= Qabs s + Qabs (a - s) + Qabs (x * y)
                                  + Qabs (p - x * y))%Q).
    { setoid_replace (a + p)%Q
        with (s + (a - s) + (x * y) + (p - x * y))%Q using relation Qeq by ring.
      eapply Qle_trans; [apply Qabs_triangle |].
      apply Qplus_le_compat; [| lra].
      eapply Qle_trans; [apply Qabs_triangle |].
      apply Qplus_le_compat; [| lra]. apply Qabs_triangle. }
    destruct (binary32_small (a + p)) as (a' & Ha' & Hae); [lra |].
    rewrite Ha'.
    destruct (IH v a' (s + x * y)%Q (E + (1 # 2097152))%Q Hlen)
      as (r & Hr & Hre).
    + setoid_replace (a' - (s + x * y))%Q
        with ((a' - (a + p)) + (a - s) + (p - x * y))%Q using relation Qeq by ring.
      eapply Qle_trans; [apply Qabs_triangle |].
      assert ((Qabs (a' - (a + p) + (a - s))
               <= Qabs (a' - (a + p)) + Qabs (a - s))%Q)
        by apply Qabs_triangle.
      lra.
    + assert ((Qabs (s + x * y) <= Qabs s + Qabs (x * y))%Q)
        by apply Qabs_triangle.
      lra.
    + lra.
    + exists r. split; [exact Hr |]. rewrite Hn.
      setoid_replace (s + (x * y + dot u v))%Q with (s + x * y + dot u v)%Q
        using relation Qeq by ring.
      lra.
Qed.

(** The float32 dot product of two rows of [n] components that are unit
    up to [eps] is finite and within [n * 2^-21] of the exact one. *)
Lemma float32_dot_error (u v : Embedding) (eps : Q) :
  length u = length v -> (Z.of_nat (length u) <= 2097152)%Z ->
  (Qabs (sqnorm u - 1) <= eps)%Q -> (Qabs (sqnorm v - 1) <= eps)%Q ->
  (eps <= 1)%Q ->
  exists q,
    Float32.dot (map Finite u) (map Finite v) = Finite q /\
    (Qabs (q - dot u v)
     <= inject_Z (Z.of_nat (length u)) * (1 # 2097152))%Q /\
    (- (1 + eps) <= dot u v <= 1 + eps)%Q /\
    (Qabs q <= 1 + eps + inject_Z (Z.of_nat (length u)) * (1 # 2097152))%Q.
Proof.
  intros Hlen Hn Hu Hv Heps.
  apply Qabs_Qle_condition in Hu as [Hu1 Hu2].
  apply Qabs_Qle_condition in Hv as [Hv1 Hv2].
  pose proof (absdot_upper u v) as Habs.
  assert (HN : (inject_Z (Z.of_nat (length u)) * (1 # 2097152) <= 1)%Q).
  { assert (H : (inject_Z (Z.of_nat (length u)) <= inject_Z 2097152)%Q)
      by (rewrite <- Zle_Qle; exact Hn).
    change (inject_Z 2097152) with 2097152%Q in H. lra. }
  destruct (dot_from_error u v 0 0 0 Hlen) as (q & Hq & He).
  - change (Qabs (0 - 0)) with 0%Q. lra.
  - change (Qabs 0) with 0%Q. lra.
  - lra.
  - exists q. split; [exact Hq |].
    assert (Hd : (- (1 + eps) <= dot u v <= 1 + eps)%Q)
      by (apply dot_of_nearly_unit_rows; lra).
    setoid_replace (0 + dot u v)%Q with (dot u v) using relation Qeq in He by ring.
    assert (He' : (Qabs (q - dot u v)
                   <= inject_Z (Z.of_nat (length u)) * (1 # 2097152))%Q)
      by lra.
    split; [exact He' |]. split; [exact Hd |].
    apply Qabs_Qle_condition in He' as [He1 He2].
    apply Qabs_Qle_condition. split; lra.
Qed.

(** ** The similarity call on float32 rows *)

Lemma float32_similarity_empty (bk : Float32.Backend32) (a b : string)
      (w : World) :
  py_not a || py_not b = true ->
  Float32.calculate_similarity bk a b w = (Returned (Finite 0), w).
Proof.
  intros H. unfold Float32.calculate_similarity,
    Float32._calculate_similarity_sync, try_except, Float32.similarity_attempt.
  rewrite H. reflexivity.
Qed.

Lemma float32_similarity_with_rows (bk : Float32.Backend32) (a b : string)
      (w w1 : World) (m : SentenceTransformer)
      (row0 row1 : Float32.Embedding32) (rest : list Float32.Embedding32) :
  py_not a || py_not b = false ->
  get_model (Float32.loader bk) w = (Returned (Some m), w1) ->
  Float32.model_encode32 bk (now w1) m [a; b] true
    = Ok (row0 :: row1 :: rest) ->
  length row0 = length row1 ->
  Float32.calculate_similarity bk a b w
    = (Returned (Float32.dot row0 row1),
       record_event (EvEncode m [a; b] true) w1).
Proof.
  intros H Hg He Hlen. unfold Float32.calculate_similarity,
    Float32._calculate_similarity_sync, try_except, Float32.similarity_attempt,
    with_fresh_lock, bind.
  rewrite H, Hg. unfold Float32.encode, call. rewrite He. cbn.
  unfold Float32.np_dot. rewrite Hlen, Nat.eqb_refl. reflexivity.
Qed.

(** * The claims *)

(** C1.  For non-empty texts [a] and [b], when the model is available
    (already loaded, or loaded by this very call) and the backend encodes
    the two texts into float32 rows [u] and [v] of [n] components that are
    unit up to [eps] (the sum of the squares is within [eps] of 1),
    [compute_similarity] leaves the model loaded, calls [encode] once, on
    the two texts and with [normalize_embeddings=True], and returns exactly
    the float32 dot product of [u] and [v] as [np.dot] computes it.  That
    value is finite, within [n * 2^-21] of the exact dot product, which
    lies between [-(1 + eps)] and [1 + eps]; it is not clamped. *)
Theorem calculate_similarity_is_float32_dot
        (bk : Float32.Backend32) (a b : string) (w w1 : World)
        (m : SentenceTransformer) (u v : Embedding) (eps : Q) :
  a <> ""%string -> b <> ""%string ->
  get_model (Float32.loader bk) w = (Returned (Some m), w1) ->
  Float32.model_encode32 bk (now w1) m [a; b] true
    = Ok [map Finite u; map Finite v] ->
  length u = length v -> (Z.of_nat (length u) <= 2097152)%Z ->
  (Qabs (sqnorm u - 1) <= eps)%Q -> (Qabs (sqnorm v - 1) <= eps)%Q ->
  (eps <= 1)%Q ->
  exists q,
    Float32.calculate_similarity bk a b w
      = (Returned (Finite q), record_event (EvEncode m [a; b] true) w1) /\
    Float32.dot (map Finite u) (map Finite v) = Finite q /\
    fst (is_ready (record_event (EvEncode m [a; b] true) w1)) = Returned true /\
    encode_calls (record_event (EvEncode m [a; b] true) w1)
      = encode_calls w ++ [[a; b]] /\
    (Qabs (q - dot u v)
     <= inject_Z (Z.of_nat (length u)) * (1 # 2097152))%Q /\
    (- (1 + eps) <= dot u v <= 1 + eps)%Q /\
    (Qabs q <= 1 + eps + inject_Z (Z.of_nat (length u)) * (1 # 2097152))%Q.
Proof.
  intros Ha Hb Hg He Hlen Hn Hu Hv Heps.
  apply py_not_false in Ha. apply py_not_false in Hb.
  assert (Hab : py_not a || py_not b = false) by (rewrite Ha, Hb; reflexivity).
  destruct (float32_dot_error u v eps Hlen Hn Hu Hv Heps)
    as (q & Hq & Herr & Hd & Hbound).
  exists q. split; [| split; [exact Hq | split; [| split; [| auto]]]].
  - rewrite (float32_similarity_with_rows _ _ _ _ _ _ _ _ _ Hab Hg He)
      by (rewrite !length_map; exact Hlen).
    rewrite Hq. reflexivity.
  - unfold is_ready. rewrite model_is_loaded_eq. cbn [fst].
    rewrite ready_record_event.
    destruct (get_model_returned _ _ _ _ Hg) as [-> _]. reflexivity.
  - rewrite <- (get_model_encode_calls (Float32.loader bk) w). rewrite Hg.
    reflexivity.
Qed.

Lemma calculate_similarity_is_float32_dot_witness :
  exists q,
    Float32.calculate_similarity float32_backend "ab" "abc" fresh_world
      = (Returned (Finite q),
         record_event (EvEncode (ModelObject 3) ["ab"; "abc"]%string true)
           (snd (get_model healthy_backend fresh_world))) /\
    Float32.dot (map Finite unit_row_2_3) (map Finite unit_row_2_3)
      = Finite q /\
    fst (is_ready
           (record_event (EvEncode (ModelObject 3) ["ab"; "abc"]%string true)
              (snd (get_model healthy_backend fresh_world)))) = Returned true /\
    encode_calls
      (record_event (EvEncode (ModelObject 3) ["ab"; "abc"]%string true)
         (snd (get_model healthy_backend fresh_world)))
      = encode_calls fresh_world ++ [["ab"; "abc"]%string] /\
    (Qabs (q - dot unit_row_2_3 unit_row_2_3)
     <= inject_Z (Z.of_nat (length unit_row_2_3)) * (1 # 2097152))%Q /\
    (- (1 + (1 # 16777216)) <= dot unit_row_2_3 unit_row_2_3
     <= 1 + (1 # 16777216))%Q /\
    (Qabs q <= 1 + (1 # 16777216)
               + inject_Z (Z.of_nat (length unit_row_2_3)) * (1 # 2097152))%Q.
Proof.
  apply (calculate_similarity_is_float32_dot float32_backend "ab" "abc"
           fresh_world (snd (get_model healthy_backend fresh_world))
           (ModelObject 3) unit_row_2_3 unit_row_2_3 (1 # 16777216)).
  - discriminate.
  - discriminate.
  - reflexivity.
  - reflexivity.
  - reflexivity.
  - cbn. lia.
  - vm_compute. discriminate.
  - vm_compute. discriminate.
  - vm_compute. discriminate.
Defined.

(** The claim as stated fails on the vector (2, 3) normalized in float32:
    the row is unit up to [2^-24], and the score of a text with itself is
    1.0000001192092896, above 1. *)
Lemma float32_unit_row_scores_above_one :
  (Qabs (sqnorm unit_row_2_3 - 1) <= 1 # 16777216)%Q /\
  exists q,
    fst (Float32.calculate_similarity float32_backend "ab" "ab" fresh_world)
      = Returned (Finite q) /\
    (q == 1 + (1 # 8388608))%Q /\
    ~ (-1 <= q <= 1)%Q.
Proof.
  split; [vm_compute; discriminate |].
  eexists. split; [vm_compute; reflexivity |].
  split; [reflexivity |]. intros [_ H]. revert H. vm_compute. auto.
Qed.

(** C2.  Whatever the backend and the state, [compute_similarity("", x)]
    and [compute_similarity(x, "")] return exactly 0 and leave the state as
    it was: the trace gains no event, so [encode] has not been called (nor
    has anything else of the backend). *)
Theorem empty_text_short_circuit (bk : Backend) (x : string) (w : World) :
  calculate_similarity bk "" x w = (Returned 0%Q, w) /\
  calculate_similarity bk x "" w = (Returned 0%Q, w) /\
  encode_calls (snd (calculate_similarity bk "" x w)) = encode_calls w /\
  encode_calls (snd (calculate_similarity bk x "" w)) = encode_calls w.
Proof.
  assert (H1 : calculate_similarity bk "" x w = (Returned 0%Q, w))
    by (apply calculate_similarity_empty; reflexivity).
  assert (H2 : calculate_similarity bk x "" w = (Returned 0%Q, w))
    by (apply calculate_similarity_empty; apply orb_true_r).
  rewrite H1, H2. auto.
Qed.

(** C3.  When the call reaches the encoding (both texts non-empty, model
    available) and the backend raises [e] there, [compute_similarity]
    returns exactly 0: the exception is logged by the handler of line 103
    and does not reach the caller. *)
Theorem encode_fault_returns_zero
        (bk : Backend) (a b : string) (w w1 : World)
        (m : SentenceTransformer) (e : Exception) :
  a <> ""%string -> b <> ""%string ->
  get_model bk w = (Returned (Some m), w1) ->
  model_encode bk (now w1) m [a; b] true = Fails e ->
  calculate_similarity bk a b w
    = (Returned 0%Q,
       record_event (EvLog (ERROR_failed_to_calculate e))
         (record_event (EvEncode m [a; b] true) w1)) /\
  forall e', fst (calculate_similarity bk a b w) <> Raised e'.
Proof.
  intros Ha Hb Hg He.
  apply py_not_false in Ha. apply py_not_false in Hb.
  assert (Hab : py_not a || py_not b = false) by (rewrite Ha, Hb; reflexivity).
  split.
  - rewrite (calculate_similarity_with_model _ _ _ _ _ _ Hab Hg), He.
    reflexivity.
  - intros e'. apply calculate_similarity_never_raises.
Qed.

Lemma encode_fault_returns_zero_witness :
  calculate_similarity encode_fault_backend "cv" "job" fresh_world
    = (Returned 0%Q,
       record_event (EvLog (ERROR_failed_to_calculate RuntimeError))
         (record_event (EvEncode (ModelObject 3) ["cv"; "job"]%string true)
            (snd (get_model encode_fault_backend fresh_world)))) /\
  forall e',
    fst (calculate_similarity encode_fault_backend "cv" "job" fresh_world)
      <> Raised e'.
Proof.
  apply (encode_fault_returns_zero encode_fault_backend "cv" "job" fresh_world
           (snd (get_model encode_fault_backend fresh_world)) (ModelObject 3)
           RuntimeError).
  - discriminate.
  - discriminate.
  - reflexivity.
  - reflexivity.
Defined.

Lemma pair_score_comm (u v : Embedding) : pair_score u v = pair_score v u.
Proof.
  unfold pair_score. rewrite (Nat.eqb_sym (length u) (length v)), dot_comm.
  reflexivity.
Qed.

Lemma calculate_similarity_deterministic
      (bk : Backend) (embed : string -> Embedding) (a b : string)
      (w w1 : World) (m : SentenceTransformer) :
  pointwise_deterministic bk embed ->
  py_not a || py_not b = false ->
  get_model bk w = (Returned (Some m), w1) ->
  fst (calculate_similarity bk a b w)
    = Returned (pair_score (embed a) (embed b)) /\
  ready (snd (calculate_similarity bk a b w)) = true /\
  _lock (snd (calculate_similarity bk a b w)) = _lock w1.
Proof.
  intros Hd Hab Hg.
  rewrite (calculate_similarity_with_model _ _ _ _ _ _ Hab Hg), Hd.
  cbn [map score_of_rows]. unfold pair_score.
  destruct (get_model_returned _ _ _ _ Hg) as [Hr _].
  destruct (Nat.eqb (length (embed a)) (length (embed b))); cbn; auto.
Qed.

(** C6.  With a deterministic backend, [compute_similarity(a, b)] and
    [compute_similarity(b, a)] return the same value when evaluated in the
    same state; and once the model is loaded, calling one right after the
    other gives the same value too. *)
Theorem calculate_similarity_symmetric
        (bk : Backend) (embed : string -> Embedding) (a b : string)
        (w : World) :
  pointwise_deterministic bk embed ->
  fst (calculate_similarity bk a b w) = fst (calculate_similarity bk b a w) /\
  (ready w = true ->
   fst (calculate_similarity bk b a (snd (calculate_similarity bk a b w)))
     = fst (calculate_similarity bk a b w)).
Proof.
  intros Hd.
  assert (Hsame : forall w0,
             fst (calculate_similarity bk a b w0)
               = fst (calculate_similarity bk b a w0)).
  { intros w0. destruct (py_not a || py_not b) eqn:Hab.
    - rewrite !calculate_similarity_empty; trivial.
      rewrite orb_comm. assumption.
    - assert (Hba : py_not b || py_not a = false)
        by (rewrite orb_comm; assumption).
      destruct (get_model bk w0) as [[[m|]|e|] w1] eqn:Hg.
      + destruct (calculate_similarity_deterministic _ _ _ _ _ _ _ Hd Hab Hg)
          as [-> _].
        destruct (calculate_similarity_deterministic _ _ _ _ _ _ _ Hd Hba Hg)
          as [-> _].
        rewrite pair_score_comm. reflexivity.
      + rewrite (calculate_similarity_no_object _ _ _ _ _ Hab Hg),
          (calculate_similarity_no_object _ _ _ _ _ Hba Hg). reflexivity.
      + rewrite (calculate_similarity_load_raised _ _ _ _ _ _ Hab Hg),
          (calculate_similarity_load_raised _ _ _ _ _ _ Hba Hg). reflexivity.
      + rewrite (calculate_similarity_blocked _ _ _ _ _ Hab Hg),
          (calculate_similarity_blocked _ _ _ _ _ Hba Hg). reflexivity. }
  split; [apply Hsame |].
  intros Hr. rewrite <- Hsame.
  destruct (py_not a || py_not b) eqn:Hab.
  - rewrite (calculate_similarity_empty bk a b w) by assumption.
    cbn [fst snd]. rewrite calculate_similarity_empty by assumption.
    reflexivity.
  - pose proof (get_model_ready bk w Hr) as Hg.
    apply ready_true in Hr as Hr'. destruct Hr' as [_ [m Hm]].
    rewrite Hm in Hg.
    destruct (calculate_similarity_deterministic _ _ _ _ _ _ _ Hd Hab Hg)
      as (Hv & Hr2 & _).
    rewrite Hv.
    pose proof (get_model_ready bk _ Hr2) as Hg2.
    apply ready_true in Hr2 as Hr2'. destruct Hr2' as [_ [m2 Hm2]].
    rewrite Hm2 in Hg2.
    destruct (calculate_similarity_deterministic _ _ _ _ _ _ _ Hd Hab Hg2)
      as [-> _].
    reflexivity.
Qed.

Lemma healthy_backend_deterministic :
  pointwise_deterministic healthy_backend toy_embed.
Proof. intros t m texts. reflexivity. Qed.

Lemma calculate_similarity_symmetric_witness :
  fst (calculate_similarity healthy_backend "ab" "abc"
         (snd (get_model healthy_backend fresh_world)))
    = fst (calculate_similarity healthy_backend "abc" "ab"
             (snd (get_model healthy_backend fresh_world))) /\
  (ready (snd (get_model healthy_backend fresh_world)) = true ->
   fst (calculate_similarity healthy_backend "abc" "ab"
          (snd (calculate_similarity healthy_backend "ab" "abc"
                  (snd (get_model healthy_backend fresh_world)))))
     = fst (calculate_similarity healthy_backend "ab" "abc"
              (snd (get_model healthy_backend fresh_world)))).
Proof.
  apply (calculate_similarity_symmetric healthy_backend toy_embed "ab" "abc"
           (snd (get_model healthy_backend fresh_world))).
  exact healthy_backend_deterministic.
Defined.



(** ** The pool is a frame for the manager's methods *)

Lemma frame_ret {A} (a : A) : executor_frame (ret a).
Proof. intros ex w. reflexivity. Qed.

Lemma frame_raise {A} (e : Exception) : executor_frame (@raise A e).
Proof. intros ex w. reflexivity. Qed.

Lemma frame_bind {A B} (c : M A) (k : A -> M B) :
  executor_frame c -> (forall a, executor_frame (k a)) ->
  executor_frame (bind c k).
Proof.
  intros Hc Hk ex w. unfold bind. rewrite Hc.
  destruct (c w) as [[a|e|] w']; cbn [fst snd]; trivial.
  rewrite Hk. reflexivity.
Qed.

Lemma frame_try_except {A} (c : M A) (h : Exception -> M A) :
  executor_frame c -> (forall e, executor_frame (h e)) ->
  executor_frame (try_except c h).
Proof.
  intros Hc Hh ex w. unfold try_except. rewrite Hc.
  destruct (c w) as [[a|e|] w']; cbn [fst snd]; trivial.
  rewrite Hh. reflexivity.
Qed.

Lemma frame_with_self_lock {A} (c : M A) :
  executor_frame c -> executor_frame (with_self_lock c).
Proof.
  intros Hc ex w. unfold with_self_lock. cbn [_lock with_executor].
  destruct (_lock w); [reflexivity |].
  change (with_lock_held true (with_executor ex w))
    with (with_executor ex (with_lock_held true w)).
  rewrite Hc. destruct (c (with_lock_held true w)) as [[a|e|] w'];
    reflexivity.
Qed.

Lemma frame_call {A} (ev : Event) (r : nat -> reply A) :
  executor_frame (call ev r).
Proof. intros ex w. reflexivity. Qed.

Lemma frame_logger (r : LogRecord) : executor_frame (logger r).
Proof. intros ex w. reflexivity. Qed.

Lemma frame_get_model_attr : executor_frame get_model_attr.
Proof. intros ex w. reflexivity. Qed.

Lemma frame_get_model_loaded : executor_frame get_model_loaded.
Proof. intros ex w. reflexivity. Qed.

Lemma frame_set_model (m : SentenceTransformer) : executor_frame (set_model m).
Proof. intros ex w. reflexivity. Qed.

Lemma frame_set_model_loaded (b : bool) : executor_frame (set_model_loaded b).
Proof. intros ex w. reflexivity. Qed.

Lemma frame_np_dot (u v : Embedding) : executor_frame (np_dot u v).
Proof.
  unfold np_dot. destruct (Nat.eqb (length u) (length v));
    [apply frame_ret | apply frame_raise].
Qed.

Lemma frame_getitem (rows : list Embedding) (i : nat) :
  executor_frame (getitem rows i).
Proof.
  unfold getitem. destruct (rows !! i); [apply frame_ret | apply frame_raise].
Qed.

Create HintDb frame.

#[local] Hint Resolve frame_ret frame_raise frame_call frame_logger
  frame_get_model_attr frame_get_model_loaded frame_set_model
  frame_set_model_loaded frame_np_dot frame_getitem : frame.

Ltac frame_step :=
  match goal with
  | |- executor_frame (bind _ _) => apply frame_bind; [| intros ?]
  | |- executor_frame (try_except _ _) => apply frame_try_except; [| intros ?]
  | |- executor_frame (with_self_lock _) => apply frame_with_self_lock
  | |- executor_frame (with_fresh_lock ?c) => change (executor_frame c)
  | |- executor_frame (if ?b then _ else _) => destruct b
  | |- executor_frame (match ?x with Some _ => _ | None => _ end) => destruct x
  | |- executor_frame _ => solve [auto with frame]
  end.

Lemma frame_model_is_loaded : executor_frame model_is_loaded.
Proof. unfold model_is_loaded. repeat frame_step. Qed.

Lemma frame_load_model_sync (bk : Backend) : executor_frame (_load_model_sync bk).
Proof.
  pose proof frame_model_is_loaded.
  unfold _load_model_sync, load_attempt, load_failed, eval_self_model.
  repeat frame_step; assumption.
Qed.

Lemma frame_get_model (bk : Backend) : executor_frame (get_model bk).
Proof.
  pose proof (frame_load_model_sync bk).
  unfold get_model. repeat frame_step; assumption.
Qed.

Lemma frame_calculate_similarity (bk : Backend) (a b : string) :
  executor_frame (calculate_similarity bk a b).
Proof.
  pose proof (frame_get_model bk).
  unfold calculate_similarity, _calculate_similarity_sync, similarity_attempt,
    similarity_failed, encode.
  repeat frame_step; assumption.
Qed.

(** ** The asynchronous entry point on an idle pool *)

Lemma calculate_similarity_async_idle (bk : Backend) (a b : string) (w : World) :
  pool_idle w ->
  calculate_similarity_async bk a b w =
    (fst (calculate_similarity bk a b w),
     with_executor
       {| work_queue := [];
          futures := <[next_future (_executor w)
                       := fst (calculate_similarity bk a b w)]>
                       (futures (_executor w));
          next_future := S (next_future (_executor w)) |}
       (snd (calculate_similarity bk a b w))).
Proof.
  intros [Hq Hf].
  unfold calculate_similarity_async, run_in_executor, bind, submit.
  cbn [_executor with_executor work_queue]. rewrite Hq.
  cbn [app length await_future _executor with_executor futures].
  rewrite (Hf _ (le_n _)).
  unfold bind, worker_step.
  cbn [_executor with_executor work_queue futures next_future].
  cbn [run_work_item].
  change (_calculate_similarity_sync bk a b) with (calculate_similarity bk a b).
  match goal with
  | |- context [calculate_similarity bk a b (with_executor ?ex (with_executor _ w))] =>
      change (with_executor ex (with_executor _ w)) with (with_executor ex w);
      rewrite (frame_calculate_similarity bk a b ex w)
  end.
  cbn [await_future _executor with_executor futures next_future work_queue].
  rewrite lookup_insert_eq. reflexivity.
Qed.

(** ** Calls made one after the other *)

Lemma load_succeeded_record_event (ev : Event) (w : World) :
  ev <> EvLog INFO_model_loaded ->
  load_succeeded (record_event ev w) <-> load_succeeded w.
Proof.
  intros Hne. unfold load_succeeded. cbn. split; [| auto].
  intros [H | H]; [congruence | assumption].
Qed.

Lemma quiescent_fresh : quiescent fresh_world.
Proof.
  split; [reflexivity |]. split.
  - split; [reflexivity |]. intros k _. apply lookup_empty.
  - unfold load_succeeded. cbn. split; [discriminate | tauto].
Qed.

Lemma quiescent_get_model (bk : Backend) (w : World) :
  quiescent w -> quiescent (snd (get_model bk w)).
Proof.
  intros Hq. pose proof Hq as (Hl & Hp & Hr).
  assert (Hrw : ready w = true \/ ready w = false)
    by (destruct (ready w); auto).
  destruct Hrw as [Hrw | Hrw].
  - rewrite get_model_ready by assumption. exact Hq.
  - pose proof (get_model_unready bk w Hrw Hl) as H.
    destruct (get_model bk w) as [r w1]. cbn [fst snd] in *.
    destruct (load_run_frame _ _ _ _ H) as (Hk & Hx & _).
    split; [congruence |]. split; [unfold pool_idle; rewrite Hx; exact Hp |].
    destruct r as [v|e|].
    + destruct (load_run_returned _ _ _ _ H) as (_ & _ & _ & _ & Hr1 & Hs & _).
      tauto.
    + destruct (load_run_raised _ _ _ _ H) as (_ & Hr1 & _ & Hs).
      rewrite Hr1, Hs, <- Hr, Hrw. tauto.
    + exfalso. eapply load_run_not_blocked; eassumption.
Qed.

Lemma quiescent_record_event (ev : Event) (w : World) :
  ev <> EvLog INFO_model_loaded ->
  quiescent w -> quiescent (record_event ev w).
Proof.
  intros Hne (Hl & Hp & Hr). split; [exact Hl |]. split; [exact Hp |].
  rewrite ready_record_event, load_succeeded_record_event; assumption.
Qed.

Lemma quiescent_swallow (r : reply Q) (w : World) :
  quiescent w -> quiescent (snd (swallow r w)).
Proof.
  intros H. destruct r; cbn [swallow snd]; [assumption |].
  apply quiescent_record_event; [discriminate | assumption].
Qed.

Lemma quiescent_calculate_similarity (bk : Backend) (a b : string) (w : World) :
  quiescent w -> quiescent (snd (calculate_similarity bk a b w)).
Proof.
  intros Hq. destruct (py_not a || py_not b) eqn:Hab.
  - rewrite calculate_similarity_empty by assumption. assumption.
  - pose proof (quiescent_get_model bk w Hq) as Hq1.
    destruct (get_model bk w) as [[[m|]|e|] w1] eqn:Hg; cbn [snd] in Hq1.
    + rewrite (calculate_similarity_with_model _ _ _ _ _ _ Hab Hg).
      apply quiescent_swallow, quiescent_record_event;
        [discriminate | assumption].
    + rewrite (calculate_similarity_no_object _ _ _ _ _ Hab Hg).
      apply quiescent_record_event; [discriminate | assumption].
    + rewrite (calculate_similarity_load_raised _ _ _ _ _ _ Hab Hg).
      apply quiescent_record_event; [discriminate | assumption].
    + rewrite (calculate_similarity_blocked _ _ _ _ _ Hab Hg). assumption.
Qed.

Lemma quiescent_calculate_similarity_async
      (bk : Backend) (a b : string) (w : World) :
  quiescent w -> quiescent (snd (calculate_similarity_async bk a b w)).
Proof.
  intros Hq. pose proof (quiescent_calculate_similarity bk a b w Hq) as Hq1.
  destruct Hq as (_ & Hp & _).
  rewrite calculate_similarity_async_idle by assumption. cbn [snd].
  destruct Hq1 as (Hl & _ & Hr). split; [exact Hl |]. split; [| exact Hr].
  split; [reflexivity |]. cbn [_executor with_executor next_future futures].
  intros k Hk. destruct Hp as [_ Hf].
  rewrite lookup_insert_ne by lia. apply Hf. lia.
Qed.

Lemma quiescent_perform (bk : Backend) (c : ApiCall) (w : World) :
  quiescent w -> quiescent (perform bk c w).
Proof.
  intros Hq. destruct c; cbn [perform].
  - apply quiescent_get_model; assumption.
  - apply quiescent_calculate_similarity; assumption.
  - apply quiescent_calculate_similarity_async; assumption.
  - unfold is_ready. rewrite model_is_loaded_eq. assumption.
Qed.

Lemma quiescent_run_calls (bk : Backend) (cs : list ApiCall) (w : World) :
  quiescent w -> quiescent (run_calls bk cs w).
Proof.
  revert w. induction cs as [|c cs IH]; intros w Hq; [assumption |].
  cbn [run_calls fold_left]. apply IH, quiescent_perform, Hq.
Qed.

(** C8.  On an idle pool, the value to which the future of
    [compute_similarity_async(a, b)] resolves is the value that
    [compute_similarity(a, b)] returns in the same state, and both leave
    the same model, the same flag and the same history of events; every
    state reached by calls made one after the other has an idle pool. *)
Theorem async_resolves_to_sync_value
        (bk : Backend) (a b : string) (w : World) :
  pool_idle w ->
  fst (calculate_similarity_async bk a b w)
    = fst (calculate_similarity bk a b w) /\
  _model (snd (calculate_similarity_async bk a b w))
    = _model (snd (calculate_similarity bk a b w)) /\
  _model_loaded (snd (calculate_similarity_async bk a b w))
    = _model_loaded (snd (calculate_similarity bk a b w)) /\
  trace (snd (calculate_similarity_async bk a b w))
    = trace (snd (calculate_similarity bk a b w)) /\
  forall calls, pool_idle (run_calls bk calls fresh_world).
Proof.
  intros Hp. rewrite calculate_similarity_async_idle by assumption.
  cbn [fst snd]. repeat split; trivial.
  - destruct (quiescent_run_calls bk calls fresh_world quiescent_fresh)
      as (_ & [Hq _] & _). exact Hq.
  - destruct (quiescent_run_calls bk calls fresh_world quiescent_fresh)
      as (_ & [_ Hf] & _). exact Hf.
Qed.

Lemma pool_idle_fresh : pool_idle fresh_world.
Proof. split; [reflexivity |]. intros k _. apply lookup_empty. Qed.

Lemma async_resolves_to_sync_value_witness :
  fst (calculate_similarity_async healthy_backend "ab" "abc" fresh_world)
    = fst (calculate_similarity healthy_backend "ab" "abc" fresh_world) /\
  _model (snd (calculate_similarity_async healthy_backend "ab" "abc" fresh_world))
    = _model (snd (calculate_similarity healthy_backend "ab" "abc" fresh_world)) /\
  _model_loaded
    (snd (calculate_similarity_async healthy_backend "ab" "abc" fresh_world))
    = _model_loaded
        (snd (calculate_similarity healthy_backend "ab" "abc" fresh_world)) /\
  trace (snd (calculate_similarity_async healthy_backend "ab" "abc" fresh_world))
    = trace (snd (calculate_similarity healthy_backend "ab" "abc" fresh_world)) /\
  forall calls, pool_idle (run_calls healthy_backend calls fresh_world).
Proof.
  apply (async_resolves_to_sync_value healthy_backend "ab" "abc" fresh_world).
  exact pool_idle_fresh.
Defined.

Lemma is_ready_eq (w : World) : is_ready w = (Returned (ready w), w).
Proof. apply model_is_loaded_eq. Qed.

Lemma load_run_fault (bk : Backend) (w w1 : World) (e : Exception) :
  load_run bk w (Raised e) w1 ->
  exists built,
    load_fault bk (now w) e built /\
    _model w1 = match built with
                | Some m => Some m
                | None => _model w
                end.
Proof.
  intros H.
  inversion H as [e0 Hi|s e0 Hi Hd|s e0 Hi Hd Hc|s m e0 Hi Hd Hc He|];
    subst; clear H.
  - exists None. split; [apply fault_in_import; assumption | reflexivity].
  - exists None. split; [eapply fault_in_makedirs; eassumption | reflexivity].
  - exists None. split; [eapply fault_in_constructor; eassumption | reflexivity].
  - exists (Some m). split; [eapply fault_in_eval; eassumption | reflexivity].
Qed.

Lemma load_run_starts_with_import (bk : Backend) (w w1 : World)
      (r : outcome (option SentenceTransformer)) :
  load_run bk w r w1 ->
  exists evs, trace w1 = evs ++ EvImportSettings :: trace w.
Proof.
  intros H. inversion H; subst; cbn [trace with_model_loaded with_model push].
  - exists [EvLog (ERROR_failed_to_load e)]. reflexivity.
  - exists [EvLog (ERROR_failed_to_load e); EvMakedirs (model_cache_dir s)].
    reflexivity.
  - exists [EvLog (ERROR_failed_to_load e);
            EvConstruct (model_name s) (model_cache_dir s);
            EvLog (INFO_loading_model (model_name s));
            EvMakedirs (model_cache_dir s)].
    reflexivity.
  - exists [EvLog (ERROR_failed_to_load e); EvEval m;
            EvConstruct (model_name s) (model_cache_dir s);
            EvLog (INFO_loading_model (model_name s));
            EvMakedirs (model_cache_dir s)].
    reflexivity.
  - exists [EvLog INFO_model_loaded; EvEval m;
            EvConstruct (model_name s) (model_cache_dir s);
            EvLog (INFO_loading_model (model_name s));
            EvMakedirs (model_cache_dir s)].
    reflexivity.
Qed.

Lemma load_run_replies_ok (bk : Backend) (w w1 : World) (s : Settings)
      (m : SentenceTransformer) (r : outcome (option SentenceTransformer)) :
  load_replies_ok bk (now w) s m ->
  load_run bk w r w1 ->
  r = Returned (Some m) /\ ready w1 = true.
Proof.
  intros (Hi & Hd & Hc & He) H.
  inversion H as [e0 Hi'|s' e0 Hi' Hd'|s' e0 Hi' Hd' Hc'
                  |s' m' e0 Hi' Hd' Hc' He'|s' m' Hi' Hd' Hc' He'];
    subst; clear H; rewrite Hi in Hi'; try discriminate;
    injection Hi' as <-; rewrite Hd in Hd'; try discriminate;
    rewrite Hc in Hc'; try discriminate;
    injection Hc' as <-; rewrite He in He'; try discriminate.
  split; reflexivity.
Qed.

Lemma load_fault_run (bk : Backend) (w w1 : World) (e : Exception)
      (built : option SentenceTransformer)
      (r : outcome (option SentenceTransformer)) :
  load_fault bk (now w) e built ->
  load_run bk w r w1 ->
  r = Raised e /\
  _model w1 = match built with
              | Some m => Some m
              | None => _model w
              end.
Proof.
  intros Hf H.
  inversion Hf as [e0 Fi|s0 e0 Fi Fd|s0 e0 Fi Fd Fc|s0 m0 e0 Fi Fd Fc Fe];
    subst; clear Hf;
    inversion H as [e1 Hi|s e1 Hi Hd|s e1 Hi Hd Hc|s m e1 Hi Hd Hc He
                    |s m Hi Hd Hc He];
    subst; clear H;
    rewrite Fi in Hi; try discriminate; try (injection Hi as <-);
    try (rewrite Fd in Hd; try discriminate);
    try (rewrite Fc in Hc; try discriminate; try (injection Hc as <-));
    try (rewrite Fe in He; try discriminate; try (injection He as <-));
    try (injection Hi as <-); try (injection Hd as <-);
    try (injection Hc as <-); split; reflexivity.
Qed.

(** C4 as the code has it.  The manager is not loaded, the lock is free,
    and one step of the load aborts with [e].  Then [get_model] raises
    that same [e]; [_model_loaded] is false and [is_ready()] answers
    false; [_model] keeps the value it had unless the fault came from
    [eval()], after the constructor had succeeded, in which case it holds
    the object just built; the lock is free again; and the next
    [get_model()] starts a new attempt from its first step, which returns
    the model and makes the manager ready if the backend now answers. *)
Theorem failed_load_leaves_manager_unloaded
        (bk : Backend) (w : World) (e : Exception)
        (built : option SentenceTransformer) :
  ready w = false -> _lock w = false ->
  load_fault bk (now w) e built ->
  exists w1,
    get_model bk w = (Raised e, w1) /\
    _model w1 = match built with
                | Some m => Some m
                | None => _model w
                end /\
    _model_loaded w1 = false /\
    fst (is_ready w1) = Returned false /\
    _lock w1 = false /\
    (exists evs,
        trace (snd (get_model bk w1)) = evs ++ EvImportSettings :: trace w1) /\
    (forall s m,
        load_replies_ok bk (now w1) s m ->
        fst (get_model bk w1) = Returned (Some m) /\
        fst (is_ready (snd (get_model bk w1))) = Returned true).
Proof.
  intros Hr Hl Hf. pose proof (get_model_unready bk w Hr Hl) as H.
  destruct (get_model bk w) as [r w1] eqn:Hg. cbn [fst snd] in H.
  destruct (load_fault_run _ _ _ _ _ _ Hf H) as [-> Hm].
  destruct (load_run_raised _ _ _ _ H) as (Hloaded & Hr1 & _ & _).
  destruct (load_run_frame _ _ _ _ H) as (Hk & _).
  assert (Hl1 : _lock w1 = false) by congruence.
  pose proof (get_model_unready bk w1 Hr1 Hl1) as H2.
  exists w1.
  split; [reflexivity |].
  split; [assumption |].
  split; [assumption |].
  split; [rewrite is_ready_eq, Hr1; reflexivity |].
  split; [assumption |].
  split; [eapply load_run_starts_with_import; eassumption |].
  intros s m Hok.
  destruct (load_run_replies_ok _ _ _ _ _ _ Hok H2) as [-> Hr2].
  rewrite is_ready_eq, Hr2. split; reflexivity.
Qed.

Lemma flaky_backend_first_fault :
  load_fault flaky_backend (now fresh_world) OSError None.
Proof.
  apply (fault_in_constructor flaky_backend (now fresh_world) default_settings
           OSError); reflexivity.
Qed.

Lemma failed_load_leaves_manager_unloaded_witness :
  exists w1,
    get_model flaky_backend fresh_world = (Raised OSError, w1) /\
    _model w1 = _model fresh_world /\
    _model_loaded w1 = false /\
    fst (is_ready w1) = Returned false /\
    _lock w1 = false /\
    (exists evs,
        trace (snd (get_model flaky_backend w1))
          = evs ++ EvImportSettings :: trace w1) /\
    (forall s m,
        load_replies_ok flaky_backend (now w1) s m ->
        fst (get_model flaky_backend w1) = Returned (Some m) /\
        fst (is_ready (snd (get_model flaky_backend w1))) = Returned true).
Proof.
  apply (failed_load_leaves_manager_unloaded flaky_backend fresh_world OSError
           None).
  - reflexivity.
  - reflexivity.
  - exact flaky_backend_first_fault.
Defined.

(** C4 as stated fails on the code: when the constructor succeeds and
    [eval()] raises, [get_model] raises, [is_ready()] is false, and
    [_model] holds the object that was built. *)
Lemma eval_fault_retains_handle :
  (exists w1,
      get_model eval_fault_backend fresh_world = (Raised RuntimeError, w1) /\
      fst (is_ready w1) = Returned false /\
      _model w1 = Some (ModelObject 3)) /\
  ~ no_handle_after_failed_load eval_fault_backend fresh_world.
Proof.
  split.
  - eexists. split; [reflexivity |]. split; reflexivity.
  - intros H.
    destruct (H RuntimeError (snd (get_model eval_fault_backend fresh_world))
                eq_refl) as [_ Hm].
    discriminate Hm.
Qed.

(** C9.  In every state reached from the initial one by calls of the
    public interface, [is_ready()] returns true exactly when a load has
    succeeded and the manager holds its handle, and false exactly when no
    load has succeeded yet; it returns false initially; and it returns
    false in the state left by a [get_model()] that raised. *)
Theorem is_ready_iff_model_loaded (bk : Backend) (calls : list ApiCall) :
  let w := run_calls bk calls fresh_world in
  (fst (is_ready w) = Returned true <->
     load_succeeded w /\ exists m, _model w = Some m) /\
  (fst (is_ready w) = Returned false <-> ~ load_succeeded w) /\
  fst (is_ready fresh_world) = Returned false /\
  (forall e w1,
      get_model bk w = (Raised e, w1) ->
      fst (is_ready w1) = Returned false /\ ~ load_succeeded w1).
Proof.
  intros w.
  destruct (quiescent_run_calls bk calls fresh_world quiescent_fresh)
    as (Hl & _ & Hr). fold w in Hl, Hr.
  rewrite is_ready_eq. cbn [fst].
  split; [| split; [| split]].
  - split.
    + intros [= Hrw]. split; [apply Hr; assumption |].
      apply ready_true in Hrw. tauto.
    + intros [Hs _]. f_equal. apply Hr. assumption.
  - split.
    + intros [= Hrw] Hs. apply Hr in Hs. congruence.
    + intros Hn. f_equal. destruct (ready w); [| reflexivity].
      exfalso. apply Hn, Hr. reflexivity.
  - reflexivity.
  - intros e w1 Hg. apply get_model_raised in Hg as (Hrw & _ & H).
    destruct (load_run_raised _ _ _ _ H) as (_ & Hr1 & _ & Hs).
    rewrite is_ready_eq, Hr1. split; [reflexivity |].
    rewrite Hs, <- Hr, Hrw. discriminate.
Qed.

(** C10.  The manager is not loaded, the lock is free, and one step of
    the load that a [compute_similarity] call on non-empty texts triggers
    aborts with [e].  A direct [get_model()] raises [e]; the similarity
    call instead logs [e] in the handler of line 103 and returns exactly 0,
    and so does the asynchronous entry point.  In no state does either
    entry point raise: only [get_model] lets a load error through. *)
Theorem load_failure_inside_similarity_returns_zero
        (bk : Backend) (a b : string) (w : World) (e : Exception)
        (built : option SentenceTransformer) :
  a <> ""%string -> b <> ""%string ->
  ready w = false -> _lock w = false ->
  load_fault bk (now w) e built ->
  exists w1,
    get_model bk w = (Raised e, w1) /\
    calculate_similarity bk a b w
      = (Returned 0%Q, record_event (EvLog (ERROR_failed_to_calculate e)) w1) /\
    (pool_idle w -> fst (calculate_similarity_async bk a b w) = Returned 0%Q) /\
    (forall a' b' w' e', fst (calculate_similarity bk a' b' w') <> Raised e') /\
    (forall a' b' w' e',
        pool_idle w' ->
        fst (calculate_similarity_async bk a' b' w') <> Raised e').
Proof.
  intros Ha Hb Hr Hl Hf.
  apply py_not_false in Ha. apply py_not_false in Hb.
  assert (Hab : py_not a || py_not b = false) by (rewrite Ha, Hb; reflexivity).
  pose proof (get_model_unready bk w Hr Hl) as H.
  destruct (get_model bk w) as [r w1] eqn:Hg. cbn [fst snd] in H.
  destruct (load_fault_run _ _ _ _ _ _ Hf H) as [-> _].
  pose proof (calculate_similarity_load_raised _ _ _ _ _ _ Hab Hg) as Hc.
  exists w1. split; [reflexivity |]. split; [exact Hc |].
  split; [| split].
  - intros Hp. rewrite calculate_similarity_async_idle by assumption.
    cbn [fst]. rewrite Hc. reflexivity.
  - intros a' b' w' e'. apply calculate_similarity_never_raises.
  - intros a' b' w' e' Hp.
    rewrite calculate_similarity_async_idle by assumption. cbn [fst].
    apply calculate_similarity_never_raises.
Qed.

Lemma no_files_backend_fault :
  load_fault no_files_backend (now fresh_world) OSError None.
Proof.
  apply (fault_in_constructor no_files_backend (now fresh_world)
           default_settings OSError); reflexivity.
Qed.

Lemma load_failure_inside_similarity_returns_zero_witness :
  exists w1,
    get_model no_files_backend fresh_world = (Raised OSError, w1) /\
    calculate_similarity no_files_backend "cv" "job" fresh_world
      = (Returned 0%Q,
         record_event (EvLog (ERROR_failed_to_calculate OSError)) w1) /\
    (pool_idle fresh_world ->
     fst (calculate_similarity_async no_files_backend "cv" "job" fresh_world)
       = Returned 0%Q) /\
    (forall a' b' w' e',
        fst (calculate_similarity no_files_backend a' b' w') <> Raised e') /\
    (forall a' b' w' e',
        pool_idle w' ->
        fst (calculate_similarity_async no_files_backend a' b' w')
          <> Raised e').
Proof.
  apply (load_failure_inside_similarity_returns_zero no_files_backend
           "cv" "job" fresh_world OSError None).
  - discriminate.
  - discriminate.
  - reflexivity.
  - reflexivity.
  - exact no_files_backend_fault.
Defined.

(** ** Concurrent callers: the invariant *)

Lemma pc_inv_same_view (w w' : World) (q : pc) :
  _model_loaded w' = _model_loaded w -> _model w' = _model w ->
  load_count w' = load_count w ->
  pc_inv w q -> pc_inv w' q.
Proof.
  intros Hl Hm Hc. unfold pc_inv, loaded_once. rewrite Hl, Hm, Hc.
  destruct q; tauto.
Qed.

Lemma pc_inv_outside_unloaded (w w' : World) (q : pc) :
  in_critical_section q = false -> _model_loaded w = false ->
  pc_inv w q -> pc_inv w' q.
Proof.
  intros Hq Hl. unfold pc_inv, loaded_once.
  destruct q; cbn in Hq; try discriminate; intuition congruence.
Qed.

(** What one step does to the lock, to the stepping thread and to the
    others. *)
Lemma thread_step_facts (bk : Backend) (p p' : pc) (w w' : World) :
  loads_ok bk ->
  thread_step bk p w = Some (p', w') ->
  pc_inv w p ->
  (_model_loaded w = true -> loaded_once w) ->
  (_lock w = false -> _model_loaded w = false -> load_count w = 0) ->
  (in_critical_section p = true -> _lock w = true) ->
  ((in_critical_section p' = in_critical_section p /\ _lock w' = _lock w) \/
   (in_critical_section p = false /\ in_critical_section p' = true /\
    _lock w = false /\ _lock w' = true) \/
   (in_critical_section p = true /\ in_critical_section p' = false /\
    _lock w' = false)) /\
  pc_inv w' p' /\
  (_model_loaded w' = true -> loaded_once w') /\
  (_lock w' = false -> _model_loaded w' = false -> load_count w' = 0) /\
  (forall q, (in_critical_section p = true -> in_critical_section q = false) ->
             pc_inv w q -> pc_inv w' q).
Proof.
  intros (Hi & Hd & Hc & He) Hstep Hp G1 G2 Hk.
  destruct p; cbn [thread_step] in Hstep; try discriminate;
    try (destruct (Hi (now w)) as [s0 Hs0]; rewrite Hs0 in Hstep);
    try (destruct (Hd (now w) (model_cache_dir s)) as [u0 Hu0];
         rewrite Hu0 in Hstep);
    try (destruct (Hc (now w) (model_name s) (model_cache_dir s)) as [m0 Hm0];
         rewrite Hm0 in Hstep);
    repeat match type of Hstep with
           | context [if ?b then _ else _] => destruct b eqn:?
           | context [match _model w with Some _ => _ | None => _ end] =>
               destruct (_model w) as [obj|] eqn:?
           | context [model_eval bk ?t ?o] =>
               destruct (He t o) as [u1 Hu1]; rewrite Hu1 in Hstep
           end;
    try discriminate; injection Hstep as <- <-;
    unfold pc_inv, loaded_once in Hp; cbn [in_critical_section] in *.
  all: try (destruct Hp as (? & [? Hm] & ?); rewrite Hm in *; discriminate).
  all: try (exfalso; destruct Hp as (_ & _ & [? Hm]); congruence).
  all: (split; [cbn; tauto |]).
  all: (split; [unfold pc_inv, loaded_once, load_count in *; cbn in *;
                try solve [intuition (eauto; congruence)] |]).
  all: (split; [unfold loaded_once, load_count in *; cbn in *;
                try solve [intuition (eauto; congruence)] |]).
  all: (split; [unfold loaded_once, load_count in *; cbn in *;
                try solve [intuition (eauto; congruence)] |]).
  all: intros q Hcs Hq.
  all: try (eapply pc_inv_same_view; [| | | exact Hq]; reflexivity).
  all: try (eapply pc_inv_outside_unloaded;
            [apply Hcs; reflexivity | | exact Hq]; tauto).
Qed.

Lemma sched_step_inv (bk : Backend) (c : Config) (i : nat) :
  loads_ok bk -> config_inv c -> config_inv (sched_step bk c i).
Proof.
  intros Hok Hinv. unfold sched_step.
  destruct (threads c !! i) as [p|] eqn:Hi; [| assumption].
  destruct (thread_step bk p (shared c)) as [[p' w']|] eqn:Hstep;
    [| assumption].
  destruct Hinv as [G1 G2 Gm Gh Gk Gt].
  destruct (thread_step_facts bk p p' (shared c) w' Hok Hstep (Gt i p Hi) G1 G2
              (Gk i p Hi)) as (HA & HB & HC & HD & HE).
  split; cbn [threads shared].
  - exact HC.
  - exact HD.
  - intros a b pa pb Ha Hb Hpa Hpb.
    apply list_lookup_insert_Some in Ha, Hb.
    destruct Ha as [(<- & <- & _) | (Hne & Ha)];
      destruct Hb as [(<- & <- & _) | (Hne' & Hb)]; trivial.
    + destruct HA as [[Hcs _] | [(_ & _ & Hl & _) | (_ & Hcs & _)]].
      * apply (Gm i b p pb); congruence.
      * rewrite (Gk b pb Hb Hpb) in Hl. discriminate.
      * congruence.
    + destruct HA as [[Hcs _] | [(_ & _ & Hl & _) | (_ & Hcs & _)]].
      * apply (Gm a i pa p); congruence.
      * rewrite (Gk a pa Ha Hpa) in Hl. discriminate.
      * congruence.
    + apply (Gm a b pa pb); assumption.
  - intros Hl'.
    destruct HA as [[Hcs Hl] | [(_ & Hcs & _) | (_ & _ & Hl)]].
    + rewrite Hl in Hl'. destruct (Gh Hl') as (j & q & Hj & Hq).
      destruct (decide (i = j)) as [<- | Hne].
      * exists i, p'. split; [| congruence].
        apply list_lookup_insert_eq. eapply lookup_lt_Some; eassumption.
      * exists j, q. rewrite list_lookup_insert_ne by assumption. auto.
    + exists i, p'. split; [| assumption].
      apply list_lookup_insert_eq. eapply lookup_lt_Some; eassumption.
    + congruence.
  - intros a pa Ha Hpa. apply list_lookup_insert_Some in Ha.
    destruct Ha as [(<- & <- & _) | (Hne & Ha)].
    + destruct HA as [[Hcs Hl] | [(_ & _ & _ & Hl) | (_ & Hcs & _)]].
      * rewrite Hl. apply (Gk i p Hi). congruence.
      * assumption.
      * congruence.
    + pose proof (Gk a pa Ha Hpa) as Hl.
      destruct HA as [[_ Hl'] | [(_ & _ & Hl' & _) | (Hcs & _ & _)]].
      * congruence.
      * congruence.
      * exfalso. apply Hne. apply (Gm i a p pa); assumption.
  - intros a pa Ha. apply list_lookup_insert_Some in Ha.
    destruct Ha as [(<- & <- & _) | (Hne & Ha)]; [exact HB |].
    apply HE; [| apply (Gt a pa Ha)].
    intros Hcs. destruct (in_critical_section pa) eqn:Hpa; [| reflexivity].
    exfalso. apply Hne. apply (Gm i a p pa); assumption.
Qed.

Lemma run_schedule_inv (bk : Backend) (sched : list nat) (c : Config) :
  loads_ok bk -> config_inv c -> config_inv (run_schedule bk sched c).
Proof.
  intros Hok. revert c. induction sched as [|i sched IH]; intros c Hinv;
    [assumption |].
  cbn [run_schedule fold_left]. apply IH, sched_step_inv; assumption.
Qed.

Lemma concurrent_get_model_inv (N : nat) :
  config_inv (concurrent_get_model N fresh_world).
Proof.
  split; cbn [concurrent_get_model threads shared].
  - discriminate.
  - reflexivity.
  - intros i j p q Hi _ Hp. apply lookup_replicate in Hi as [-> _].
    discriminate.
  - discriminate.
  - intros i p Hi Hp. apply lookup_replicate in Hi as [-> _]. discriminate.
  - intros i p Hi. apply lookup_replicate in Hi as [-> _]. exact I.
Qed.

(** ** Concurrent callers: every caller gets there *)

Lemma thread_step_rank (bk : Backend) (p p' : pc) (w w' : World) :
  thread_step bk p w = Some (p', w') -> rank p' < rank p.
Proof.
  intros H. destruct p; cbn [thread_step] in H;
    repeat match type of H with
           | context [if ?b then _ else _] => destruct b
           | context [match ?r with Ok _ => _ | Fails _ => _ end] => destruct r
           | context [match _model w with Some _ => _ | None => _ end] =>
               destruct (_model w)
           end;
    try discriminate; injection H as <- _; cbn [rank]; lia.
Qed.

Lemma thread_step_enabled (bk : Backend) (p : pc) (w : World) :
  finished p = false ->
  (p = L43_acquire -> _lock w = false) ->
  exists p' w', thread_step bk p w = Some (p', w').
Proof.
  intros Hf Hl. destruct p; cbn [finished] in Hf; try discriminate;
    cbn [thread_step]; try (eexists _, _; reflexivity).
  - rewrite Hl by reflexivity. eexists _, _. reflexivity.
  - destruct (_model w); eexists _, _; reflexivity.
Qed.

Lemma critical_section_not_waiting (p : pc) :
  in_critical_section p = true -> finished p = false /\ p <> L43_acquire.
Proof. destruct p; cbn; intros H; split; congruence. Qed.

(** No deadlock: while a caller has not finished, some thread can move. *)
Lemma config_progress (bk : Backend) (c : Config) (i : nat) (p : pc) :
  config_inv c ->
  threads c !! i = Some p -> finished p = false ->
  exists j q q' w',
    threads c !! j = Some q /\ thread_step bk q (shared c) = Some (q', w').
Proof.
  intros Hinv Hi Hf. destruct (_lock (shared c)) eqn:Hl.
  - destruct (inv_holder c Hinv Hl) as (j & q & Hj & Hq).
    apply critical_section_not_waiting in Hq as [Hqf Hqa].
    destruct (thread_step_enabled bk q (shared c) Hqf) as (q' & w' & Hs);
      [congruence |].
    exists j, q, q', w'. auto.
  - destruct (thread_step_enabled bk p (shared c) Hf) as (p' & w' & Hs);
      [auto |].
    exists i, p, p', w'. auto.
Qed.

Lemma sum_rank_insert (l : list pc) (i : nat) (p p' : pc) :
  l !! i = Some p -> rank p' < rank p ->
  fold_right (fun q n => rank q + n) 0 (<[i := p']> l)
    < fold_right (fun q n => rank q + n) 0 l.
Proof.
  revert i. induction l as [|q l IH]; intros [|i] Hi Hr; try discriminate.
  - injection Hi as ->.
    change (rank p' + fold_right (fun q n => rank q + n) 0 l
            < rank p + fold_right (fun q n => rank q + n) 0 l).
    apply Nat.add_lt_mono_r. assumption.
  - change (rank q + fold_right (fun q n => rank q + n) 0 (<[i := p']> l)
            < rank q + fold_right (fun q n => rank q + n) 0 l).
    apply Nat.add_lt_mono_l. apply IH; assumption.
Qed.

Lemma sched_step_rank (bk : Backend) (c : Config) (j : nat) (q q' : pc)
      (w' : World) :
  threads c !! j = Some q -> thread_step bk q (shared c) = Some (q', w') ->
  total_rank (sched_step bk c j) < total_rank c.
Proof.
  intros Hj Hs. unfold sched_step, total_rank. rewrite Hj, Hs.
  cbn [threads]. eapply sum_rank_insert; [eassumption |].
  eapply thread_step_rank; eassumption.
Qed.

Lemma forallb_false_lookup {A} (f : A -> bool) (l : list A) :
  forallb f l = false -> exists i x, l !! i = Some x /\ f x = false.
Proof.
  induction l as [|x l IH]; cbn; [discriminate |].
  destruct (f x) eqn:Hx; cbn.
  - intros H. destruct (IH H) as (i & y & Hi & Hy). exists (S i), y. auto.
  - intros _. exists 0, x. auto.
Qed.

Lemma forallb_true_lookup {A} (f : A -> bool) (l : list A) (i : nat) (x : A) :
  forallb f l = true -> l !! i = Some x -> f x = true.
Proof.
  revert i. induction l as [|y l IH]; intros [|i]; cbn; try discriminate.
  - intros H [= ->]. apply andb_true_iff in H. tauto.
  - intros H Hi. apply andb_true_iff in H. apply (IH i); tauto.
Qed.

(** From every state of a run, some continuation lets all callers
    finish. *)
Lemma run_completes (bk : Backend) (n : nat) (c : Config) :
  loads_ok bk -> total_rank c <= n -> config_inv c ->
  exists rest, forallb finished (threads (run_schedule bk rest c)) = true.
Proof.
  intros Hok. revert c. induction n as [|n IH]; intros c Hn Hinv.
  - destruct (forallb finished (threads c)) eqn:Hall;
      [exists []; assumption |].
    apply forallb_false_lookup in Hall as (i & p & Hi & Hf).
    destruct (config_progress bk c i p Hinv Hi Hf) as (j & q & q' & w' & Hj & Hs).
    pose proof (sched_step_rank bk c j q q' w' Hj Hs). lia.
  - destruct (forallb finished (threads c)) eqn:Hall;
      [exists []; assumption |].
    apply forallb_false_lookup in Hall as (i & p & Hi & Hf).
    destruct (config_progress bk c i p Hinv Hi Hf) as (j & q & q' & w' & Hj & Hs).
    pose proof (sched_step_rank bk c j q q' w' Hj Hs) as Hlt.
    destruct (IH (sched_step bk c j)) as [rest Hrest];
      [lia | apply sched_step_inv; assumption |].
    exists (j :: rest). exact Hrest.
Qed.

Lemma sched_step_length (bk : Backend) (c : Config) (i : nat) :
  length (threads (sched_step bk c i)) = length (threads c).
Proof.
  unfold sched_step. destruct (threads c !! i); [| reflexivity].
  destruct (thread_step bk p (shared c)) as [[p' w']|]; [| reflexivity].
  cbn [threads]. apply length_insert.
Qed.

Lemma run_schedule_length (bk : Backend) (sched : list nat) (c : Config) :
  length (threads (run_schedule bk sched c)) = length (threads c).
Proof.
  revert c. induction sched as [|i sched IH]; intros c; [reflexivity |].
  cbn [run_schedule fold_left]. rewrite <- (sched_step_length bk c i).
  apply IH.
Qed.

Lemma config_inv_load_count (c : Config) :
  config_inv c -> load_count (shared c) <= 1.
Proof.
  intros Hinv. destruct (_model_loaded (shared c)) eqn:Hl.
  - destruct (inv_loaded c Hinv Hl) as (_ & _ & ->). lia.
  - destruct (_lock (shared c)) eqn:Hk.
    + destruct (inv_holder c Hinv Hk) as (j & q & Hj & Hq).
      pose proof (inv_threads c Hinv j q Hj) as Hpc.
      destruct q; cbn in Hq; try discriminate; cbn in Hpc;
        unfold loaded_once in Hpc; try (exfalso; exact Hpc);
        try (rewrite (Hpc Hl); lia);
        intuition (try congruence; try lia).
    + rewrite (inv_unlocked c Hinv Hk Hl). lia.
Qed.

Example three_callers_interleaved :
  run_schedule healthy_backend
    [0; 1; 2; 0; 1; 2; 0; 1; 2; 0; 1; 2; 0; 0; 0; 0; 0; 0; 0; 0; 0; 0; 0; 0;
     0; 0; 0; 1; 1; 1; 1; 2; 2; 2; 2; 2; 2; 2; 2]
    (concurrent_get_model 3 fresh_world)
  = {| threads := [Returned_model (Some (ModelObject 3)); L43_release;
                   L43_acquire];
       shared := with_lock_held true
                   (snd (get_model healthy_backend fresh_world)) |}.
Proof. reflexivity. Qed.

(** When the first attempt fails, the caller that made it sees the
    exception and the next caller loads again: the constructor runs
    twice.  This is why C5 is about a backend whose load steps succeed. *)
Example two_callers_flaky_backend :
  let c := run_schedule flaky_backend (repeat 0 30 ++ repeat 1 30)
             (concurrent_get_model 2 fresh_world) in
  threads c = [Raised_error OSError; Returned_model (Some (ModelObject 8))] /\
  load_count (shared c) = 2.
Proof. split; reflexivity. Qed.

(** C5.  [N] contexts call [get_model()] on a manager that has not loaded
    yet, their steps interleaved by an arbitrary schedule, with a backend
    whose load steps succeed.  At every point of the run the constructor
    of the model has been entered at most once; a caller that has returned
    holds the one object kept in [_model], and the constructor has then
    run exactly once; no caller sees an exception; and the run can always
    be continued until all [N] callers have returned that same object. *)
Theorem concurrent_get_model_loads_once
        (bk : Backend) (N : nat) (sched : list nat) :
  loads_ok bk ->
  let c := run_schedule bk sched (concurrent_get_model N fresh_world) in
  load_count (shared c) <= 1 /\
  (forall i v,
      threads c !! i = Some (Returned_model v) ->
      load_count (shared c) = 1 /\
      exists m, v = Some m /\ _model (shared c) = Some m) /\
  (forall i e, threads c !! i <> Some (Raised_error e)) /\
  exists rest,
    let c' := run_schedule bk rest c in
    forall i, i < N ->
      exists m,
        threads c' !! i = Some (Returned_model (Some m)) /\
        _model (shared c') = Some m /\
        load_count (shared c') = 1.
Proof.
  intros Hok c.
  assert (Hinv : config_inv c)
    by (apply run_schedule_inv; [assumption | apply concurrent_get_model_inv]).
  split; [apply config_inv_load_count; assumption |].
  split; [| split].
  - intros i v Hi. pose proof (inv_threads c Hinv i _ Hi) as Hpc.
    cbn in Hpc. destruct Hpc as ((_ & [m Hm] & Hc) & ->). eauto.
  - intros i e Hi. exact (inv_threads c Hinv i _ Hi).
  - destruct (run_completes bk (total_rank c) c Hok (le_n _) Hinv)
      as [rest Hrest].
    exists rest. intros c' i Hi.
    assert (Hinv' : config_inv c') by (apply run_schedule_inv; assumption).
    assert (Hlen : length (threads c') = N).
    { unfold c', c. rewrite !run_schedule_length. cbn.
      apply length_replicate. }
    destruct (lookup_lt_is_Some_2 (threads c') i) as [p Hp]; [lia |].
    pose proof (forallb_true_lookup _ _ _ _ Hrest Hp) as Hf.
    pose proof (inv_threads c' Hinv' i p Hp) as Hpc.
    destruct p; cbn in Hf; try discriminate; cbn in Hpc; [| contradiction].
    destruct Hpc as ((_ & [m Hm] & Hc) & ->).
    exists m. rewrite Hm in Hp. auto.
Qed.

Lemma healthy_backend_loads_ok : loads_ok healthy_backend.
Proof.
  repeat split; intros; eexists; reflexivity.
Qed.

Lemma concurrent_get_model_loads_once_witness :
  let c := run_schedule healthy_backend
             [0; 1; 2; 0; 1; 2; 0; 1; 2; 0; 1; 2; 0; 0; 0; 0; 0; 0; 0; 0; 0;
              0; 0; 0; 0; 0; 0; 1; 1; 1; 1; 2; 2; 2; 2; 2; 2]
             (concurrent_get_model 3 fresh_world) in
  load_count (shared c) <= 1 /\
  (forall i v,
      threads c !! i = Some (Returned_model v) ->
      load_count (shared c) = 1 /\
      exists m, v = Some m /\ _model (shared c) = Some m) /\
  (forall i e, threads c !! i <> Some (Raised_error e)) /\
  exists rest,
    let c' := run_schedule healthy_backend rest c in
    forall i, i < 3 ->
      exists m,
        threads c' !! i = Some (Returned_model (Some m)) /\
        _model (shared c') = Some m /\
        load_count (shared c') = 1.
Proof.
  apply (concurrent_get_model_loads_once healthy_backend 3).
  exact healthy_backend_loads_ok.
Defined.

(** ** The two readings of [get_model] agree *)

(** A thread that runs alone through the points of lines 78-80 and 40-74
    ends with the result, and in the state, that the method body gives. *)
Lemma single_caller_agrees (bk : Backend) (w : World) :
  get_model bk w
    = (outcome_of_pc (fst (run_thread bk 30 L78_loaded w)),
       snd (run_thread bk 30 L78_loaded w)).
Proof.
  destruct w as [m l k x t].
  unfold get_model, _load_model_sync, model_is_loaded, with_self_lock,
    try_except, load_attempt, load_failed, eval_self_model, bind, ret, raise,
    call, logger, set_model, set_model_loaded, get_model_attr,
    get_model_loaded, now.
  destruct l, m as [m|], k; cbn; try reflexivity.
  all: destruct (import_settings bk (length t)) as [s|e]; cbn;
    try reflexivity.
  all: destruct (os_makedirs bk (S (length t)) (model_cache_dir s)) as [[]|e];
    cbn; try reflexivity.
  all: destruct (new_SentenceTransformer bk (S (S (S (length t))))
                   (model_name s) (model_cache_dir s)) as [m'|e]; cbn;
    try reflexivity.
  all: destruct (model_eval bk (S (S (S (S (length t))))) m') as [[]|e]; cbn;
    reflexivity.
Qed.

(** * Beyond the claims *)

(** ** The manager, call after call *)

Lemma executor_frame_unchanged {A} (c : M A) (w : World) :
  executor_frame c -> _executor (snd (c w)) = _executor w.
Proof.
  intros Hc. specialize (Hc (_executor w) w).
  assert (Hw : with_executor (_executor w) w = w) by (destruct w; reflexivity).
  rewrite Hw in Hc. rewrite Hc at 1. reflexivity.
Qed.

Lemma pool_idle_same_executor (w w' : World) :
  _executor w' = _executor w -> pool_idle w -> pool_idle w'.
Proof. unfold pool_idle. intros ->. trivial. Qed.

Lemma pool_idle_perform (bk : Backend) (c : ApiCall) (w : World) :
  pool_idle w -> pool_idle (perform bk c w).
Proof.
  intros Hp. destruct c; cbn [perform].
  - eapply pool_idle_same_executor; [| exact Hp].
    apply executor_frame_unchanged, frame_get_model.
  - eapply pool_idle_same_executor; [| exact Hp].
    apply executor_frame_unchanged, frame_calculate_similarity.
  - rewrite calculate_similarity_async_idle by assumption. cbn [snd].
    split; [reflexivity |].
    cbn [_executor with_executor next_future futures].
    intros k Hk. destruct Hp as [_ Hf].
    rewrite lookup_insert_ne by lia. apply Hf. lia.
  - rewrite is_ready_eq. exact Hp.
Qed.

Lemma only_similarity_events_refl (w : World) : only_similarity_events w w.
Proof. repeat split. exists []. split; [reflexivity | constructor]. Qed.

Lemma only_similarity_events_trans (w1 w2 w3 : World) :
  only_similarity_events w1 w2 -> only_similarity_events w2 w3 ->
  only_similarity_events w1 w3.
Proof.
  intros (Hm & Hl & Hk & evs & Ht & Hf) (Hm' & Hl' & Hk' & evs' & Ht' & Hf').
  split; [congruence |]. split; [congruence |]. split; [congruence |].
  exists (evs' ++ evs). split.
  - rewrite Ht', Ht, app_assoc. reflexivity.
  - apply Forall_app. split; assumption.
Qed.

Lemma only_similarity_events_executor (ex : ThreadPoolExecutor) (w w' : World) :
  only_similarity_events w w' -> only_similarity_events w (with_executor ex w').
Proof. intros H. exact H. Qed.

Lemma only_similarity_events_ready (w w' : World) :
  only_similarity_events w w' -> ready w' = ready w.
Proof. intros (Hm & Hl & _). unfold ready. rewrite Hm, Hl. reflexivity. Qed.

Lemma only_similarity_events_load_count (w w' : World) :
  only_similarity_events w w' ->
  load_count w' = load_count w /\ success_count w' = success_count w.
Proof.
  intros (_ & _ & _ & evs & Ht & Hf). unfold load_count, success_count.
  rewrite Ht, !List.filter_app, !length_app.
  assert (H : List.filter is_construct evs = []
              /\ List.filter is_model_loaded_record evs = []).
  { clear Ht. induction Hf as [|ev evs Hev _ [IH1 IH2]]; [split; reflexivity |].
    cbn [List.filter]. rewrite IH1, IH2.
    destruct ev as [| | | | |[]]; cbn in Hev; try contradiction;
      split; reflexivity. }
  destruct H as [-> ->]. split; reflexivity.
Qed.

Lemma calculate_similarity_when_ready (bk : Backend) (a b : string) (w : World) :
  ready w = true ->
  only_similarity_events w (snd (calculate_similarity bk a b w)).
Proof.
  intros Hr. destruct (py_not a || py_not b) eqn:Hab.
  - rewrite calculate_similarity_empty by assumption.
    apply only_similarity_events_refl.
  - pose proof (get_model_ready bk w Hr) as Hg.
    apply ready_true in Hr as [_ [m Hm]]. rewrite Hm in Hg.
    rewrite (calculate_similarity_with_model _ _ _ _ _ _ Hab Hg).
    destruct (match model_encode bk (now w) m [a; b] true with
              | Ok rows => score_of_rows rows
              | Fails e => Fails e
              end) as [q|e]; cbn [swallow snd]; repeat split.
    + exists [EvEncode m [a; b] true]. split; [reflexivity |].
      repeat constructor.
    + exists [EvLog (ERROR_failed_to_calculate e); EvEncode m [a; b] true].
      split; [reflexivity |]. repeat constructor.
Qed.

Lemma perform_when_ready (bk : Backend) (c : ApiCall) (w : World) :
  ready w = true -> pool_idle w ->
  only_similarity_events w (perform bk c w).
Proof.
  intros Hr Hp. destruct c; cbn [perform].
  - rewrite get_model_ready by assumption. apply only_similarity_events_refl.
  - apply calculate_similarity_when_ready. assumption.
  - rewrite calculate_similarity_async_idle by assumption. cbn [snd].
    apply only_similarity_events_executor, calculate_similarity_when_ready.
    assumption.
  - rewrite is_ready_eq. apply only_similarity_events_refl.
Qed.

Lemma pool_idle_run_calls (bk : Backend) (cs : list ApiCall) (w : World) :
  pool_idle w -> pool_idle (run_calls bk cs w).
Proof.
  revert w. induction cs as [|c cs IH]; intros w Hp; [assumption |].
  cbn [run_calls fold_left]. apply IH, pool_idle_perform, Hp.
Qed.

Lemma run_calls_when_ready (bk : Backend) (cs : list ApiCall) (w : World) :
  ready w = true -> pool_idle w ->
  only_similarity_events w (run_calls bk cs w).
Proof.
  revert w. induction cs as [|c cs IH]; intros w Hr Hp;
    [apply only_similarity_events_refl |].
  cbn [run_calls fold_left].
  pose proof (perform_when_ready bk c w Hr Hp) as H1.
  eapply only_similarity_events_trans; [exact H1 |]. apply IH.
  - rewrite (only_similarity_events_ready _ _ H1). assumption.
  - apply pool_idle_perform. assumption.
Qed.

(** X1.  Once the manager is ready, no sequence of public calls replaces
    the model or reloads it: [_model] stays the same object, [is_ready()]
    stays true, the constructor is not entered again, and the only events
    added are [encode] calls and the error records of line 104. *)
Theorem loaded_model_is_never_replaced
        (bk : Backend) (calls : list ApiCall) (w : World) :
  ready w = true -> pool_idle w ->
  _model (run_calls bk calls w) = _model w /\
  fst (is_ready (run_calls bk calls w)) = Returned true /\
  load_count (run_calls bk calls w) = load_count w /\
  exists evs,
    trace (run_calls bk calls w) = evs ++ trace w /\
    Forall similarity_event evs.
Proof.
  intros Hr Hp. pose proof (run_calls_when_ready bk calls w Hr Hp) as H.
  pose proof (only_similarity_events_ready _ _ H) as Hr'.
  pose proof (only_similarity_events_load_count _ _ H) as [Hc _].
  destruct H as (Hm & _ & _ & Hevs).
  split; [exact Hm |]. split; [| split; [exact Hc | exact Hevs]].
  rewrite is_ready_eq, Hr', Hr. reflexivity.
Qed.

Lemma loaded_model_is_never_replaced_witness :
  let w := snd (get_model healthy_backend fresh_world) in
  let calls := [Do_calculate_similarity "ab" "abc"; Do_get_model;
                Do_calculate_similarity_async "cv" ""; Do_is_ready] in
  _model (run_calls encode_fault_backend calls w) = _model w /\
  fst (is_ready (run_calls encode_fault_backend calls w)) = Returned true /\
  load_count (run_calls encode_fault_backend calls w) = load_count w /\
  exists evs,
    trace (run_calls encode_fault_backend calls w) = evs ++ trace w /\
    Forall similarity_event evs.
Proof.
  apply (loaded_model_is_never_replaced encode_fault_backend
           [Do_calculate_similarity "ab" "abc"; Do_get_model;
            Do_calculate_similarity_async "cv" ""; Do_is_ready]
           (snd (get_model healthy_backend fresh_world))).
  - reflexivity.
  - exact pool_idle_fresh.
Defined.

Lemma load_run_counts (bk : Backend) (w w1 : World)
      (r : outcome (option SentenceTransformer)) :
  load_run bk w r w1 ->
  success_count w1
    = success_count w + match r with Returned _ => 1 | _ => 0 end /\
  load_count w <= load_count w1 <= S (load_count w).
Proof.
  intros H. inversion H; subst; unfold success_count, load_count; cbn; lia.
Qed.

Lemma no_encode_well_formed (evs : list Event) :
  (forall texts m n, ~ In (EvEncode m texts n) evs) ->
  Forall well_formed_encode evs.
Proof.
  intros H. apply List.Forall_forall. intros ev Hin.
  destruct ev; cbn; trivial. exfalso. eapply H. exact Hin.
Qed.

Lemma settled_fresh : settled fresh_world.
Proof.
  split; [apply quiescent_fresh |]. split; [| split].
  - intros m texts n [].
  - constructor.
  - reflexivity.
Qed.

Lemma settled_get_model (bk : Backend) (w : World) :
  settled w -> settled (snd (get_model bk w)).
Proof.
  intros Hs. pose proof Hs as (Hq & He & Hwf & Hc).
  pose proof (quiescent_get_model bk w Hq) as Hq1.
  assert (Hrw : ready w = true \/ ready w = false)
    by (destruct (ready w); auto).
  destruct Hrw as [Hrw | Hrw].
  - rewrite get_model_ready by assumption. exact Hs.
  - destruct Hq as (Hl & _ & _).
    pose proof (get_model_unready bk w Hrw Hl) as H.
    destruct (get_model bk w) as [r w1]. cbn [fst snd] in *.
    destruct (load_run_frame _ _ _ _ H) as (_ & _ & evs & Ht & _ & Hne).
    destruct (load_run_counts _ _ _ _ H) as [Hsc _].
    assert (Hnone : forall m texts n, ~ In (EvEncode m texts n) (trace w1)).
    { intros m texts n Hin. rewrite Ht in Hin.
      apply in_app_or in Hin as [Hin | Hin]; [eapply Hne; eassumption |].
      destruct (He _ _ _ Hin) as [Hr _]. congruence. }
    split; [exact Hq1 |]. split; [| split].
    + intros m texts n Hin. exfalso. eapply Hnone. eassumption.
    + apply no_encode_well_formed. intros texts m n. apply Hnone.
    + rewrite Hsc, Hc, Hrw. destruct r as [v|e|].
      * destruct (load_run_returned _ _ _ _ H) as (_ & _ & _ & _ & -> & _).
        reflexivity.
      * destruct (load_run_raised _ _ _ _ H) as (_ & -> & _). reflexivity.
      * exfalso. eapply load_run_not_blocked; eassumption.
Qed.

Lemma settled_record_encode (m : SentenceTransformer) (a b : string) (w : World) :
  py_not a || py_not b = false ->
  ready w = true -> _model w = Some m ->
  settled w -> settled (record_event (EvEncode m [a; b] true) w).
Proof.
  intros Hab Hr Hm (Hq & He & Hwf & Hc).
  apply orb_false_iff in Hab as [Ha Hb].
  apply py_not_false in Ha. apply py_not_false in Hb.
  split; [apply quiescent_record_event; [discriminate | assumption] |].
  split; [| split].
  - intros m' texts n [Heq | Hin].
    + injection Heq as <- _ _. auto.
    + apply (He _ _ _ Hin).
  - constructor; [| exact Hwf]. cbn. split; [reflexivity |]. eauto.
  - exact Hc.
Qed.

Lemma settled_record_error (e : Exception) (w : World) :
  settled w -> settled (record_event (EvLog (ERROR_failed_to_calculate e)) w).
Proof.
  intros (Hq & He & Hwf & Hc).
  split; [apply quiescent_record_event; [discriminate | assumption] |].
  split; [| split].
  - intros m' texts n [Heq | Hin]; [discriminate |]. apply (He _ _ _ Hin).
  - constructor; [exact I | exact Hwf].
  - exact Hc.
Qed.

Lemma settled_swallow (r : reply Q) (w : World) :
  settled w -> settled (snd (swallow r w)).
Proof.
  intros H. destruct r; cbn [swallow snd]; [assumption |].
  apply settled_record_error. assumption.
Qed.

Lemma settled_calculate_similarity (bk : Backend) (a b : string) (w : World) :
  settled w -> settled (snd (calculate_similarity bk a b w)).
Proof.
  intros Hs. destruct (py_not a || py_not b) eqn:Hab.
  - rewrite calculate_similarity_empty by assumption. assumption.
  - pose proof (settled_get_model bk w Hs) as Hs1.
    destruct (get_model bk w) as [[[m|]|e|] w1] eqn:Hg; cbn [snd] in Hs1.
    + rewrite (calculate_similarity_with_model _ _ _ _ _ _ Hab Hg).
      destruct (get_model_returned _ _ _ _ Hg) as (Hr & Hm & _).
      apply settled_swallow, settled_record_encode; assumption.
    + rewrite (calculate_similarity_no_object _ _ _ _ _ Hab Hg).
      apply settled_record_error. assumption.
    + rewrite (calculate_similarity_load_raised _ _ _ _ _ _ Hab Hg).
      apply settled_record_error. assumption.
    + rewrite (calculate_similarity_blocked _ _ _ _ _ Hab Hg). assumption.
Qed.

Lemma settled_perform (bk : Backend) (c : ApiCall) (w : World) :
  settled w -> settled (perform bk c w).
Proof.
  intros Hs. destruct c; cbn [perform].
  - apply settled_get_model; assumption.
  - apply settled_calculate_similarity; assumption.
  - pose proof (settled_calculate_similarity bk text1 text2 w Hs)
      as (_ & He & Hwf & Hc).
    pose proof Hs as (Hq & _).
    pose proof (quiescent_calculate_similarity_async bk text1 text2 w Hq) as Hq1.
    destruct Hq as (_ & Hp & _).
    rewrite calculate_similarity_async_idle in * by assumption.
    cbn [snd] in *. split; [exact Hq1 |]. split; [exact He |].
    split; [exact Hwf | exact Hc].
  - rewrite is_ready_eq. assumption.
Qed.

Lemma settled_run_calls (bk : Backend) (cs : list ApiCall) (w : World) :
  settled w -> settled (run_calls bk cs w).
Proof.
  revert w. induction cs as [|c cs IH]; intros w Hs; [assumption |].
  cbn [run_calls fold_left]. apply IH, settled_perform, Hs.
Qed.

(** X2.  In every run of public calls from the initial state, each call
    to [encode] was made with [normalize_embeddings=True] on a batch of
    exactly two non-empty texts, on the very object the manager holds, and
    the manager was loaded: nothing is ever encoded on an object whose
    load did not complete. *)
Theorem encode_only_on_the_loaded_model (bk : Backend) (calls : list ApiCall) :
  Forall well_formed_encode (trace (run_calls bk calls fresh_world)) /\
  encoded_on_loaded_model (run_calls bk calls fresh_world).
Proof.
  destruct (settled_run_calls bk calls fresh_world settled_fresh)
    as (_ & He & Hwf & _).
  split; assumption.
Qed.

Lemma perform_load_count (bk : Backend) (c : ApiCall) (w : World) :
  settled w -> load_count (perform bk c w) <= S (load_count w).
Proof.
  intros Hs.
  assert (Hg : load_count (snd (get_model bk w)) <= S (load_count w)).
  { destruct (ready w) eqn:Hr; [rewrite get_model_ready by assumption; cbn; lia |].
    destruct Hs as ((Hl & _) & _).
    pose proof (get_model_unready bk w Hr Hl) as H.
    destruct (load_run_counts _ _ _ _ H) as [_ Hc]. lia. }
  assert (Hcalc : forall a b,
             load_count (snd (calculate_similarity bk a b w))
               <= S (load_count w)).
  { intros a b. destruct (py_not a || py_not b) eqn:Hab.
    - rewrite calculate_similarity_empty by assumption. cbn. lia.
    - destruct (get_model bk w) as [[[m|]|e|] w1] eqn:Hgm; cbn [snd] in Hg.
      + rewrite (calculate_similarity_with_model _ _ _ _ _ _ Hab Hgm).
        destruct (match model_encode bk (now w1) m [a; b] true with
                  | Ok rows => score_of_rows rows
                  | Fails e => Fails e
                  end); exact Hg.
      + rewrite (calculate_similarity_no_object _ _ _ _ _ Hab Hgm). exact Hg.
      + rewrite (calculate_similarity_load_raised _ _ _ _ _ _ Hab Hgm).
        exact Hg.
      + rewrite (calculate_similarity_blocked _ _ _ _ _ Hab Hgm). exact Hg. }
  destruct c; cbn [perform].
  - exact Hg.
  - apply Hcalc.
  - destruct Hs as ((_ & Hp & _) & _).
    rewrite calculate_similarity_async_idle by assumption. apply Hcalc.
  - rewrite is_ready_eq. cbn. lia.
Qed.

Lemma run_calls_load_count (bk : Backend) (cs : list ApiCall) (w : World) :
  settled w -> load_count (run_calls bk cs w) <= length cs + load_count w.
Proof.
  revert w. induction cs as [|c cs IH]; intros w Hs; [cbn; lia |].
  cbn [run_calls fold_left length].
  pose proof (perform_load_count bk c w Hs).
  pose proof (IH (perform bk c w) (settled_perform bk c w Hs)).
  unfold run_calls in *. lia.
Qed.

(** X3.  In every run of public calls from the initial state, at most one
    load ever completes; [is_ready()] answers true exactly when one has;
    and the constructor of the model is entered at most once per call
    made, however many loads fail. *)
Theorem at_most_one_load_completes (bk : Backend) (calls : list ApiCall) :
  success_count (run_calls bk calls fresh_world) <= 1 /\
  (success_count (run_calls bk calls fresh_world) = 1 <->
   fst (is_ready (run_calls bk calls fresh_world)) = Returned true) /\
  load_count (run_calls bk calls fresh_world) <= length calls.
Proof.
  pose proof (settled_run_calls bk calls fresh_world settled_fresh)
    as (_ & _ & _ & Hc).
  pose proof (run_calls_load_count bk calls fresh_world settled_fresh) as Hl.
  rewrite is_ready_eq, Hc. cbn [fst].
  change (load_count fresh_world) with 0 in Hl.
  destruct (ready (run_calls bk calls fresh_world));
    (split; [lia |]); (split; [| lia]); split; congruence.
Qed.

Lemma float32_similarity_load_raised (bk : Float32.Backend32) (a b : string)
      (w w1 : World) (e : Exception) :
  py_not a || py_not b = false ->
  get_model (Float32.loader bk) w = (Raised e, w1) ->
  Float32.calculate_similarity bk a b w =
    (Returned (Finite 0), record_event (EvLog (ERROR_failed_to_calculate e)) w1).
Proof.
  intros H Hg. unfold Float32.calculate_similarity,
    Float32._calculate_similarity_sync, try_except, Float32.similarity_attempt,
    with_fresh_lock, bind.
  rewrite H, Hg. reflexivity.
Qed.

(** With the model at hand the call returns the float32 dot product of
    the first two rows, or logs the error and returns 0.0. *)
Lemma float32_similarity_with_model (bk : Float32.Backend32) (a b : string)
      (w w1 : World) (m : SentenceTransformer) :
  py_not a || py_not b = false ->
  get_model (Float32.loader bk) w = (Returned (Some m), w1) ->
  (exists e,
      Float32.calculate_similarity bk a b w =
        (Returned (Finite 0),
         record_event (EvLog (ERROR_failed_to_calculate e))
           (record_event (EvEncode m [a; b] true) w1))) \/
  (exists row0 row1 rest,
      Float32.model_encode32 bk (now w1) m [a; b] true
        = Ok (row0 :: row1 :: rest) /\
      length row0 = length row1 /\
      Float32.calculate_similarity bk a b w =
        (Returned (Float32.dot row0 row1),
         record_event (EvEncode m [a; b] true) w1)).
Proof.
  intros H Hg.
  destruct (Float32.model_encode32 bk (now w1) m [a; b] true)
    as [[|row0 [|row1 rest]]|e] eqn:He.
  1, 2, 4: left; eexists; unfold Float32.calculate_similarity,
    Float32._calculate_similarity_sync, try_except, Float32.similarity_attempt,
    with_fresh_lock, bind; rewrite H, Hg; unfold Float32.encode, call;
    rewrite He; reflexivity.
  destruct (Nat.eqb (length row0) (length row1)) eqn:Hlen.
  - right. apply Nat.eqb_eq in Hlen. exists row0, row1, rest.
    split; [reflexivity |]. split; [exact Hlen |].
    eapply float32_similarity_with_rows; eassumption.
  - left. eexists. unfold Float32.calculate_similarity,
      Float32._calculate_similarity_sync, try_except,
      Float32.similarity_attempt, with_fresh_lock, bind.
    rewrite H, Hg. unfold Float32.encode, call. rewrite He. cbn.
    unfold Float32.np_dot. rewrite Hlen. reflexivity.
Qed.

(** X4.  With a backend whose float32 rows have [n] components and are
    unit up to [eps], and the lock free, [calculate_similarity] returns,
    for all texts and in every state, a finite score of magnitude at most
    [1 + eps + n * 2^-21], whether the load or the encoding works or not,
    and leaves the lock free. *)
Theorem float32_score_is_nearly_a_cosine
        (bk : Float32.Backend32) (n : nat) (eps : Q) (a b : string)
        (w : World) :
  normalizing bk n eps -> (Z.of_nat n <= 2097152)%Z ->
  (0 <= eps <= 1)%Q -> _lock w = false ->
  exists q w',
    Float32.calculate_similarity bk a b w = (Returned (Finite q), w') /\
    (Qabs q <= 1 + eps + inject_Z (Z.of_nat n) * (1 # 2097152))%Q /\
    _lock w' = false.
Proof.
  intros Hn Hsize [Heps0 Heps1] Hl.
  assert (Hn0 : (0 <= inject_Z (Z.of_nat n))%Q).
  { change 0%Q with (inject_Z 0). rewrite <- Zle_Qle. lia. }
  assert (Hzero : (Qabs 0 <= 1 + eps + inject_Z (Z.of_nat n) * (1 # 2097152))%Q).
  { change (Qabs 0) with 0%Q. lra. }
  destruct (py_not a || py_not b) eqn:Hab.
  - rewrite float32_similarity_empty by assumption.
    exists 0%Q, w. auto.
  - destruct (get_model_returns_or_raises (Float32.loader bk) w Hl)
      as [(m & w1 & Hg & _ & Hl1) | (e & w1 & Hg & _ & Hl1)].
    + destruct (float32_similarity_with_model bk a b w w1 m Hab Hg)
        as [(e & ->) | (row0 & row1 & rest & He & Hlen & ->)].
      * eexists _, _. split; [reflexivity |]. split; [exact Hzero | exact Hl1].
      * pose proof (Hn _ _ _ _ He) as Hrows.
        apply List.Forall_cons_iff in Hrows
          as [(u & -> & Hu & Hun) Hrest].
        apply List.Forall_cons_iff in Hrest as [(v & -> & Hv & Hvn) _].
        assert (Huv : length u = length v) by congruence.
        assert (Hsz : (Z.of_nat (length u) <= 2097152)%Z)
          by (rewrite Hu; exact Hsize).
        destruct (float32_dot_error u v eps Huv Hsz Hun Hvn Heps1)
          as (q & Hq & _ & _ & Hb).
        rewrite Hq. exists q. eexists. split; [reflexivity |].
        rewrite Hu in Hb. split; [exact Hb | exact Hl1].
    + rewrite (float32_similarity_load_raised _ _ _ _ _ _ Hab Hg).
      eexists _, _. split; [reflexivity |]. split; [exact Hzero | exact Hl1].
Qed.

Lemma float32_backend_normalizing :
  normalizing float32_backend 2 (1 # 16777216).
Proof.
  intros t m texts rows [= <-]. apply List.Forall_forall.
  intros row Hin. apply in_map_iff in Hin as (text & <- & _).
  exists unit_row_2_3. split; [reflexivity |]. split; [reflexivity |].
  vm_compute. discriminate.
Qed.

Lemma float32_score_is_nearly_a_cosine_witness :
  exists q w',
    Float32.calculate_similarity float32_backend "ab" "abcd" fresh_world
      = (Returned (Finite q), w') /\
    (Qabs q <= 1 + (1 # 16777216) + inject_Z (Z.of_nat 2) * (1 # 2097152))%Q /\
    _lock w' = false.
Proof.
  apply (float32_score_is_nearly_a_cosine float32_backend 2 (1 # 16777216)
           "ab" "abcd" fresh_world).
  - exact float32_backend_normalizing.
  - cbn. lia.
  - split; vm_compute; discriminate.
  - reflexivity.
Defined.

(** X5.  When the backend answers the batch with fewer than two rows, or
    with two rows of different lengths, the indexing or [np.dot] raises
    inside the [try]: the call logs [IndexError], respectively
    [ValueError], and returns exactly 0. *)
Theorem malformed_rows_score_zero
        (bk : Backend) (a b : string) (w w1 : World)
        (m : SentenceTransformer) (rows : list Embedding) :
  a <> ""%string -> b <> ""%string ->
  get_model bk w = (Returned (Some m), w1) ->
  model_encode bk (now w1) m [a; b] true = Ok rows ->
  (length rows < 2 \/
   exists row0 row1 rest,
     rows = row0 :: row1 :: rest /\ length row0 <> length row1) ->
  exists e,
    (length rows < 2 /\ e = IndexError \/ 2 <= length rows /\ e = ValueError) /\
    calculate_similarity bk a b w
      = (Returned 0%Q,
         record_event (EvLog (ERROR_failed_to_calculate e))
           (record_event (EvEncode m [a; b] true) w1)).
Proof.
  intros Ha Hb Hg He Hbad.
  apply py_not_false in Ha. apply py_not_false in Hb.
  assert (Hab : py_not a || py_not b = false) by (rewrite Ha, Hb; reflexivity).
  rewrite (calculate_similarity_with_model _ _ _ _ _ _ Hab Hg), He.
  destruct Hbad as [Hshort | (row0 & row1 & rest & -> & Hne)].
  - exists IndexError. split; [left; auto |].
    destruct rows as [|row0 [|row1 rows]]; cbn in Hshort; try lia;
      reflexivity.
  - exists ValueError. split; [right; cbn; split; [lia | reflexivity] |].
    cbn [score_of_rows]. apply Nat.eqb_neq in Hne. rewrite Hne. reflexivity.
Qed.

Lemma malformed_rows_score_zero_witness :
  exists e,
    (length [[1; 0]%Q] < 2 /\ e = IndexError \/
     2 <= length [[1; 0]%Q] /\ e = ValueError) /\
    calculate_similarity short_batch_backend "cv" "job" fresh_world
      = (Returned 0%Q,
         record_event (EvLog (ERROR_failed_to_calculate e))
           (record_event (EvEncode (ModelObject 3) ["cv"; "job"]%string true)
              (snd (get_model short_batch_backend fresh_world)))).
Proof.
  apply (malformed_rows_score_zero short_batch_backend "cv" "job" fresh_world
           (snd (get_model short_batch_backend fresh_world)) (ModelObject 3)
           [[1; 0]%Q]).
  - discriminate.
  - discriminate.
  - reflexivity.
  - reflexivity.
  - left. cbn. lia.
Defined.

(** X6.  Called with the lock free, [get_model] never waits: it returns
    an object, with the manager ready, or it raises, with the manager not
    ready; either way [self._lock] is free again when it is left, so a
    failed load does not wedge later callers. *)
Theorem get_model_releases_the_lock (bk : Backend) (w : World) :
  _lock w = false ->
  fst (get_model bk w) <> Blocked /\
  _lock (snd (get_model bk w)) = false /\
  ((exists m, fst (get_model bk w) = Returned (Some m)) <->
   fst (is_ready (snd (get_model bk w))) = Returned true) /\
  ((exists e, fst (get_model bk w) = Raised e) <->
   fst (is_ready (snd (get_model bk w))) = Returned false).
Proof.
  intros Hl.
  destruct (get_model_returns_or_raises bk w Hl)
    as [(m & w1 & Hg & Hr & Hl1) | (e & w1 & Hg & Hr & Hl1)];
    rewrite Hg; cbn [fst snd]; rewrite is_ready_eq, Hr; cbn [fst].
  - split; [discriminate |]. split; [assumption |]. split; split; eauto.
    + intros [e [=]].
    + discriminate.
  - split; [discriminate |]. split; [assumption |]. split; split; eauto.
    + intros [m [=]].
    + discriminate.
Qed.

Lemma get_model_releases_the_lock_witness :
  fst (get_model eval_fault_backend fresh_world) <> Blocked /\
  _lock (snd (get_model eval_fault_backend fresh_world)) = false /\
  ((exists m, fst (get_model eval_fault_backend fresh_world) = Returned (Some m))
   <-> fst (is_ready (snd (get_model eval_fault_backend fresh_world)))
       = Returned true) /\
  ((exists e, fst (get_model eval_fault_backend fresh_world) = Raised e)
   <-> fst (is_ready (snd (get_model eval_fault_backend fresh_world)))
       = Returned false).
Proof.
  apply (get_model_releases_the_lock eval_fault_backend fresh_world).
  reflexivity.
Defined.

(** ** Concurrent callers, whatever the backend answers *)

Lemma pc_safe_same_view (w w' : World) (q : pc) :
  _model_loaded w' = _model_loaded w -> _model w' = _model w ->
  success_count w' = success_count w ->
  pc_safe w q -> pc_safe w' q.
Proof.
  intros Hl Hm Hc. unfold pc_safe, ready. rewrite Hl, Hm, Hc.
  destruct q; tauto.
Qed.

Lemma pc_safe_outside_unloaded (w w' : World) (q : pc) :
  in_critical_section q = false -> _model_loaded w = false ->
  pc_safe w q -> pc_safe w' q.
Proof.
  intros Hq Hl. unfold pc_safe, ready. rewrite Hl.
  destruct q; cbn in Hq; try discriminate; cbn; intuition congruence.
Qed.

Lemma pc_safe_outside_events (w w' : World) (q : pc) :
  in_critical_section q = false ->
  _model_loaded w' = _model_loaded w -> _model w' = _model w ->
  pc_safe w q -> pc_safe w' q.
Proof.
  intros Hq Hl Hm. unfold pc_safe, ready. rewrite Hl, Hm.
  destruct q; cbn in Hq; try discriminate; tauto.
Qed.

Ltac safe_crush Hml Hmo :=
  unfold pc_safe, ready, success_count, load_count in *;
  cbn in *; rewrite ?Hml, ?Hmo in *; cbn in *;
  repeat match goal with
         | H : _ /\ _ |- _ => destruct H
         | H : exists _, _ |- _ => destruct H
         end;
  try discriminate;
  try solve [intuition (eauto; try congruence; try lia)].

(** What one step does, whatever the backend answers. *)
Lemma thread_step_safe (bk : Backend) (p p' : pc) (w w' : World) :
  thread_step bk p w = Some (p', w') ->
  pc_safe w p ->
  (_model_loaded w = true -> exists m, _model w = Some m) ->
  (_lock w = false -> success_count w = (if ready w then 1 else 0)) ->
  (in_critical_section p = true -> _lock w = true) ->
  ((in_critical_section p' = in_critical_section p /\ _lock w' = _lock w) \/
   (in_critical_section p = false /\ in_critical_section p' = true /\
    _lock w = false /\ _lock w' = true) \/
   (in_critical_section p = true /\ in_critical_section p' = false /\
    _lock w' = false)) /\
  pc_safe w' p' /\
  (_model_loaded w' = true -> exists m, _model w' = Some m) /\
  (_lock w' = false -> success_count w' = (if ready w' then 1 else 0)) /\
  (forall q, (in_critical_section p = true -> in_critical_section q = false) ->
             pc_safe w q -> pc_safe w' q) /\
  (ready w = true ->
   _model w' = _model w /\ ready w' = true /\ load_count w' = load_count w).
Proof.
  intros Hstep Hp G1 G2 Hk.
  destruct p; cbn [thread_step] in Hstep;
    repeat match type of Hstep with
           | context [if ?b then _ else _] => destruct b eqn:?
           | context [match _model w with Some _ => _ | None => _ end] =>
               destruct (_model w) as [obj|] eqn:?
           | context [match ?r with Ok _ => _ | Fails _ => _ end] =>
               destruct r eqn:?
           end;
    try discriminate; injection Hstep as <- <-;
    cbn [in_critical_section] in *.
  all: destruct (_model_loaded w) eqn:Hml; destruct (_model w) as [mo|] eqn:Hmo.
  all: try (exfalso; destruct (G1 eq_refl) as [? ?]; discriminate).
  all: try discriminate.
  all: try solve [exfalso; safe_crush Hml Hmo].
  all: (split; [cbn; tauto |]).
  all: (split; [safe_crush Hml Hmo |]).
  all: (split; [safe_crush Hml Hmo |]).
  all: (split; [safe_crush Hml Hmo |]).
  all: (split; [| safe_crush Hml Hmo]).
  all: intros q Hcs Hq.
  all: try (eapply pc_safe_same_view; [| | | exact Hq]; reflexivity).
  all: try (eapply pc_safe_outside_unloaded;
            [apply Hcs; reflexivity | | exact Hq];
            first [exact Hml | unfold pc_safe in Hp; tauto]).
  all: try (eapply pc_safe_outside_events;
            [apply Hcs; reflexivity | | | exact Hq]; reflexivity).
Qed.

Lemma sched_step_safe (bk : Backend) (c : Config) (i : nat) :
  config_safe c ->
  config_safe (sched_step bk c i) /\
  (ready (shared c) = true ->
   _model (shared (sched_step bk c i)) = _model (shared c) /\
   ready (shared (sched_step bk c i)) = true /\
   load_count (shared (sched_step bk c i)) = load_count (shared c)).
Proof.
  intros Hinv. unfold sched_step.
  destruct (threads c !! i) as [p|] eqn:Hi; [| auto].
  destruct (thread_step bk p (shared c)) as [[p' w']|] eqn:Hstep; [| auto].
  destruct Hinv as [G1 G2 Gm Gh Gk Gt].
  destruct (thread_step_safe bk p p' (shared c) w' Hstep (Gt i p Hi) G1 G2
              (Gk i p Hi)) as (HA & HB & HC & HD & HE & HF).
  split; [| exact HF].
  split; cbn [threads shared].
  - exact HC.
  - exact HD.
  - intros a b pa pb Ha Hb Hpa Hpb.
    apply list_lookup_insert_Some in Ha, Hb.
    destruct Ha as [(<- & <- & _) | (Hne & Ha)];
      destruct Hb as [(<- & <- & _) | (Hne' & Hb)]; trivial.
    + destruct HA as [[Hcs _] | [(_ & _ & Hl & _) | (_ & Hcs & _)]].
      * apply (Gm i b p pb); congruence.
      * rewrite (Gk b pb Hb Hpb) in Hl. discriminate.
      * congruence.
    + destruct HA as [[Hcs _] | [(_ & _ & Hl & _) | (_ & Hcs & _)]].
      * apply (Gm a i pa p); congruence.
      * rewrite (Gk a pa Ha Hpa) in Hl. discriminate.
      * congruence.
    + apply (Gm a b pa pb); assumption.
  - intros Hl'.
    destruct HA as [[Hcs Hl] | [(_ & Hcs & _) | (_ & _ & Hl)]].
    + rewrite Hl in Hl'. destruct (Gh Hl') as (j & q & Hj & Hq).
      destruct (decide (i = j)) as [<- | Hne].
      * exists i, p'. split; [| congruence].
        apply list_lookup_insert_eq. eapply lookup_lt_Some; eassumption.
      * exists j, q. rewrite list_lookup_insert_ne by assumption. auto.
    + exists i, p'. split; [| assumption].
      apply list_lookup_insert_eq. eapply lookup_lt_Some; eassumption.
    + congruence.
  - intros a pa Ha Hpa. apply list_lookup_insert_Some in Ha.
    destruct Ha as [(<- & <- & _) | (Hne & Ha)].
    + destruct HA as [[Hcs Hl] | [(_ & _ & _ & Hl) | (_ & Hcs & _)]].
      * rewrite Hl. apply (Gk i p Hi). congruence.
      * assumption.
      * congruence.
    + pose proof (Gk a pa Ha Hpa) as Hl.
      destruct HA as [[_ Hl'] | [(_ & _ & Hl' & _) | (Hcs & _ & _)]].
      * congruence.
      * congruence.
      * exfalso. apply Hne. apply (Gm i a p pa); assumption.
  - intros a pa Ha. apply list_lookup_insert_Some in Ha.
    destruct Ha as [(<- & <- & _) | (Hne & Ha)]; [exact HB |].
    apply HE; [| apply (Gt a pa Ha)].
    intros Hcs. destruct (in_critical_section pa) eqn:Hpa; [| reflexivity].
    exfalso. apply Hne. apply (Gm i a p pa); assumption.
Qed.

Lemma run_schedule_safe (bk : Backend) (sched : list nat) (c : Config) :
  config_safe c -> config_safe (run_schedule bk sched c).
Proof.
  revert c. induction sched as [|i sched IH]; intros c Hinv; [assumption |].
  cbn [run_schedule fold_left]. apply IH, sched_step_safe; assumption.
Qed.

Lemma run_schedule_keeps_model (bk : Backend) (sched : list nat) (c : Config) :
  config_safe c -> ready (shared c) = true ->
  _model (shared (run_schedule bk sched c)) = _model (shared c) /\
  ready (shared (run_schedule bk sched c)) = true /\
  load_count (shared (run_schedule bk sched c)) = load_count (shared c).
Proof.
  revert c. induction sched as [|i sched IH]; intros c Hinv Hr; [auto |].
  cbn [run_schedule fold_left].
  destruct (sched_step_safe bk c i Hinv) as [Hinv' Hkeep].
  destruct (Hkeep Hr) as (Hm & Hr' & Hc).
  destruct (IH _ Hinv' Hr') as (Hm2 & Hr2 & Hc2).
  unfold run_schedule in *. repeat split; congruence.
Qed.

Lemma concurrent_get_model_safe (N : nat) :
  config_safe (concurrent_get_model N fresh_world).
Proof.
  split; cbn [concurrent_get_model threads shared].
  - discriminate.
  - reflexivity.
  - intros i j p q Hi _ Hp. apply lookup_replicate in Hi as [-> _].
    discriminate.
  - discriminate.
  - intros i p Hi Hp. apply lookup_replicate in Hi as [-> _]. discriminate.
  - intros i p Hi. apply lookup_replicate in Hi as [-> _]. exact I.
Qed.

Lemma run_schedule_app (bk : Backend) (s1 s2 : list nat) (c : Config) :
  run_schedule bk (s1 ++ s2) c = run_schedule bk s2 (run_schedule bk s1 c).
Proof. unfold run_schedule. apply fold_left_app. Qed.


Lemma config_safe_success_count (c : Config) :
  config_safe c -> success_count (shared c) <= 1.
Proof.
  intros Hinv. destruct (_lock (shared c)) eqn:Hk.
  - destruct (safe_holder c Hinv Hk) as (j & q & Hj & Hq).
    pose proof (safe_threads c Hinv j q Hj) as Hpc.
    destruct q; cbn in Hq; try discriminate; cbn in Hpc;
      try (destruct (ready (shared c))); intuition lia.
  - rewrite (safe_unlocked c Hinv Hk). destruct (ready (shared c)); lia.
Qed.

(** X7.  Whatever the backend answers and however the threads are
    scheduled, at most one caller at a time is between the acquisition of
    [self._lock] on line 43 and its release, and the lock is held exactly
    when some caller is there: lines 44-74 never run twice at once. *)
Theorem load_section_is_exclusive
        (bk : Backend) (N : nat) (sched : list nat) :
  let c := run_schedule bk sched (concurrent_get_model N fresh_world) in
  (forall i j p q,
      threads c !! i = Some p -> threads c !! j = Some q ->
      in_critical_section p = true -> in_critical_section q = true ->
      i = j) /\
  (_lock (shared c) = true <->
   exists i p, threads c !! i = Some p /\ in_critical_section p = true).
Proof.
  intros c.
  assert (Hinv : config_safe c)
    by (apply run_schedule_safe, concurrent_get_model_safe).
  split; [exact (safe_mutex c Hinv) |]. split.
  - exact (safe_holder c Hinv).
  - intros (i & p & Hi & Hp). exact (safe_held c Hinv i p Hi Hp).
Qed.

(** X8.  Whatever the backend answers, under every schedule: at most one
    load ever completes; every caller that has returned holds the object
    that is in [_model], so any two of them hold the same one; and from
    the moment the manager is ready, no continuation of the run changes
    [_model], makes the manager not ready, or enters the constructor
    again. *)
Theorem callers_agree_whatever_the_backend
        (bk : Backend) (N : nat) (sched : list nat) :
  let c := run_schedule bk sched (concurrent_get_model N fresh_world) in
  success_count (shared c) <= 1 /\
  (forall i v,
      threads c !! i = Some (Returned_model v) ->
      exists m, v = Some m /\ _model (shared c) = Some m) /\
  (forall rest,
      ready (shared c) = true ->
      _model (shared (run_schedule bk rest c)) = _model (shared c) /\
      ready (shared (run_schedule bk rest c)) = true /\
      load_count (shared (run_schedule bk rest c)) = load_count (shared c)).
Proof.
  intros c.
  assert (Hinv : config_safe c)
    by (apply run_schedule_safe, concurrent_get_model_safe).
  split; [apply config_safe_success_count; exact Hinv |]. split.
  - intros i v Hi. pose proof (safe_threads c Hinv i _ Hi) as [Hr ->].
    apply ready_true in Hr as [_ [m Hm]]. eauto.
  - intros rest Hr. apply run_schedule_keeps_model; assumption.
Qed.

Lemma completes_with (bk : Backend) (I : Config -> Prop) :
  (forall c i, I c -> I (sched_step bk c i)) ->
  (forall c i p,
      I c -> threads c !! i = Some p -> finished p = false ->
      exists j q q' w',
        threads c !! j = Some q /\
        thread_step bk q (shared c) = Some (q', w')) ->
  forall n c,
    total_rank c <= n -> I c ->
    exists rest, forallb finished (threads (run_schedule bk rest c)) = true.
Proof.
  intros Hstep Hprog. induction n as [|n IH]; intros c Hn Hinv;
    (destruct (forallb finished (threads c)) eqn:Hall;
     [exists []; assumption |]);
    apply forallb_false_lookup in Hall as (i & p & Hi & Hf);
    destruct (Hprog c i p Hinv Hi Hf) as (j & q & q' & w' & Hj & Hs);
    pose proof (sched_step_rank bk c j q q' w' Hj Hs) as Hlt; [lia |].
  destruct (IH (sched_step bk c j)) as [rest Hrest]; [lia | auto |].
  exists (j :: rest). exact Hrest.
Qed.

Lemma config_safe_progress (bk : Backend) (c : Config) (i : nat) (p : pc) :
  config_safe c ->
  threads c !! i = Some p -> finished p = false ->
  exists j q q' w',
    threads c !! j = Some q /\ thread_step bk q (shared c) = Some (q', w').
Proof.
  intros Hinv Hi Hf. destruct (_lock (shared c)) eqn:Hl.
  - destruct (safe_holder c Hinv Hl) as (j & q & Hj & Hq).
    apply critical_section_not_waiting in Hq as [Hqf Hqa].
    destruct (thread_step_enabled bk q (shared c) Hqf) as (q' & w' & Hs);
      [congruence |].
    exists j, q, q', w'. auto.
  - destruct (thread_step_enabled bk p (shared c) Hf) as (p' & w' & Hs);
      [auto |].
    exists i, p, p', w'. auto.
Qed.

Lemma moves_bounded_by_rank (bk : Backend) (sched : list nat) (c : Config) :
  moves bk sched c + total_rank (run_schedule bk sched c) <= total_rank c.
Proof.
  revert c. induction sched as [|i sched IH]; intros c; [cbn; lia |].
  cbn [moves run_schedule fold_left].
  destruct (threads c !! i) as [p|] eqn:Hi.
  - destruct (thread_step bk p (shared c)) as [[p' w']|] eqn:Hs.
    + pose proof (sched_step_rank bk c i p p' w' Hi Hs).
      specialize (IH (sched_step bk c i)). unfold run_schedule in *. lia.
    + assert (Hsame : sched_step bk c i = c)
        by (unfold sched_step; rewrite Hi, Hs; reflexivity).
      rewrite Hsame. apply IH.
  - assert (Hsame : sched_step bk c i = c)
      by (unfold sched_step; rewrite Hi; reflexivity).
    rewrite Hsame. apply IH.
Qed.

Lemma total_rank_initial (N : nat) (w : World) :
  total_rank (concurrent_get_model N w) = 30 * N.
Proof.
  unfold total_rank. cbn [concurrent_get_model threads].
  induction N as [|N IH]; [reflexivity |].
  change (replicate (S N) L78_loaded) with (L78_loaded :: replicate N L78_loaded).
  cbn [fold_right rank]. rewrite IH. lia.
Qed.

(** X9.  Whatever the backend answers, no run of [N] concurrent callers
    gets stuck or spins: a schedule makes at most 30 steps per caller, and
    from every point of a run some continuation lets all [N] callers
    finish, each one either with the object that is in [_model] or with
    the exception of a failed load. *)
Theorem every_caller_finishes
        (bk : Backend) (N : nat) (sched : list nat) :
  let c := run_schedule bk sched (concurrent_get_model N fresh_world) in
  moves bk sched (concurrent_get_model N fresh_world) <= 30 * N /\
  exists rest,
    let c' := run_schedule bk rest c in
    forall i, i < N ->
      (exists m, threads c' !! i = Some (Returned_model (Some m)) /\
                 _model (shared c') = Some m) \/
      (exists e, threads c' !! i = Some (Raised_error e)).
Proof.
  intros c. split.
  - pose proof (moves_bounded_by_rank bk sched
                  (concurrent_get_model N fresh_world)) as H.
    rewrite total_rank_initial in H. lia.
  - assert (Hinv : config_safe c)
      by (apply run_schedule_safe, concurrent_get_model_safe).
    destruct (completes_with bk config_safe
                (fun c i H => proj1 (sched_step_safe bk c i H))
                (config_safe_progress bk)
                (total_rank c) c (le_n _) Hinv) as [rest Hrest].
    exists rest. intros c' i Hi.
    assert (Hinv' : config_safe c') by (apply run_schedule_safe; assumption).
    assert (Hlen : length (threads c') = N).
    { unfold c', c. rewrite !run_schedule_length. cbn.
      apply length_replicate. }
    destruct (lookup_lt_is_Some_2 (threads c') i) as [p Hp]; [lia |].
    pose proof (forallb_true_lookup _ _ _ _ Hrest Hp) as Hf.
    pose proof (safe_threads c' Hinv' i p Hp) as Hpc.
    destruct p; cbn in Hf; try discriminate; cbn in Hpc.
    + left. destruct Hpc as [Hr ->].
      apply ready_true in Hr as [_ [m Hm]]. exists m. rewrite <- Hm. auto.
    + right. eauto.
Qed.

(** ** The path that takes no lock *)

Lemma fast_path_step (bk : Backend) (w : World) (p : pc) :
  ready w = true -> on_fast_path w p ->
  (finished p = false ->
   exists p', thread_step bk p w = Some (p', w) /\ on_fast_path w p') /\
  (forall p' w', thread_step bk p w = Some (p', w') ->
                 w' = w /\ on_fast_path w p').
Proof.
  intros Hr Hp. apply ready_true in Hr as [Hl [m Hm]].
  unfold on_fast_path in *.
  destruct Hp as [-> | [-> | [-> | ->]]]; cbn [thread_step finished];
    rewrite ?Hl, ?Hm; cbn [is_None]; split;
    try discriminate;
    try (intros _; eexists; split; [reflexivity | rewrite ?Hm; tauto]);
    try (intros p' w' [= <- <-]; split; [reflexivity | rewrite ?Hm; tauto]).
Qed.

Lemma fast_inv_step (bk : Backend) (w : World) (c : Config) (i : nat) :
  ready w = true -> fast_inv w c -> fast_inv w (sched_step bk c i).
Proof.
  intros Hr [Hw Hp]. unfold sched_step.
  destruct (threads c !! i) as [p|] eqn:Hi; [| split; assumption].
  destruct (thread_step bk p (shared c)) as [[p' w']|] eqn:Hs;
    [| split; assumption].
  rewrite Hw in Hs.
  destruct (fast_path_step bk w p Hr (Hp i p Hi)) as [_ H].
  destruct (H p' w' Hs) as [-> Hp']. split; [reflexivity |].
  cbn [threads]. intros a pa Ha. apply list_lookup_insert_Some in Ha.
  destruct Ha as [(_ & <- & _) | (_ & Ha)]; [exact Hp' | exact (Hp a pa Ha)].
Qed.

Lemma fast_inv_run (bk : Backend) (w : World) (sched : list nat) (c : Config) :
  ready w = true -> fast_inv w c -> fast_inv w (run_schedule bk sched c).
Proof.
  intros Hr. revert c. induction sched as [|i sched IH]; intros c Hinv;
    [assumption |].
  cbn [run_schedule fold_left]. apply IH, fast_inv_step; assumption.
Qed.

Lemma fast_inv_progress (bk : Backend) (w : World) (c : Config) (i : nat)
      (p : pc) :
  ready w = true -> fast_inv w c ->
  threads c !! i = Some p -> finished p = false ->
  exists j q q' w',
    threads c !! j = Some q /\ thread_step bk q (shared c) = Some (q', w').
Proof.
  intros Hr [Hw Hp] Hi Hf.
  destruct (fast_path_step bk w p Hr (Hp i p Hi)) as [H _].
  destruct (H Hf) as (p' & Hs & _).
  exists i, p, p', w. rewrite Hw. auto.
Qed.

Lemma fast_inv_initial (N : nat) (w : World) :
  fast_inv w (concurrent_get_model N w).
Proof.
  split; [reflexivity |]. intros i p Hi.
  apply lookup_replicate in Hi as [-> _]. left. reflexivity.
Qed.

(** X10.  When the manager is ready, [N] concurrent callers of
    [get_model] go through lines 78 and 80 only: under every schedule the
    shared state is left exactly as it was (no lock operation, no call
    into the backend, no log record), whether or not somebody holds the
    lock, and the run can always be continued until every caller has
    returned the object in [_model]. *)
Theorem loaded_model_is_read_without_the_lock
        (bk : Backend) (N : nat) (sched : list nat) (w : World) :
  ready w = true ->
  let c := run_schedule bk sched (concurrent_get_model N w) in
  shared c = w /\
  (forall i p, threads c !! i = Some p -> on_fast_path w p) /\
  exists rest,
    let c' := run_schedule bk rest c in
    shared c' = w /\
    forall i, i < N -> threads c' !! i = Some (Returned_model (_model w)).
Proof.
  intros Hr c.
  assert (Hinv : fast_inv w c)
    by (apply fast_inv_run; [assumption | apply fast_inv_initial]).
  split; [exact (proj1 Hinv) |]. split; [exact (proj2 Hinv) |].
  destruct (completes_with bk (fast_inv w)
              (fun c i H => fast_inv_step bk w c i Hr H)
              (fun c i p H => fast_inv_progress bk w c i p Hr H)
              (total_rank c) c (le_n _) Hinv) as [rest Hrest].
  exists rest. intros c'.
  assert (Hinv' : fast_inv w c') by (apply fast_inv_run; assumption).
  split; [exact (proj1 Hinv') |]. intros i Hi.
  assert (Hlen : length (threads c') = N).
  { unfold c', c. rewrite !run_schedule_length. cbn. apply length_replicate. }
  destruct (lookup_lt_is_Some_2 (threads c') i) as [p Hp]; [lia |].
  pose proof (forallb_true_lookup _ _ _ _ Hrest Hp) as Hf.
  destruct (proj2 Hinv' i p Hp) as [-> | [-> | [-> | ->]]];
    cbn in Hf; try discriminate.
  exact Hp.
Qed.

Lemma loaded_model_is_read_without_the_lock_witness :
  let w := with_lock_held true (snd (get_model healthy_backend fresh_world)) in
  let c := run_schedule no_files_backend [0; 1; 1; 0; 2; 1]
             (concurrent_get_model 3 w) in
  shared c = w /\
  (forall i p, threads c !! i = Some p -> on_fast_path w p) /\
  exists rest,
    let c' := run_schedule no_files_backend rest c in
    shared c' = w /\
    forall i, i < 3 -> threads c' !! i = Some (Returned_model (_model w)).
Proof.
  apply (loaded_model_is_read_without_the_lock no_files_backend 3
           [0; 1; 1; 0; 2; 1]
           (with_lock_held true (snd (get_model healthy_backend fresh_world)))).
  reflexivity.
Defined.

(** ** The singleton *)

Example module_import_state :
  module_imported
  = {| world := fresh_world; _instance := Some 0; _initialized := true;
       has_pool := true; objects_allocated := 1; pools_created := 1;
       init_records := 1 |}.
Proof. reflexivity. Qed.

Lemma construct_again (ps : Process) (a : nat) :
  _instance ps = Some a -> _initialized ps = true ->
  OptimizedAIModelManager ps = (Returned (Some a), ps).
Proof.
  intros Hi Hn. unfold OptimizedAIModelManager, __new__, __init__.
  rewrite Hi. cbn. rewrite Hi, Hn. reflexivity.
Qed.

Lemma construct_times_again (k : nat) (ps : Process) (a : nat) :
  _instance ps = Some a -> _initialized ps = true ->
  construct_times k ps = (replicate k (Returned (Some a)), ps).
Proof.
  intros Hi Hn. induction k as [|k IH]; [reflexivity |].
  cbn [construct_times]. rewrite (construct_again ps a Hi Hn), IH.
  reflexivity.
Qed.

(** X11.  Once the manager exists and is initialized, constructing
    [OptimizedAIModelManager()] any number of times returns the same
    object every time and changes nothing at all: the model stays loaded,
    the pool and its queued work are kept, no second pool is created, and
    the lock is not touched, even if somebody holds it. *)
Theorem manager_is_a_singleton (k : nat) (ps : Process) (a : nat) :
  _instance ps = Some a -> _initialized ps = true ->
  fst (construct_times k ps) = replicate k (Returned (Some a)) /\
  snd (construct_times k ps) = ps.
Proof.
  intros Hi Hn. rewrite (construct_times_again k ps a Hi Hn). split; reflexivity.
Qed.

Lemma manager_is_a_singleton_witness :
  let ps := with_world
              (with_lock_held true
                 (snd (calculate_similarity_async healthy_backend "ab" "abc"
                         fresh_world)))
              module_imported in
  fst (construct_times 3 ps) = replicate 3 (Returned (Some 0)) /\
  snd (construct_times 3 ps) = ps.
Proof.
  apply (manager_is_a_singleton 3
           (with_world
              (with_lock_held true
                 (snd (calculate_similarity_async healthy_backend "ab" "abc"
                         fresh_world)))
              module_imported) 0); reflexivity.
Defined.

(** X12.  Starting before any manager exists, with the lock free, any
    number of constructions allocates exactly one object, runs the body of
    [__init__] exactly once (one pool, one log record), hands that one
    object to every caller, leaves the lock free, and does not touch the
    model attributes. *)
Theorem first_construction_creates_the_only_manager (k : nat) (ps : Process) :
  _instance ps = None -> _initialized ps = false ->
  _lock (world ps) = false ->
  fst (construct_times (S k) ps)
    = replicate (S k) (Returned (Some (objects_allocated ps))) /\
  objects_allocated (snd (construct_times (S k) ps))
    = S (objects_allocated ps) /\
  pools_created (snd (construct_times (S k) ps)) = S (pools_created ps) /\
  init_records (snd (construct_times (S k) ps)) = S (init_records ps) /\
  has_pool (snd (construct_times (S k) ps)) = true /\
  _lock (world (snd (construct_times (S k) ps))) = false /\
  _model (world (snd (construct_times (S k) ps))) = _model (world ps) /\
  _model_loaded (world (snd (construct_times (S k) ps)))
    = _model_loaded (world ps) /\
  trace (world (snd (construct_times (S k) ps))) = trace (world ps).
Proof.
  intros Hi Hn Hl. cbn [construct_times].
  assert (H1 : OptimizedAIModelManager ps
               = (Returned (Some (objects_allocated ps)),
                  snd (OptimizedAIModelManager ps))).
  { unfold OptimizedAIModelManager, __new__, allocate_instance.
    rewrite Hi, Hl. cbn. rewrite Hi. reflexivity. }
  rewrite H1.
  set (ps1 := snd (OptimizedAIModelManager ps)).
  assert (Hps1 : _instance ps1 = Some (objects_allocated ps) /\
                 _initialized ps1 = true /\
                 objects_allocated ps1 = S (objects_allocated ps) /\
                 pools_created ps1 = S (pools_created ps) /\
                 init_records ps1 = S (init_records ps) /\
                 has_pool ps1 = true /\
                 _lock (world ps1) = false /\
                 _model (world ps1) = _model (world ps) /\
                 _model_loaded (world ps1) = _model_loaded (world ps) /\
                 trace (world ps1) = trace (world ps)).
  { unfold ps1, OptimizedAIModelManager, __new__, allocate_instance, __init__.
    rewrite Hi, Hl. cbn. rewrite Hi. cbn. rewrite Hn. cbn. repeat split. }
  destruct Hps1 as (Hi1 & Hn1 & Hrest).
  rewrite (construct_times_again k ps1 _ Hi1 Hn1). cbn [fst snd].
  split; [reflexivity | exact Hrest].
Qed.

Lemma first_construction_creates_the_only_manager_witness :
  fst (construct_times 4 class_defined)
    = replicate 4 (Returned (Some (objects_allocated class_defined))) /\
  objects_allocated (snd (construct_times 4 class_defined))
    = S (objects_allocated class_defined) /\
  pools_created (snd (construct_times 4 class_defined))
    = S (pools_created class_defined) /\
  init_records (snd (construct_times 4 class_defined))
    = S (init_records class_defined) /\
  has_pool (snd (construct_times 4 class_defined)) = true /\
  _lock (world (snd (construct_times 4 class_defined))) = false /\
  _model (world (snd (construct_times 4 class_defined)))
    = _model (world class_defined) /\
  _model_loaded (world (snd (construct_times 4 class_defined)))
    = _model_loaded (world class_defined) /\
  trace (world (snd (construct_times 4 class_defined)))
    = trace (world class_defined).
Proof.
  apply (first_construction_creates_the_only_manager 3 class_defined);
    reflexivity.
Defined.

(** ** The HTTP boundary *)

Lemma round_nearest_even_nonneg (prec emin : Z) (x : Q) :
  (0 <= x)%Q -> (0 <= round_nearest_even prec emin x)%Q.
Proof.
  intros Hx. unfold round_nearest_even.
  destruct (Qeq_bool x 0); [lra |].
  set (e := Z.max (floor_log2 (Qabs x) - (prec - 1)) emin).
  pose proof (pow2_pos e) as Hq.
  assert (Hy : (0 <= x / pow2 e)%Q).
  { apply Qle_shift_div_l; [assumption | lra]. }
  assert (Hhi : (x / pow2 e <= inject_Z (Qfloor (x / pow2 e) + 1))%Q)
    by apply Qlt_le_weak, Qlt_floor.
  destruct (round_half_even_between (x / pow2 e) 0 _ Hy Hhi) as [H _].
  assert (H' : (0 <= inject_Z (round_half_even (x / pow2 e)))%Q)
    by (change 0%Q with (inject_Z 0); rewrite <- Zle_Qle; exact H).
  nra.
Qed.

Lemma py_round2_nonneg (x : Q) : (0 <= x)%Q -> (0 <= py_round2 x)%Q.
Proof.
  intros Hx. unfold py_round2, binary64. apply round_nearest_even_nonneg.
  assert (Hhi : (x * 100 <= inject_Z (Qfloor (x * 100) + 1))%Q)
    by apply Qlt_le_weak, Qlt_floor.
  assert (Hlo : (inject_Z 0 <= x * 100)%Q)
    by (change (inject_Z 0) with 0%Q; lra).
  destruct (round_half_even_between (x * 100) 0 _ Hlo Hhi) as [H _].
  assert (H' : (0 <= inject_Z (round_half_even (x * 100)))%Q)
    by (change 0%Q with (inject_Z 0); rewrite <- Zle_Qle; exact H).
  apply Qle_shift_div_l; lra.
Qed.

Lemma pow2_1075_small : (pow2 (-1075) <= 1 # 9007199254740992)%Q.
Proof. unfold Qle. vm_compute. discriminate. Qed.

(** [round(x, 2)] moves a float of magnitude at most 256 by 0.005 and one
    rounding. *)
Lemma py_round2_error (x : Q) :
  (Qabs x <= 256)%Q ->
  (Qabs (py_round2 x - x) <= (1 # 200) + (1 # 17592186044416))%Q.
Proof.
  intros Hx. unfold py_round2.
  pose proof (round_half_even_error (x * 100)) as He.
  set (k := inject_Z (round_half_even (x * 100))) in *.
  pose proof (binary64_error (k / 100)) as Hb.
  pose proof pow2_1075_small as Heta.
  apply Qabs_Qle_condition in Hx as [Hx1 Hx2].
  apply Qabs_Qle_condition in He as [He1 He2].
  assert (Hk : (Qabs (k / 100) <= 257)%Q).
  { apply Qabs_Qle_condition. unfold Qdiv.
    change (/ 100)%Q with (1 # 100)%Q. split; lra. }
  apply Qabs_Qle_condition in Hb as [Hb1 Hb2].
  apply Qabs_Qle_condition. unfold Qdiv in *.
  change (/ 100)%Q with (1 # 100)%Q in *. split; lra.
Qed.

(** X13.  The [similarity_score] of a body is the raw score times 100 as
    a float, rounded to two decimals: for a raw score of magnitude at most
    2 it is within 0.005, and the two float roundings, of the exact
    percentage; and [processing_time_ms] is not negative when the clock
    did not go back. *)
Theorem similarity_score_is_a_rounded_percentage (q t_start t_end : Q) :
  (Qabs q <= 2)%Q -> (t_start <= t_end)%Q ->
  (Qabs (similarity_score (success_body q t_start t_end) - q * 100)
     <= (1 # 200) + (1 # 8796093022208))%Q /\
  (0 <= processing_time_ms (success_body q t_start t_end))%Q.
Proof.
  intros Hq Ht. cbn [success_body similarity_score processing_time_ms].
  split.
  - unfold float_mul. pose proof (binary64_error (q * 100)) as Hb.
    pose proof pow2_1075_small as Heta.
    apply Qabs_Qle_condition in Hq as [Hq1 Hq2].
    assert (Hq100 : (Qabs (q * 100) <= 200)%Q)
      by (apply Qabs_Qle_condition; split; lra).
    apply Qabs_Qle_condition in Hb as [Hb1 Hb2].
    assert (Hy : (Qabs (binary64 (q * 100)) <= 256)%Q)
      by (apply Qabs_Qle_condition; split; lra).
    pose proof (py_round2_error _ Hy) as Hr.
    apply Qabs_Qle_condition in Hr as [Hr1 Hr2].
    apply Qabs_Qle_condition. split; lra.
  - apply py_round2_nonneg. unfold float_mul, float_sub, binary64.
    apply round_nearest_even_nonneg.
    assert (H : (0 <= round_nearest_even 53 (-1074) (t_end - t_start))%Q)
      by (apply round_nearest_even_nonneg; lra).
    nra.
Qed.

Lemma similarity_score_is_a_rounded_percentage_witness :
  (Qabs (similarity_score (success_body (107 # 4000) (10 # 1) (21 # 2))
         - (107 # 4000) * 100) <= (1 # 200) + (1 # 8796093022208))%Q /\
  (0 <= processing_time_ms (success_body (107 # 4000) (10 # 1) (21 # 2)))%Q.
Proof.
  apply (similarity_score_is_a_rounded_percentage (107 # 4000) (10 # 1)
           (21 # 2)).
  - vm_compute. discriminate.
  - vm_compute. discriminate.
Defined.

Lemma calculate_similarity_ready_returns (bk : Backend) (a b : string)
      (w : World) :
  ready w = true ->
  exists q, fst (calculate_similarity bk a b w) = Returned q.
Proof.
  intros Hr. destruct (py_not a || py_not b) eqn:Hab.
  - rewrite calculate_similarity_empty by assumption. eauto.
  - pose proof (get_model_ready bk w Hr) as Hg.
    apply ready_true in Hr as [_ [m Hm]]. rewrite Hm in Hg.
    rewrite (calculate_similarity_with_model _ _ _ _ _ _ Hab Hg).
    destruct (match model_encode bk (now w) m [a; b] true with
              | Ok rows => score_of_rows rows
              | Fails e => Fails e
              end); cbn [swallow fst]; eauto.
Qed.

(** [load_model], case by case. *)
Lemma load_model_cases (bk : Backend) (w : World) :
  _lock w = false ->
  (exists m w1 q,
      get_model bk w = (Returned (Some m), w1) /\ ready w1 = true /\
      load_model bk w = (Returned q, snd (calculate_similarity bk
                           "test python developer" "python developer position"
                           w1)) /\
      only_similarity_events w1
        (snd (calculate_similarity bk "test python developer"
                "python developer position" w1))) \/
  (exists e w1,
      get_model bk w = (Raised e, w1) /\ ready w1 = false /\
      load_model bk w = (Raised e, w1)).
Proof.
  intros Hl. unfold load_model, bind.
  destruct (get_model_returns_or_raises bk w Hl)
    as [(m & w1 & Hg & Hr & _) | (e & w1 & Hg & Hr & _)]; rewrite Hg.
  - left.
    destruct (calculate_similarity_ready_returns bk "test python developer"
                "python developer position" w1 Hr) as [q Hq].
    exists m, w1, q. split; [reflexivity |]. split; [assumption |].
    split; [| apply calculate_similarity_when_ready; assumption].
    destruct (calculate_similarity bk "test python developer"
                "python developer position" w1) as [r w2].
    cbn [fst snd] in *. subst r. reflexivity.
  - right. exists e, w1. auto.
Qed.

Lemma settled_load_model (bk : Backend) (w : World) :
  settled w -> settled (snd (load_model bk w)).
Proof.
  intros Hs. unfold load_model, bind.
  pose proof (settled_get_model bk w Hs) as Hs1.
  destruct (get_model bk w) as [[v|e|] w1]; cbn [snd] in *; try assumption.
  apply settled_calculate_similarity. assumption.
Qed.

(** X14.  With the lock free, the startup hook always comes back; it sets
    [model_ready] to exactly what [is_ready()] then answers, which is true
    exactly when [get_model()] returned; a load that raises is logged and
    leaves the flag false instead of stopping the service; and the warm-up
    score cannot undo a successful load. *)
Theorem startup_sets_the_flag_to_readiness
        (bk : Backend) (t_start t_end : Q) (app : App) :
  _lock (manager app) = false ->
  exists app',
    startup_event bk t_start t_end app = Some app' /\
    fst (is_ready (manager app')) = Returned (model_ready app') /\
    startup_time app' = Some t_start /\
    ((exists m, fst (get_model bk (manager app)) = Returned (Some m)) <->
     model_ready app' = true) /\
    (forall e,
        fst (get_model bk (manager app)) = Raised e ->
        hd_error (app_log app') = Some (ERROR_failed_to_load_ai_model e)).
Proof.
  intros Hl. unfold startup_event.
  cbn [manager app_logger with_startup_time].
  destruct (load_model_cases bk (manager app) Hl)
    as [(m & w1 & q & Hg & Hr & Hlm & Hev) | (e & w1 & Hg & Hr & Hlm)];
    rewrite Hlm, Hg; cbn [fst].
  - eexists. split; [reflexivity |].
    cbn [manager model_ready startup_time app_logger with_model_ready
           with_manager app_log].
    rewrite is_ready_eq, (only_similarity_events_ready _ _ Hev), Hr.
    repeat split; eauto. intros e [=].
  - eexists. split; [reflexivity |].
    cbn [manager model_ready startup_time app_logger with_model_ready
           with_manager app_log].
    rewrite is_ready_eq, Hr. repeat split.
    + intros [m [=]].
    + discriminate.
    + intros e' [= <-]. reflexivity.
Qed.

Lemma startup_sets_the_flag_to_readiness_witness :
  exists app',
    startup_event no_files_backend 10 12 app_imported = Some app' /\
    fst (is_ready (manager app')) = Returned (model_ready app') /\
    startup_time app' = Some 10%Q /\
    ((exists m,
         fst (get_model no_files_backend (manager app_imported))
           = Returned (Some m)) <->
     model_ready app' = true) /\
    (forall e,
        fst (get_model no_files_backend (manager app_imported)) = Raised e ->
        hd_error (app_log app') = Some (ERROR_failed_to_load_ai_model e)).
Proof.
  apply (startup_sets_the_flag_to_readiness no_files_backend 10 12 app_imported).
  reflexivity.
Defined.

(** *** The gate between the flag and the manager *)

Lemma gate_ok_imported : gate_ok app_imported.
Proof. split; [discriminate | apply settled_fresh]. Qed.

Lemma post_similarity_unready (bk : Backend) (t_start t_end : Q)
      (request : SimilarityRequest) (app : App) :
  model_ready app = false ->
  post_similarity bk t_start t_end request app =
    (HTTPException 503
       (Detail_text
          "AI model is still loading. Please try again in a few seconds."),
     app) /\
  post_similarity_sync bk t_start t_end request app =
    (HTTPException 503 (Detail_text "AI model is still loading."), app).
Proof.
  intros Hf. unfold post_similarity, post_similarity_sync. rewrite Hf.
  split; reflexivity.
Qed.

Lemma post_similarity_ready (bk : Backend) (t_start t_end : Q)
      (request : SimilarityRequest) (app : App) :
  model_ready app = true -> ready (manager app) = true ->
  pool_idle (manager app) ->
  exists q,
    fst (calculate_similarity bk (cv_text request) (job_text request)
           (manager app)) = Returned q /\
    post_similarity bk t_start t_end request app =
      (Responded (success_body q t_start t_end),
       with_manager
         (snd (calculate_similarity_async bk (cv_text request)
                 (job_text request) (manager app))) app) /\
    post_similarity_sync bk t_start t_end request app =
      (Responded (success_body q t_start t_end),
       with_manager
         (snd (calculate_similarity bk (cv_text request) (job_text request)
                 (manager app))) app).
Proof.
  intros Hf Hr Hi.
  destruct (calculate_similarity_ready_returns bk (cv_text request)
              (job_text request) (manager app) Hr) as [q Hq].
  exists q. split; [assumption |].
  unfold post_similarity, post_similarity_sync. rewrite Hf. cbn [negb].
  rewrite (calculate_similarity_async_idle bk _ _ _ Hi).
  destruct (calculate_similarity bk (cv_text request) (job_text request)
              (manager app)) as [r w2].
  cbn [fst snd] in *. subst r. split; reflexivity.
Qed.

Lemma async_only_similarity_events (bk : Backend) (a b : string) (w : World) :
  ready w = true -> pool_idle w ->
  only_similarity_events w (snd (calculate_similarity_async bk a b w)).
Proof.
  intros Hr Hi. rewrite (calculate_similarity_async_idle bk _ _ _ Hi).
  cbn [snd]. apply only_similarity_events_executor.
  apply calculate_similarity_when_ready. assumption.
Qed.

Lemma gate_ok_startup (bk : Backend) (t_start t_end : Q) (app : App) :
  gate_ok app ->
  gate_ok (serve bk (Startup t_start t_end) app) /\
  load_count (manager (serve bk (Startup t_start t_end) app))
    <= S (load_count (manager app)).
Proof.
  intros [Hf Hs]. pose proof Hs as ((Hl & _) & _).
  cbn [serve]. unfold startup_event.
  cbn [manager app_logger with_startup_time].
  pose proof (settled_load_model bk (manager app) Hs) as Hs2.
  pose proof (perform_load_count bk Do_get_model (manager app) Hs) as Hc.
  cbn [perform] in Hc.
  destruct (load_model_cases bk (manager app) Hl)
    as [(m & w1 & q & Hg & Hr & Hlm & Hev) | (e & w1 & Hg & Hr & Hlm)];
    rewrite Hlm in *; rewrite Hg in Hc; cbn [snd] in *; unfold gate_ok;
    cbn [manager model_ready app_logger with_model_ready with_manager].
  - split; [split |].
    + intros _. rewrite (only_similarity_events_ready _ _ Hev). assumption.
    + assumption.
    + destruct (only_similarity_events_load_count _ _ Hev) as [-> _].
      assumption.
  - split; [split |]; [discriminate | assumption | assumption].
Qed.

Lemma gate_ok_request (bk : Backend) (ev : ServiceEvent) (app : App) :
  is_startup ev = false -> gate_ok app ->
  gate_ok (serve bk ev app) /\
  load_count (manager (serve bk ev app)) = load_count (manager app) /\
  _model (manager (serve bk ev app)) = _model (manager app).
Proof.
  intros Hev [Hf Hs]. pose proof Hs as ((_ & Hi & _) & _).
  destruct ev as [t0 t1 | | t0 t1 request | t0 t1 request |];
    try discriminate Hev; cbn [serve].
  - split; [split; [discriminate | exact Hs] | split; reflexivity].
  - destruct (model_ready app) eqn:Hm.
    + specialize (Hf eq_refl).
      destruct (post_similarity_ready bk t0 t1 request app Hm Hf Hi)
        as (q & _ & -> & _). unfold gate_ok.
      cbn [snd manager with_manager model_ready].
      pose proof (async_only_similarity_events bk (cv_text request)
                    (job_text request) (manager app) Hf Hi) as Ho.
      split; [split |].
      * intros _. rewrite (only_similarity_events_ready _ _ Ho). assumption.
      * apply (settled_perform bk (Do_calculate_similarity_async _ _)), Hs.
      * destruct (only_similarity_events_load_count _ _ Ho) as [-> _].
        destruct Ho as (-> & _). split; reflexivity.
    + destruct (post_similarity_unready bk t0 t1 request app Hm) as [-> _].
      cbn [snd]. split; [split; [rewrite Hm; discriminate | exact Hs] |].
      split; reflexivity.
  - destruct (model_ready app) eqn:Hm.
    + specialize (Hf eq_refl).
      destruct (post_similarity_ready bk t0 t1 request app Hm Hf Hi)
        as (q & _ & _ & ->). unfold gate_ok.
      cbn [snd manager with_manager model_ready].
      pose proof (calculate_similarity_when_ready bk (cv_text request)
                    (job_text request) (manager app) Hf) as Ho.
      split; [split |].
      * intros _. rewrite (only_similarity_events_ready _ _ Ho). assumption.
      * apply settled_calculate_similarity, Hs.
      * destruct (only_similarity_events_load_count _ _ Ho) as [-> _].
        destruct Ho as (-> & _). split; reflexivity.
    + destruct (post_similarity_unready bk t0 t1 request app Hm) as [_ ->].
      cbn [snd]. split; [split; [rewrite Hm; discriminate | exact Hs] |].
      split; reflexivity.
  - split; [split; assumption | split; reflexivity].
Qed.

Lemma gate_ok_serve (bk : Backend) (ev : ServiceEvent) (app : App) :
  gate_ok app ->
  gate_ok (serve bk ev app) /\
  load_count (manager (serve bk ev app))
    <= load_count (manager app) + (if is_startup ev then 1 else 0).
Proof.
  intros Hg. destruct (is_startup ev) eqn:Hev.
  - destruct ev; try discriminate Hev.
    destruct (gate_ok_startup bk t_start t_end app Hg). split; [assumption | lia].
  - destruct (gate_ok_request bk ev app Hev Hg) as (? & -> & _).
    split; [assumption | lia].
Qed.

Lemma gate_ok_serve_all (bk : Backend) (evs : list ServiceEvent) (app : App) :
  gate_ok app ->
  gate_ok (serve_all bk evs app) /\
  load_count (manager (serve_all bk evs app))
    <= load_count (manager app) + length (List.filter is_startup evs).
Proof.
  revert app. induction evs as [|ev evs IH]; intros app Hg.
  - cbn. split; [assumption | lia].
  - destruct (gate_ok_serve bk ev app Hg) as [Hg1 Hc1].
    destruct (IH _ Hg1) as [Hg2 Hc2].
    change (serve_all bk (ev :: evs) app)
      with (serve_all bk evs (serve bk ev app)).
    split; [assumption |]. cbn [List.filter].
    destruct (is_startup ev); cbn [length]; lia.
Qed.

(** X15.  Whatever events reach the service after import, and whatever
    the backend does: [model_ready] is set only while [is_ready()] answers
    true, so [/health] says "healthy" only over a loaded model; the model
    constructor has been entered at most once per startup, never by a
    request; and on the next request either handler raises its 503 while
    the flag is down and otherwise returns a body carrying the score of
    [calculate_similarity]: the [except] branch of neither handler, with
    the 500 it raises, is ever taken. *)
Theorem handlers_raise_503_or_return_a_body
        (bk : Backend) (evs : list ServiceEvent) :
  let app := serve_all bk evs app_imported in
  (health_status (health_check app) = "healthy" ->
   fst (is_ready (manager app)) = Returned true) /\
  load_count (manager app) <= length (List.filter is_startup evs) /\
  forall t_start t_end request,
    (model_ready app = false ->
     fst (post_similarity bk t_start t_end request app) =
       HTTPException 503
         (Detail_text
            "AI model is still loading. Please try again in a few seconds.") /\
     fst (post_similarity_sync bk t_start t_end request app) =
       HTTPException 503 (Detail_text "AI model is still loading.")) /\
    (model_ready app = true ->
     exists body,
       fst (post_similarity bk t_start t_end request app) = Responded body /\
       fst (post_similarity_sync bk t_start t_end request app)
         = Responded body /\
       fst (calculate_similarity bk (cv_text request) (job_text request)
              (manager app)) = Returned (similarity_raw body)).
Proof.
  intros app.
  destruct (gate_ok_serve_all bk evs app_imported gate_ok_imported)
    as [[Hf Hs] Hc]. fold app in Hf, Hs, Hc.
  pose proof Hs as ((_ & Hi & _) & _).
  split; [| split].
  - unfold health_check. cbn [health_status]. rewrite is_ready_eq. cbn [fst].
    destruct (model_ready app); [| discriminate].
    intros _. rewrite Hf; reflexivity.
  - exact Hc.
  - intros t0 t1 request. split; intros Hm.
    + destruct (post_similarity_unready bk t0 t1 request app Hm) as [-> ->].
      split; reflexivity.
    + destruct (post_similarity_ready bk t0 t1 request app Hm (Hf Hm) Hi)
        as (q & Hq & -> & ->).
      exists (success_body q t0 t1). auto.
Qed.

Lemma serve_unready (bk : Backend) (ev : ServiceEvent) (app : App) :
  is_startup ev = false -> model_ready app = false ->
  manager (serve bk ev app) = manager app /\
  model_ready (serve bk ev app) = false /\
  startup_time (serve bk ev app) = startup_time app.
Proof.
  intros Hev Hm.
  destruct ev as [t0 t1 | | t0 t1 request | t0 t1 request |];
    try discriminate Hev; cbn [serve].
  - repeat split.
  - destruct (post_similarity_unready bk t0 t1 request app Hm) as [-> _].
    cbn [snd]. auto.
  - destruct (post_similarity_unready bk t0 t1 request app Hm) as [_ ->].
    cbn [snd]. auto.
  - auto.
Qed.

(** X16.  While [model_ready] is false and no startup runs, nothing that
    reaches the service touches the manager: no load is started, no text
    is encoded, the flag stays down and both routes keep answering 503.
    This holds before the first startup, after a failed one, and after a
    shutdown even though the manager may then hold a loaded model. *)
Theorem unready_service_never_touches_the_manager
        (bk : Backend) (evs : list ServiceEvent) (app : App) :
  model_ready app = false ->
  forallb (fun ev => negb (is_startup ev)) evs = true ->
  manager (serve_all bk evs app) = manager app /\
  model_ready (serve_all bk evs app) = false /\
  startup_time (serve_all bk evs app) = startup_time app /\
  forall t_start t_end request,
    post_similarity bk t_start t_end request (serve_all bk evs app) =
      (HTTPException 503
         (Detail_text
            "AI model is still loading. Please try again in a few seconds."),
       serve_all bk evs app) /\
    post_similarity_sync bk t_start t_end request (serve_all bk evs app) =
      (HTTPException 503 (Detail_text "AI model is still loading."),
       serve_all bk evs app).
Proof.
  intros Hm Hevs.
  assert (H : manager (serve_all bk evs app) = manager app /\
              model_ready (serve_all bk evs app) = false /\
              startup_time (serve_all bk evs app) = startup_time app).
  { revert app Hm. induction evs as [|ev evs IH]; intros app Hm; [auto |].
    cbn [forallb] in Hevs. apply andb_prop in Hevs as [Hev Hevs].
    apply negb_true_iff in Hev.
    destruct (serve_unready bk ev app Hev Hm) as (Hw & Hm1 & Ht).
    destruct (IH Hevs _ Hm1) as (Hw2 & Hm2 & Ht2).
    change (serve_all bk (ev :: evs) app)
      with (serve_all bk evs (serve bk ev app)).
    rewrite Hw2, Ht2, Hw, Ht. auto. }
  destruct H as (Hw & Hm' & Ht). repeat split; try assumption.
  - apply post_similarity_unready; assumption.
  - apply post_similarity_unready; assumption.
Qed.

Lemma unready_service_never_touches_the_manager_witness :
  let app := shutdown_event
               (serve healthy_backend (Startup 10 12) app_imported) in
  let evs := [PostSimilarity 20 21
                {| cv_text := "python developer"; job_text := "python" |};
              GetHealth; Shutdown;
              PostSimilaritySync 30 31
                {| cv_text := "python developer"; job_text := "python" |}] in
  ready (manager app) = true /\
  manager (serve_all healthy_backend evs app) = manager app /\
  model_ready (serve_all healthy_backend evs app) = false /\
  startup_time (serve_all healthy_backend evs app) = startup_time app /\
  forall t_start t_end request,
    post_similarity healthy_backend t_start t_end request
      (serve_all healthy_backend evs app) =
      (HTTPException 503
         (Detail_text
            "AI model is still loading. Please try again in a few seconds."),
       serve_all healthy_backend evs app) /\
    post_similarity_sync healthy_backend t_start t_end request
      (serve_all healthy_backend evs app) =
      (HTTPException 503 (Detail_text "AI model is still loading."),
       serve_all healthy_backend evs app).
Proof.
  intros app evs. split; [reflexivity |].
  apply (unready_service_never_touches_the_manager healthy_backend evs app);
    reflexivity.
Defined.

(** X17.  On a service whose flag is up, a request on either route is
    answered with the same body, leaves the flag up and the service log
    alone, keeps the very model object the manager held, starts no load,
    and the two routes add the same events to the manager's trace: they
    differ only in the pool's table of futures. *)
Theorem ready_requests_leave_the_model_alone
        (bk : Backend) (evs : list ServiceEvent) (t_start t_end : Q)
        (request : SimilarityRequest) :
  model_ready (serve_all bk evs app_imported) = true ->
  let app := serve_all bk evs app_imported in
  let a := post_similarity bk t_start t_end request app in
  let s := post_similarity_sync bk t_start t_end request app in
  fst a = fst s /\
  (exists ex, manager (snd a) = with_executor ex (manager (snd s))) /\
  trace (manager (snd a)) = trace (manager (snd s)) /\
  _model (manager (snd s)) = _model (manager app) /\
  load_count (manager (snd s)) = load_count (manager app) /\
  fst (is_ready (manager (snd s))) = Returned true /\
  model_ready (snd a) = true /\ model_ready (snd s) = true /\
  app_log (snd a) = app_log app /\ app_log (snd s) = app_log app.
Proof.
  intros Hm app a s.
  destruct (gate_ok_serve_all bk evs app_imported gate_ok_imported)
    as [[Hf Hs] _]. fold app in Hf, Hs, Hm.
  pose proof Hs as ((_ & Hi & _) & _). specialize (Hf Hm).
  destruct (post_similarity_ready bk t_start t_end request app Hm Hf Hi)
    as (q & Hq & Ha & Hsy).
  subst a s. rewrite Ha, Hsy.
  cbn [fst snd manager with_manager model_ready app_log].
  pose proof (calculate_similarity_when_ready bk (cv_text request)
                (job_text request) (manager app) Hf) as Ho.
  rewrite (calculate_similarity_async_idle bk _ _ _ Hi). cbn [snd].
  split; [reflexivity |]. split; [eexists; reflexivity |].
  split; [reflexivity |].
  rewrite is_ready_eq, (only_similarity_events_ready _ _ Ho), Hf.
  destruct (only_similarity_events_load_count _ _ Ho) as [-> _].
  destruct Ho as (-> & _). repeat split; assumption.
Qed.

Lemma ready_requests_leave_the_model_alone_witness :
  let evs := [Startup 10 12] in
  let request := {| cv_text := "python developer"; job_text := "python" |} in
  model_ready (serve_all encode_fault_backend evs app_imported) = true /\
  let app := serve_all encode_fault_backend evs app_imported in
  let a := post_similarity encode_fault_backend 20 21 request app in
  let s := post_similarity_sync encode_fault_backend 20 21 request app in
  fst a = fst s /\
  (exists ex, manager (snd a) = with_executor ex (manager (snd s))) /\
  trace (manager (snd a)) = trace (manager (snd s)) /\
  _model (manager (snd s)) = _model (manager app) /\
  load_count (manager (snd s)) = load_count (manager app) /\
  fst (is_ready (manager (snd s))) = Returned true /\
  model_ready (snd a) = true /\ model_ready (snd s) = true /\
  app_log (snd a) = app_log app /\ app_log (snd s) = app_log app.
Proof.
  intros evs request. split; [reflexivity |].
  apply (ready_requests_leave_the_model_alone encode_fault_backend evs 20 21
           request).
  reflexivity.
Defined.
